(** * ddns-traefik-sync: the reconciliation engine, the zone matcher and the
    public-IP resolver, embedded from [app/sync_engine.py],
    [app/cloudflare_client.py] and [app/ip_resolver.py]; then the HTTP
    client, the configuration, the parser and the main loop, from
    [app/cloudflare_client.py], [app/config.py], [app/traefik_parser.py] and
    [app/main.py].

    Python values are modelled as follows.
    - [str] is [string]; a character is a code point below 256.
    - a JSON value read from the provider ([Any]) is a [jval]: null, a
      boolean, an integer or a string (the fields the engine reads are
      scalars; floats, arrays and objects are left out).
    - a JSON object ([dict[str, Any]]) is a [gmap string jval].
    - [set[str]] is a [gset string].
    - an exception is an [exn]; code that can raise returns an [outcome].
    - the engine's side effects (provider calls, log records, its local
      counters) are threaded through a state-and-exception monad.
    - the body of an HTTP answer is a record of the four keys the client
      reads; a [while True] loop takes a bound on its iterations and gives
      [None] when the bound is reached.
    - a compiled regular expression is the function that matches it at the
      start of a string; [finditer] runs it from left to right.
    - a loaded YAML value is a string, a mapping or anything else. *)

From Stdlib Require Import String Ascii ZArith DecimalString List Bool Lia.
From stdpp Require Import base option list gmap strings fin_maps fin_sets.

Set Warnings "-clear-no-such-hyp".

Local Open Scope string_scope.
Local Open Scope list_scope.
Local Open Scope nat_scope.

(** ** Python string primitives *)

Module PyStr.

(** [str.isspace] on one character: TAB..CR, FS..US, SPACE, NEL and NBSP. *)
Definition is_space (c : ascii) : bool :=
  let n := nat_of_ascii c in
  (((9 <=? n) && (n <=? 13)) || ((28 <=? n) && (n <=? 32))
   || (n =? 133) || (n =? 160))%nat.

(** [str.lower] on one character: A..Z, and the Latin-1 capitals
    U+00C0..U+00DE except the multiplication sign U+00D7. *)
Definition lower_char (c : ascii) : ascii :=
  let n := nat_of_ascii c in
  if (((65 <=? n) && (n <=? 90))
      || ((192 <=? n) && (n <=? 222) && negb (n =? 215)))%nat
  then ascii_of_nat (n + 32) else c.

Fixpoint lower (s : string) : string :=
  match s with
  | EmptyString => EmptyString
  | String c s' => String (lower_char c) (lower s')
  end.

Fixpoint lstrip (s : string) : string :=
  match s with
  | EmptyString => EmptyString
  | String c s' => if is_space c then lstrip s' else s
  end.

Fixpoint rstrip (s : string) : string :=
  match s with
  | EmptyString => EmptyString
  | String c s' =>
      match rstrip s' with
      | EmptyString => if is_space c then EmptyString else String c EmptyString
      | r => String c r
      end
  end.

(** [s.strip()] *)
Definition strip (s : string) : string := rstrip (lstrip s).

(** [pat in s] *)
Fixpoint contains (pat s : string) : bool :=
  String.prefix pat s ||
  match s with
  | EmptyString => false
  | String _ s' => contains pat s'
  end.

(** [s.endswith(suf)] *)
Fixpoint endswith (s suf : string) : bool :=
  String.eqb s suf ||
  match s with
  | EmptyString => false
  | String _ s' => endswith s' suf
  end.

(** [not s] for a string. *)
Definition is_empty (s : string) : bool :=
  match s with EmptyString => true | _ => false end.

(** Number of positions of [s] at which [pat] occurs. *)
Fixpoint occurrences (pat s : string) : nat :=
  (if String.prefix pat s then 1 else 0) +
  match s with
  | EmptyString => 0
  | String _ s' => occurrences pat s'
  end.

End PyStr.

(** ** JSON values and objects *)

Inductive jval : Type :=
| JNull
| JBool (b : bool)
| JNum (n : Z)
| JStr (s : string).

#[global] Instance jval_eq_dec : EqDecision jval.
Proof. solve_decision. Defined.

(** A JSON object as Python sees it. *)
Abbreviation dict := (gmap string jval).

(** [d.get(k, dflt)] *)
Definition dict_get (d : dict) (k : string) (dflt : jval) : jval :=
  default dflt (d !! k).

(** [str(v)] *)
Definition py_str (v : jval) : string :=
  match v with
  | JNull => "None"
  | JBool true => "True"
  | JBool false => "False"
  | JNum n => NilZero.string_of_int (Z.to_int n)
  | JStr s => s
  end.

(** [bool(v)] *)
Definition py_bool (v : jval) : bool :=
  match v with
  | JNull => false
  | JBool b => b
  | JNum n => negb (Z.eqb n 0)
  | JStr s => negb (PyStr.is_empty s)
  end.

(** ** Exceptions *)

#[warnings="-register-all"]
Inductive exn : Type :=
| CloudflareAPIError (msg : string)
| RequestException (msg : string)
| HTTPError (status : Z)
| AddressValueError (value : string)
| KeyError (key : string)
| IndexError
| AttributeError
| RuntimeError (errors : list (string * exn)).

Inductive outcome (A : Type) : Type :=
| Ok (a : A)
| Raise (e : exn).
Arguments Ok {A} a.
Arguments Raise {A} e.

(** ** [app/cloudflare_client.py]: constants and the zone matcher *)

Definition MANAGED_MARKER : string := "managed-by=ddns-traefik-sync".

Record ZoneMatch : Type := mkZoneMatch { zone_id : string; zone_name : string }.

(** ** [app/sync_engine.py]: the marker composer *)

(** A comment as [_compose_comment] receives it from a record: a value
    that is falsy behaves as [None] under [existing_comment or ""]; a string
    is passed on; on any other (truthy) value [.strip()] raises. *)
Definition as_comment (v : jval) : outcome (option string) :=
  match v with
  | JStr s => Ok (Some s)
  | _ => if py_bool v then Raise AttributeError else Ok None
  end.

(** [(existing_comment or "").strip()] *)
Definition or_empty_strip (existing_comment : option string) : string :=
  PyStr.strip (default "" existing_comment).

Definition _compose_comment (existing_comment : option string) : string :=
  let current := or_empty_strip existing_comment in
  if PyStr.is_empty current then MANAGED_MARKER
  else if PyStr.contains MANAGED_MARKER current then current
  else current +:+ " | " +:+ MANAGED_MARKER.

(** [CloudflareClient.find_best_zone_match]: one iteration of the loop over
    [zones], with [best] the running [(score, match)] pair. *)
Definition zone_step (domain : string)
    (best : option (nat * ZoneMatch)) (zone : dict) : option (nat * ZoneMatch) :=
  let zone_name := PyStr.lower (py_str (dict_get zone "name" (JStr ""))) in
  let zone_id := py_str (dict_get zone "id" (JStr "")) in
  if PyStr.is_empty zone_name || PyStr.is_empty zone_id then best
  else if String.eqb domain zone_name || PyStr.endswith domain ("." +:+ zone_name)
  then
    let score := String.length zone_name in
    let m := mkZoneMatch zone_id zone_name in
    match best with
    | None => Some (score, m)
    | Some (best_score, _) =>
        if (best_score <? score)%nat then Some (score, m) else best
    end
  else best.

Definition find_best_zone_match (domain : string) (zones : list dict)
    : option ZoneMatch :=
  match fold_left (zone_step domain) zones None with
  | Some (_, m) => Some m
  | None => None
  end.

(** ** Python's [sorted]: a stable sort on string keys *)

Section Sorted.
Context {A : Type} (key : A → string).

(** [x] goes in front of the first element whose key is not below its own,
    so records with equal keys keep their input order. *)
Fixpoint insert_by (x : A) (l : list A) : list A :=
  match l with
  | [] => [x]
  | y :: l' =>
      if String.leb (key x) (key y) then x :: l else y :: insert_by x l'
  end.

Definition sorted (l : list A) : list A := foldr insert_by [] l.
End Sorted.

(** ** [app/sync_engine.py]: record selection *)

Definition record_id_key (record : dict) : string :=
  py_str (dict_get record "id" (JStr "")).

(** [sorted(records, key=...)[0]]; indexing an empty list raises. *)
Definition _pick_record (records : list dict) : outcome dict :=
  match sorted record_id_key records with
  | [] => Raise IndexError
  | first :: _ => Ok first
  end.

(** ** The engine's effects *)

Record SyncSummary : Type := mkSyncSummary {
  creates : nat;
  updates : nat;
  noops : nat;
  deletes : nat;
  skipped : nat
}.

Inductive level : Type := INFO | WARNING.

(** The log records the engine and the resolver write, by format string. *)
Inductive log_record : Type :=
| LogSkipNoZone (domain : string)
| LogCreate (domain public_ip : string)
| LogMultipleRecords (domain : string)
| LogNoChange (domain public_ip : string)
| LogUpdate (domain current_ip public_ip : string)
| LogDeleteStale (name : string)
| LogResolveFailed (source : string) (e : exn).

(** What the engine does to the outside world, in order. *)
Inductive event : Type :=
| CallListZones
| CallListARecords (zone_id : string) (name : option string)
| CallCreateARecord (zone_id name ip : string) (proxied : bool) (comment : string)
| CallUpdateARecord (zone_id record_id name ip : string) (proxied : bool)
    (comment : string)
| CallDeleteRecord (zone_id record_id : string)
| CallGet (source : string) (timeout : Z)
| Log (lvl : level) (r : log_record).

(** The provider client as the engine uses it: five calls over the state
    [W] of whatever stands behind them, each returning or raising. *)
Record CloudflareClient (W : Type) : Type := mkClient {
  list_zones : W → outcome (list dict) * W;
  list_a_records : string → option string → W → outcome (list dict) * W;
  create_a_record :
    string → string → string → bool → string → W → outcome dict * W;
  update_a_record :
    string → string → string → string → bool → string → W → outcome dict * W;
  delete_record : string → string → W → outcome unit * W
}.
Arguments list_zones {W} _ _.
Arguments list_a_records {W} _ _ _ _.
Arguments create_a_record {W} _ _ _ _ _ _ _.
Arguments update_a_record {W} _ _ _ _ _ _ _ _.
Arguments delete_record {W} _ _ _ _.

(** The frame of one [sync_domains] call: the provider behind the client,
    what has been done so far, and the function's local variables. *)
Record frame (W : Type) : Type := mkFrame {
  provider : W;
  trace : list event;
  counts : SyncSummary;
  domain_to_zone : gmap string (string * string)
}.
Arguments mkFrame {W} _ _ _ _.
Arguments provider {W} _.
Arguments trace {W} _.
Arguments counts {W} _.
Arguments domain_to_zone {W} _.

Definition M (W A : Type) : Type := frame W → outcome A * frame W.

Definition ret {W A} (a : A) : M W A := fun σ => (Ok a, σ).

Definition bind {W A B} (m : M W A) (k : A → M W B) : M W B :=
  fun σ =>
    match m σ with
    | (Ok a, σ') => k a σ'
    | (Raise e, σ') => (Raise e, σ')
    end.

Definition raise {W A} (e : exn) : M W A := fun σ => (Raise e, σ).

Declare Scope engine_scope.
Delimit Scope engine_scope with engine.
Notation "x <- m ;; k" := (bind m (fun x => k))
  (at level 100, m at next level, k at level 200, right associativity)
  : engine_scope.
Notation "m ;; k" := (bind m (fun _ => k))
  (at level 100, k at level 200, right associativity) : engine_scope.
Local Open Scope engine_scope.

(** [for x in l: body(x)]; [continue] is the body returning early. *)
Fixpoint for_each {W A} (l : list A) (body : A → M W unit) : M W unit :=
  match l with
  | [] => ret tt
  | x :: l' => body x ;; for_each l' body
  end.

Definition emit {W} (e : event) : M W unit :=
  fun σ => (Ok tt, mkFrame (provider σ) (trace σ ++ [e]) (counts σ)
                     (domain_to_zone σ)).

Definition log {W} (lvl : level) (r : log_record) : M W unit :=
  emit (Log lvl r).

(** A call of the client: noted in the trace, then run on the provider. *)
Definition call {W A} (e : event) (op : W → outcome A * W) : M W A :=
  fun σ =>
    let '(o, w) := op (provider σ) in
    (o, mkFrame w (trace σ ++ [e]) (counts σ) (domain_to_zone σ)).

Definition update_counts {W} (f : SyncSummary → SyncSummary) : M W unit :=
  fun σ => (Ok tt, mkFrame (provider σ) (trace σ) (f (counts σ))
                     (domain_to_zone σ)).

Definition set_domain_to_zone {W} (domain : string) (z : string * string)
    : M W unit :=
  fun σ => (Ok tt, mkFrame (provider σ) (trace σ) (counts σ)
                     (<[domain := z]> (domain_to_zone σ))).

Definition get_domain_to_zone {W} : M W (gmap string (string * string)) :=
  fun σ => (Ok (domain_to_zone σ), σ).

Definition get_counts {W} : M W SyncSummary := fun σ => (Ok (counts σ), σ).

(** A pure computation that may raise. *)
Definition lift {W A} (o : outcome A) : M W A := fun σ => (o, σ).

(** [d[k]] *)
Definition getitem (d : dict) (k : string) : outcome jval :=
  match d !! k with
  | Some v => Ok v
  | None => Raise (KeyError k)
  end.

Definition incr_creates (s : SyncSummary) : SyncSummary :=
  mkSyncSummary (creates s + 1) (updates s) (noops s) (deletes s) (skipped s).
Definition incr_updates (s : SyncSummary) : SyncSummary :=
  mkSyncSummary (creates s) (updates s + 1) (noops s) (deletes s) (skipped s).
Definition incr_noops (s : SyncSummary) : SyncSummary :=
  mkSyncSummary (creates s) (updates s) (noops s + 1) (deletes s) (skipped s).
Definition incr_deletes (s : SyncSummary) : SyncSummary :=
  mkSyncSummary (creates s) (updates s) (noops s) (deletes s + 1) (skipped s).
Definition incr_skipped (s : SyncSummary) : SyncSummary :=
  mkSyncSummary (creates s) (updates s) (noops s) (deletes s) (skipped s + 1).

(** ** [app/sync_engine.py]: [sync_domains] *)

Section SyncDomains.
Context {W : Type}.
Variables (domains : gset string) (public_ip : string)
          (default_proxied dry_run cleanup_stale : bool)
          (cloudflare : CloudflareClient W).

(** First loop: [for domain in sorted(domains)]. *)
Definition match_domain (zones : list dict) (domain : string) : M W unit :=
  match find_best_zone_match domain zones with
  | None =>
      log WARNING (LogSkipNoZone domain) ;;
      update_counts incr_skipped
  | Some m => set_domain_to_zone domain (zone_id m, zone_name m)
  end.

(** Second loop: [for domain in sorted(domain_to_zone)]. *)
Definition sync_domain (domain : string) : M W unit :=
  dtz <- get_domain_to_zone ;;
  z <- lift (match dtz !! domain with
             | Some z => Ok z
             | None => Raise (KeyError domain)
             end) ;;
  let zone_id := fst z in
  listed <- call (CallListARecords zone_id (Some domain))
              (list_a_records cloudflare zone_id (Some domain)) ;;
  let records :=
    filter (fun record => dict_get record "name" JNull = JStr domain) listed in
  match records with
  | [] =>
      update_counts incr_creates ;;
      log INFO (LogCreate domain public_ip) ;;
      if dry_run then ret tt
      else
        _ <- call (CallCreateARecord zone_id domain public_ip default_proxied
                     MANAGED_MARKER)
               (create_a_record cloudflare zone_id domain public_ip
                  default_proxied MANAGED_MARKER) ;;
        ret tt
  | _ :: _ =>
      (if (1 <? length records)%nat
       then log WARNING (LogMultipleRecords domain) else ret tt) ;;
      target <- lift (_pick_record records) ;;
      let current_ip := py_str (dict_get target "content" (JStr "")) in
      let proxied :=
        py_bool (dict_get target "proxied" (JBool default_proxied)) in
      existing <- lift (as_comment (dict_get target "comment" JNull)) ;;
      let comment := _compose_comment existing in
      if String.eqb current_ip public_ip
         && String.eqb comment (or_empty_strip existing)
      then
        update_counts incr_noops ;;
        log INFO (LogNoChange domain public_ip)
      else
        update_counts incr_updates ;;
        log INFO (LogUpdate domain current_ip public_ip) ;;
        if dry_run then ret tt
        else
          rid <- lift (getitem target "id") ;;
          _ <- call (CallUpdateARecord zone_id (py_str rid) domain public_ip
                       proxied comment)
                 (update_a_record cloudflare zone_id (py_str rid) domain
                    public_ip proxied comment) ;;
          ret tt
  end.

(** Cleanup, inner loop: [for record in a_records]. *)
Definition cleanup_record (desired : gset string) (zone_id : string)
    (record : dict) : M W unit :=
  let name := PyStr.lower (py_str (dict_get record "name" (JStr ""))) in
  let comment := py_str (dict_get record "comment" (JStr "")) in
  if negb (PyStr.contains MANAGED_MARKER comment) then ret tt
  else if bool_decide (name ∈ desired) then ret tt
  else
    update_counts incr_deletes ;;
    log INFO (LogDeleteStale name) ;;
    if dry_run then ret tt
    else
      rid <- lift (getitem record "id") ;;
      call (CallDeleteRecord zone_id (py_str rid))
        (delete_record cloudflare zone_id (py_str rid)).

(** Cleanup, outer loop: [for zone in zones]. *)
Definition cleanup_zone (desired : gset string) (zone : dict) : M W unit :=
  let zone_id := py_str (dict_get zone "id" (JStr "")) in
  if PyStr.is_empty zone_id then ret tt
  else
    a_records <- call (CallListARecords zone_id None)
                   (list_a_records cloudflare zone_id None) ;;
    for_each a_records (cleanup_record desired zone_id).

Definition sync_domains_body : M W SyncSummary :=
  zones <- call CallListZones (list_zones cloudflare) ;;
  for_each (sorted id (elements domains)) (match_domain zones) ;;
  dtz <- get_domain_to_zone ;;
  for_each (sorted id (elements (dom dtz))) sync_domain ;;
  (if cleanup_stale
   then let desired := domains in for_each zones (cleanup_zone desired)
   else ret tt) ;;
  get_counts.

Definition initial_frame (w : W) : frame W :=
  mkFrame w [] (mkSyncSummary 0 0 0 0 0) ∅.

(** The call as its caller sees it: the summary or the exception, the
    provider afterwards, and everything that was sent or logged. *)
Definition sync_domains (w : W) : outcome SyncSummary * W * list event :=
  let '(o, σ) := sync_domains_body (initial_frame w) in
  (o, provider σ, trace σ).
End SyncDomains.

(** ** [app/ip_resolver.py] *)

Record Response : Type := mkResponse {
  raise_for_status : outcome unit;
  text : string
}.

Section Resolver.
Context {S : Type}.
(** [session.get(source, timeout=...)] over the state [S] of the network,
    and [ipaddress.IPv4Address] as a check that returns or raises. *)
Variables (session_get : string → Z → S → outcome Response * S)
          (IPv4Address : string → outcome unit).

(** The [try] block for one source, once the request has come back. *)
Definition read_response (got : outcome Response) : outcome string :=
  match got with
  | Raise e => Raise e
  | Ok response =>
      match raise_for_status response with
      | Raise e => Raise e
      | Ok _ =>
          let value := PyStr.strip (text response) in
          match IPv4Address value with
          | Raise e => Raise e
          | Ok _ => Ok value
          end
      end
  end.

Fixpoint resolve_loop (sources : list string) (timeout_seconds : Z)
    (errors : list (string * exn)) (s : S) (tr : list event)
    : outcome string * S * list event :=
  match sources with
  | [] => (Raise (RuntimeError errors), s, tr)
  | source :: rest =>
      let '(got, s') := session_get source timeout_seconds s in
      let tr' := (tr ++ [CallGet source timeout_seconds])%list in
      match read_response got with
      | Ok value => (Ok value, s', tr')
      | Raise exc =>
          resolve_loop rest timeout_seconds
            (errors ++ [(source, exc)])%list s'
            (tr' ++ [Log WARNING (LogResolveFailed source exc)])%list
      end
  end.

Definition resolve_public_ipv4 (sources : list string) (timeout_seconds : Z)
    (s : S) : outcome string * S * list event :=
  resolve_loop sources timeout_seconds [] s [].
End Resolver.

(** ** The test doubles of [tests/] *)

Module TestDoubles.

(** [FakeCloudflare] of [tests/test_sync_engine.py]: the three lists the
    mutating calls append to, and the fixed answers to the listings. *)
Record fake : Type := mkFake {
  created : list (string * string * string * bool * string);
  updated : list (string * string * string * string * bool * string);
  deleted : list (string * string);
  _zones : list dict;
  _records_by_name : gmap string (list dict);
  _all_zone_records : list dict
}.

Definition record_of (id name content : string) (proxied : bool)
    (comment : string) : dict :=
  {[ "id" := JStr id; "name" := JStr name; "content" := JStr content;
     "proxied" := JBool proxied; "comment" := JStr comment ]}.

(** [FakeCloudflare.__init__] *)
Definition fake_init : fake :=
  mkFake [] [] []
    [ {[ "id" := JStr "zone1"; "name" := JStr "example.com" ]} ]
    {[ "exists.example.com" :=
         [record_of "r1" "exists.example.com" "198.51.100.10" true ""];
       "same.example.com" :=
         [record_of "r2" "same.example.com" "203.0.113.10" false
            MANAGED_MARKER] ]}
    [ {[ "id" := JStr "r3"; "name" := JStr "stale.example.com";
         "comment" := JStr MANAGED_MARKER ]};
      {[ "id" := JStr "r4"; "name" := JStr "other.example.com";
         "comment" := JStr "" ]} ].

Definition fake_list_a_records (zone_id : string) (name : option string)
    (w : fake) : outcome (list dict) * fake :=
  match name with
  | Some n =>
      if PyStr.is_empty n then (Ok (_all_zone_records w), w)
      else (Ok (default [] (_records_by_name w !! n)), w)
  | None => (Ok (_all_zone_records w), w)
  end.

Definition FakeCloudflare : CloudflareClient fake :=
  mkClient fake
    (fun w => (Ok (_zones w), w))
    fake_list_a_records
    (fun zone_id name ip proxied comment w =>
       (Ok {[ "id" := JStr "new" ]},
        mkFake (created w ++ [(zone_id, name, ip, proxied, comment)])
          (updated w) (deleted w)
          (_zones w) (_records_by_name w) (_all_zone_records w)))
    (fun zone_id record_id name ip proxied comment w =>
       (Ok {[ "id" := JStr record_id ]},
        mkFake (created w)
          (updated w ++ [(zone_id, record_id, name, ip, proxied, comment)])
          (deleted w)
          (_zones w) (_records_by_name w) (_all_zone_records w)))
    (fun zone_id record_id w =>
       (Ok tt,
        mkFake (created w) (updated w) (deleted w ++ [(zone_id, record_id)])
          (_zones w) (_records_by_name w) (_all_zone_records w))).

(** The same double over other fixtures. *)
Definition fake_with (zones : list dict)
    (by_name : gmap string (list dict)) (all : list dict) : fake :=
  mkFake [] [] [] zones by_name all.

(** A client whose token may read but not write: the listings answer as
    [FakeCloudflare] does, and every mutating call ends, as
    [CloudflareClient._request] does then, in [CloudflareAPIError]. *)
Definition ReadOnlyCloudflare : CloudflareClient fake :=
  mkClient fake
    (list_zones FakeCloudflare)
    (list_a_records FakeCloudflare)
    (fun zone_id name ip proxied comment w =>
       (Raise (CloudflareAPIError "POST"), w))
    (fun zone_id record_id name ip proxied comment w =>
       (Raise (CloudflareAPIError "PUT"), w))
    (fun zone_id record_id w => (Raise (CloudflareAPIError "DELETE"), w)).

(** [_Session] of [tests/test_ip_resolver.py]: it counts its calls; the
    first raises, the second answers with text that is no address, every
    later one with an address and a newline. *)
Definition newline : string := String (ascii_of_nat 10) EmptyString.

Definition test_session_get (source : string) (timeout : Z) (calls : nat)
    : outcome Response * nat :=
  let calls := (calls + 1)%nat in
  if (calls =? 1)%nat then (Raise (RequestException "network issue"), calls)
  else if (calls =? 2)%nat then (Ok (mkResponse (Ok tt) "not-an-ip"), calls)
  else (Ok (mkResponse (Ok tt) ("203.0.113.10" +:+ newline)), calls).

(** [ipaddress.IPv4Address] on a string, as CPython reads it: four octets
    separated by dots, each of one to three ASCII digits, no leading zero
    and at most 255. *)
Definition is_digit (c : ascii) : bool :=
  let n := nat_of_ascii c in ((48 <=? n) && (n <=? 57))%nat.

Fixpoint split_dots (cur : string) (s : string) : list string :=
  match s with
  | EmptyString => [cur]
  | String c s' =>
      if Ascii.eqb c "."%char then cur :: split_dots EmptyString s'
      else split_dots (cur +:+ String c EmptyString) s'
  end.

Fixpoint all_digits (s : string) : bool :=
  match s with
  | EmptyString => true
  | String c s' => is_digit c && all_digits s'
  end.

Fixpoint decimal_value (acc : N) (s : string) : N :=
  match s with
  | EmptyString => acc
  | String c s' => decimal_value (10 * acc + (N_of_ascii c - 48))%N s'
  end.

Definition octet_ok (o : string) : bool :=
  if PyStr.is_empty o then false
  else if negb (all_digits o) then false
  else if (3 <? String.length o)%nat then false
  else if negb (String.eqb o "0") && String.prefix "0" o then false
  else (decimal_value 0 o <=? 255)%N.

Definition ipv4_address (value : string) : outcome unit :=
  let octets := split_dots EmptyString value in
  if (length octets =? 4)%nat && forallb octet_ok octets then Ok tt
  else Raise (AddressValueError value).

End TestDoubles.

Import TestDoubles.

(** ** Vocabulary of the statements below *)

(** [s] holds no character [c]. *)
Fixpoint lacks (c : ascii) (s : string) : bool :=
  match s with
  | EmptyString => true
  | String x s' => negb (Ascii.eqb x c) && lacks c s'
  end.

(** The name and the id the zone matcher reads off a zone. *)
Definition zone_name_of (zone : dict) : string :=
  PyStr.lower (py_str (dict_get zone "name" (JStr ""))).

Definition zone_id_of (zone : dict) : string :=
  py_str (dict_get zone "id" (JStr "")).

(** [zone] can own [domain]: it has a name and an id, and [domain] is that
    name or ends with a dot and that name. *)
Definition serves (domain : string) (zone : dict) : Prop :=
  zone_name_of zone ≠ "" ∧ zone_id_of zone ≠ "" ∧
  (domain = zone_name_of zone ∨ ∃ a, domain = a +:+ "." +:+ zone_name_of zone).

Definition servesb (domain : string) (zone : dict) : bool :=
  negb (PyStr.is_empty (zone_name_of zone) || PyStr.is_empty (zone_id_of zone))
  && (String.eqb domain (zone_name_of zone)
      || PyStr.endswith domain ("." +:+ zone_name_of zone)).

(** The zones of [tests/test_cloudflare_client.py]. *)
Definition zone_example : dict :=
  {[ "id" := JStr "1"; "name" := JStr "example.com" ]}.
Definition zone_sub_example : dict :=
  {[ "id" := JStr "2"; "name" := JStr "sub.example.com" ]}.

(** What the running [best] is after the loop has seen [zones]. *)
Definition best_of (domain : string) (zones : list dict)
    (best : option (nat * ZoneMatch)) : Prop :=
  match best with
  | None => ∀ zone, zone ∈ zones → ¬ serves domain zone
  | Some (score, m) =>
      ∃ zone, zone ∈ zones ∧ serves domain zone ∧
        score = String.length (zone_name_of zone) ∧
        m = mkZoneMatch (zone_id_of zone) (zone_name_of zone) ∧
        ∀ zone', zone' ∈ zones → serves domain zone' →
          (String.length (zone_name_of zone') ≤ score)%nat
  end.

(** The records of a listing that the second loop keeps: those whose name
    is exactly [domain]. *)
Definition named (domain : string) (listed : list dict) : list dict :=
  filter (fun record => dict_get record "name" JNull = JStr domain) listed.

(** The warning written when a hostname has more than one record. *)
Definition multiple_warning (domain : string) (records : list dict) : list event :=
  if (1 <? length records)%nat then [Log WARNING (LogMultipleRecords domain)]
  else [].

(** [bool(target.get("proxied", default_proxied))] *)
Definition proxied_of (default_proxied : bool) (target : dict) : bool :=
  py_bool (dict_get target "proxied" (JBool default_proxied)).

(** [str(target.get("content", ""))] *)
Definition content_of (target : dict) : string :=
  py_str (dict_get target "content" (JStr "")).

(** The outcome of a call whose result is dropped. *)
Definition unit_outcome {A} (o : outcome A) : outcome unit :=
  match o with Ok _ => Ok tt | Raise e => Raise e end.

(** The proxied flag a record carries, or [default_proxied] when it has no
    such field. *)
Definition existing_proxied (default_proxied : bool) (target : dict) : bool :=
  match target !! "proxied" with
  | Some v => py_bool v
  | None => default_proxied
  end.

(** The frame in which the second loop reaches [domain], matched to
    [zone1], on the test double. *)
Definition frame_at (w : fake) (domain : string) : frame fake :=
  mkFrame w [] (mkSyncSummary 0 0 0 0 0) {[ domain := ("zone1", "example.com") ]}.

(** A record whose comment is the marker after one space, at the desired
    address. *)
Definition padded_record : dict :=
  record_of "r9" "pad.example.com" "203.0.113.10" false
    (" " +:+ MANAGED_MARKER).

Definition padded_fake : fake :=
  fake_with [ {[ "id" := JStr "zone1"; "name" := JStr "example.com" ]} ]
    {[ "pad.example.com" := [padded_record] ]} [].

(** [h], the head of [l], has a key that is not above any key of [l]. *)
Definition least_first {A : Type} (key : A → string) (l : list A) : Prop :=
  match l with
  | [] => True
  | h :: _ => ∀ x, x ∈ l → String.leb (key h) (key x) = true
  end.

(** The name and the comment the pruner reads off a record. *)
Definition pruner_name (record : dict) : string :=
  PyStr.lower (py_str (dict_get record "name" (JStr ""))).

Definition pruner_comment (record : dict) : string :=
  py_str (dict_get record "comment" (JStr "")).

(** A stale managed record: its comment holds the marker and its lowercased
    name is not desired. *)
Definition stale (desired : gset string) (record : dict) : Prop :=
  PyStr.contains MANAGED_MARKER (pruner_comment record) = true
  ∧ pruner_name record ∉ desired.

#[global] Instance stale_dec desired record : Decision (stale desired record).
Proof. unfold stale. apply _. Defined.

(** What the pruner logs and sends for one record. *)
Definition prune_actions (dry_run : bool) (desired : gset string)
    (zone_id : string) (record : dict) : list event :=
  if decide (stale desired record)
  then Log INFO (LogDeleteStale (pruner_name record))
       :: (if dry_run then []
           else [CallDeleteRecord zone_id (record_id_key record)])
  else [].

(** The domains a summary accounts for. *)
Definition accounted (s : SyncSummary) : nat :=
  creates s + updates s + noops s + skipped s.

(** A call that changes the provider's records. *)
Definition is_mutation (e : event) : bool :=
  match e with
  | CallCreateARecord _ _ _ _ _ | CallUpdateARecord _ _ _ _ _ _
  | CallDeleteRecord _ _ => true
  | _ => false
  end.

(** [R] relates the provider of a real run to that of a dry run. The
    listings answer alike from related providers and keep them related. *)
Definition reads_agree {W} (cloudflare : CloudflareClient W)
    (R : W → W → Prop) : Prop :=
  (∀ w1 w2 zones w1', R w1 w2 →
     list_zones cloudflare w1 = (Ok zones, w1') →
     ∃ w2', list_zones cloudflare w2 = (Ok zones, w2') ∧ R w1' w2')
  ∧ (∀ zid name w1 w2 records w1', R w1 w2 →
       list_a_records cloudflare zid name w1 = (Ok records, w1') →
       ∃ w2', list_a_records cloudflare zid name w2 = (Ok records, w2')
              ∧ R w1' w2').

(** A mutating call that succeeds on the real run's provider leaves it
    related to the dry run's. *)
Definition writes_unseen {W} (cloudflare : CloudflareClient W)
    (R : W → W → Prop) : Prop :=
  (∀ zid name ip proxied comment w1 w2 r w1', R w1 w2 →
     create_a_record cloudflare zid name ip proxied comment w1 = (Ok r, w1') →
     R w1' w2)
  ∧ (∀ zid rid name ip proxied comment w1 w2 r w1', R w1 w2 →
       update_a_record cloudflare zid rid name ip proxied comment w1
       = (Ok r, w1') → R w1' w2)
  ∧ (∀ zid rid w1 w2 r w1', R w1 w2 →
       delete_record cloudflare zid rid w1 = (Ok r, w1') → R w1' w2).

(** Frames of a real and a dry run that agree on everything but the
    provider and the trace. *)
Definition sim {W} (R : W → W → Prop) (σ1 σ2 : frame W) : Prop :=
  R (provider σ1) (provider σ2) ∧ counts σ1 = counts σ2
  ∧ domain_to_zone σ1 = domain_to_zone σ2.

(** Whatever [m1] returns from a frame, [m2] returns from a similar one. *)
Definition simulates {W A} (R : W → W → Prop) (m1 m2 : M W A) : Prop :=
  ∀ σ1 σ2 a σ1', sim R σ1 σ2 → m1 σ1 = (Ok a, σ1') →
    ∃ σ2', m2 σ2 = (Ok a, σ2') ∧ sim R σ1' σ2'.

(** [m] sends no mutating call. *)
Definition quiet {W A} (m : M W A) : Prop :=
  ∀ σ, ∃ sent, trace (m σ).2 = trace σ ++ sent
               ∧ Forall (fun e => is_mutation e = false) sent.

(** Two states of the test double with the same fixtures. *)
Definition same_fixtures (w1 w2 : fake) : Prop :=
  _zones w1 = _zones w2 ∧ _records_by_name w1 = _records_by_name w2
  ∧ _all_zone_records w1 = _all_zone_records w2.

(** The sources a trace shows were contacted, in order. *)
Definition contacted (tr : list event) : list string :=
  omap (fun e => match e with CallGet source _ => Some source | _ => None end)
    tr.

Section ResolverVocabulary.
Context {S : Type}.
Variables (session_get : string → Z → S → outcome Response * S)
          (IPv4Address : string → outcome unit) (timeout_seconds : Z).

(** One source tried from the network state [s]: the address it gives or
    the exception it ends in, and the state afterwards. *)
Definition attempt (source : string) (s : S) : outcome string * S :=
  let '(got, s') := session_get source timeout_seconds s in
  (read_response IPv4Address got, s').

(** The network state after every source of the list has been tried. *)
Fixpoint after_all (sources : list string) (s : S) : S :=
  match sources with
  | [] => s
  | source :: rest => after_all rest (attempt source s).2
  end.

(** Tried one after the other from [s], every source of the list fails or
    answers with something that is no IPv4 address. *)
Fixpoint all_fail (sources : list string) (s : S) : Prop :=
  match sources with
  | [] => True
  | source :: rest =>
      (∃ e, (attempt source s).1 = Raise e) ∧ all_fail rest (attempt source s).2
  end.
End ResolverVocabulary.

(** ** A provider that keeps its records in memory *)

(** Not part of the repository: a provider whose listings show what the
    mutating calls have done, as a DNS provider's do. A record is kept with
    the id of its zone. *)
Record memory : Type := mkMemory {
  memory_zones : list dict;
  memory_records : list (string * dict)
}.

Definition memory_list (zone_id : string) (name : option string) (w : memory)
    : list dict :=
  snd <$>
    match name with
    | Some n =>
        filter (fun zr => fst zr = zone_id
                          ∧ dict_get (snd zr) "name" JNull = JStr n)
          (memory_records w)
    | None => filter (fun zr => fst zr = zone_id) (memory_records w)
    end.

Definition MemoryCloudflare : CloudflareClient memory :=
  mkClient memory
    (fun w => (Ok (memory_zones w), w))
    (fun zone_id name w => (Ok (memory_list zone_id name w), w))
    (fun zone_id name ip proxied comment w =>
       let record := record_of ("new-" +:+ name) name ip proxied comment in
       (Ok record,
        mkMemory (memory_zones w) (memory_records w ++ [(zone_id, record)])))
    (fun zone_id record_id name ip proxied comment w =>
       let record := record_of record_id name ip proxied comment in
       (Ok record,
        mkMemory (memory_zones w)
          ((fun zr => if decide (fst zr = zone_id
                                 ∧ record_id_key (snd zr) = record_id)
                      then (zone_id, record) else zr)
             <$> memory_records w)))
    (fun zone_id record_id w =>
       (Ok tt,
        mkMemory (memory_zones w)
          (filter (fun zr => ¬ (fst zr = zone_id
                                ∧ record_id_key (snd zr) = record_id))
             (memory_records w)))).

(** ** What a run sends *)

(** From a frame whose [domain_to_zone] is [dtz], [m] keeps it, every event
    it adds to the trace satisfies [P], and a value it returns satisfies
    [Q]. *)
Definition sends {W A} (dtz : gmap string (string * string))
    (P : event → Prop) (Q : A → Prop) (m : M W A) : Prop :=
  ∀ σ, domain_to_zone σ = dtz →
    ∃ sent, trace (m σ).2 = trace σ ++ sent ∧ Forall P sent
      ∧ domain_to_zone (m σ).2 = dtz
      ∧ ∀ a, (m σ).1 = Ok a → Q a.

(** What a run may send: a lookup by name, a create or an update only where
    [placed] allows the zone id and the name; a create or an update only at
    the public address and with a comment that holds the marker (a create
    with the marker alone and the default proxying); a delete only where
    deletes are allowed. *)
Definition engine_event (public_ip : string) (default_proxied : bool)
    (placed : string → string → Prop) (may_delete : bool) (e : event)
    : Prop :=
  match e with
  | CallListARecords zone_id (Some name) => placed zone_id name
  | CallCreateARecord zone_id name ip proxied comment =>
      placed zone_id name ∧ ip = public_ip ∧ proxied = default_proxied
      ∧ comment = MANAGED_MARKER
  | CallUpdateARecord zone_id _ name ip _ comment =>
      placed zone_id name ∧ ip = public_ip
      ∧ PyStr.contains MANAGED_MARKER comment = true
  | CallDeleteRecord _ _ => may_delete = true
  | _ => True
  end.

(** The name is one of [domains], and the zone id is the one the matcher
    picks for it among the zones the provider lists from [w]. *)
Definition placed_by {W} (cloudflare : CloudflareClient W) (w : W)
    (domains : gset string) (zid name : string) : Prop :=
  name ∈ domains
  ∧ ∃ zones w1 m, list_zones cloudflare w = (Ok zones, w1)
      ∧ find_best_zone_match name zones = Some m
      ∧ zone_id m = zid.

(** ** [app/cloudflare_client.py]: the HTTP client *)

Module Client.

(** The body of an answer as the client reads it, with [R] the type of what
    stands under [result]: a list of objects for a listing, one object for a
    create or an update. A field is [None] when the key is absent;
    [errors] holds what the value prints as, [total_pages] the integer under
    [result_info]. *)
Record body (R : Type) : Type := mkBody {
  success : option jval;
  errors : option string;
  result : option R;
  total_pages : option Z
}.
Arguments mkBody {R} _ _ _ _.
Arguments success {R} _.
Arguments errors {R} _.
Arguments result {R} _.
Arguments total_pages {R} _.

(** A [requests.Response]. *)
Record response (R : Type) : Type := mkResponse {
  status_code : Z;
  text : string;
  raise_for_status : outcome unit;
  json : outcome (body R)
}.
Arguments mkResponse {R} _ _ _ _.
Arguments status_code {R} _.
Arguments text {R} _.
Arguments raise_for_status {R} _.
Arguments json {R} _.

(** What the client does to the outside world, in order. *)
Inductive client_event : Type :=
| Request (method url : string) (params payload : option dict)
    (headers : dict) (timeout : Z)
| Warning (attempt retries : Z) (method path : string) (exc : exn)
    (sleep_seconds : Z)
| Sleep (seconds : Z).

(** The session behind the client and what the client has done so far. *)
Record net (H : Type) : Type := mkNet {
  session : H;
  journal : list client_event
}.
Arguments mkNet {H} _ _.
Arguments session {H} _.
Arguments journal {H} _.

(** The attributes [__init__] sets from its arguments. *)
Record client : Type := mkClientConfig {
  api_token : string;
  _timeout_seconds : Z
}.

Definition _base_url : string := "https://api.cloudflare.com/client/v4".

Definition _headers (self : client) : dict :=
  {[ "Authorization" := JStr ("Bearer " +:+ api_token self);
     "Content-Type" := JStr "application/json" ]}.

(** [range(lo, hi)] *)
Definition range (lo hi : Z) : list Z :=
  map (fun i => (lo + Z.of_nat i)%Z) (seq 0 (Z.to_nat (hi - lo))).

(** [except (requests.RequestException, CloudflareAPIError)];
    [HTTPError] is a [RequestException]. *)
Definition caught (e : exn) : bool :=
  match e with
  | RequestException _ | HTTPError _ | CloudflareAPIError _ => true
  | _ => false
  end.

Section Request.
Context {H R : Type}.
(** [session.request(method=, url=, params=, json=, headers=, timeout=)]
    over the state [H] of the network, and [str] on an exception. *)
Variables
  (session_request :
     string → string → option dict → option dict → dict → Z → H →
     outcome (response R) * H)
  (str_exc : exn → string).
Variable self : client.

(** The [try] block, once the request has come back. *)
Definition attempt_once (method path : string)
    (got : outcome (response R)) : outcome (body R) :=
  match got with
  | Raise e => Raise e
  | Ok response =>
      let status := status_code response in
      if (status =? 429)%Z || ((500 <=? status)%Z && (status <? 600)%Z)
      then Raise (CloudflareAPIError
                    ("Retryable Cloudflare status " +:+ py_str (JNum status)
                     +:+ ": " +:+ text response))
      else
        match raise_for_status response with
        | Raise e => Raise e
        | Ok _ =>
            match json response with
            | Raise e => Raise e
            | Ok data =>
                if negb (py_bool (default (JBool false) (success data)))
                then Raise (CloudflareAPIError
                              ("Cloudflare API error for " +:+ method +:+ " "
                               +:+ path +:+ ": "
                               +:+ default "[]" (errors data)))
                else Ok data
            end
        end
  end.

(** The [raise] after the loop. *)
Definition request_failed (method path : string) (last_error : option exn)
    : exn :=
  CloudflareAPIError
    ("Cloudflare request failed for " +:+ method +:+ " " +:+ path +:+ ": "
     +:+ match last_error with
         | None => "None"
         | Some exc => str_exc exc
         end).

(** [for attempt in range(1, retries + 1)], over the attempts left. *)
Fixpoint request_loop (method path : string) (params payload : option dict)
    (retries : Z) (attempts : list Z) (last_error : option exn) (n : net H)
    : outcome (body R) * net H :=
  match attempts with
  | [] => (Raise (request_failed method path last_error), n)
  | attempt :: rest =>
      let url := _base_url +:+ path in
      let '(got, h) :=
        session_request method url params payload (_headers self)
          (_timeout_seconds self) (session n) in
      let n1 :=
        mkNet h (journal n ++ [Request method url params payload
                                 (_headers self) (_timeout_seconds self)]) in
      match attempt_once method path got with
      | Ok data => (Ok data, n1)
      | Raise exc =>
          if caught exc then
            if (attempt >=? retries)%Z
            then (Raise (request_failed method path (Some exc)), n1)
            else
              let sleep_seconds := attempt in
              request_loop method path params payload retries rest (Some exc)
                (mkNet h (journal n1
                          ++ [Warning attempt retries method path exc
                                sleep_seconds;
                              Sleep sleep_seconds]))
          else (Raise exc, n1)
      end
  end.

Definition _request (method path : string) (params payload : option dict)
    (retries : Z) (n : net H) : outcome (body R) * net H :=
  request_loop method path params payload retries (range 1 (retries + 1))
    None n.
End Request.

Section Listings.
Context {H : Type}.
Variables
  (session_request :
     string → string → option dict → option dict → dict → Z → H →
     outcome (response (list dict)) * H)
  (str_exc : exn → string).
Variable self : client.

(** The [while True] loop of [list_zones] and of [list_a_records], which
    differ in the path and in the parameters of a page; [None] when the
    loop is still running after [fuel] pages. *)
Fixpoint list_pages (fuel : nat) (path : string) (params : Z → dict)
    (page : Z) (acc : list dict) (n : net H)
    : option (outcome (list dict) * net H) :=
  match fuel with
  | O => None
  | S fuel' =>
      let '(o, n1) :=
        _request session_request str_exc self "GET" path
          (Some (params page)) None 3 n in
      match o with
      | Raise e => Some (Raise e, n1)
      | Ok data =>
          let acc' := acc ++ default [] (result data) in
          let total := default 1%Z (total_pages data) in
          if (page >=? total)%Z then Some (Ok acc', n1)
          else list_pages fuel' path params (page + 1)%Z acc' n1
      end
  end.

Definition list_zones (fuel : nat) (n : net H)
    : option (outcome (list dict) * net H) :=
  list_pages fuel "/zones"
    (fun page => {[ "page" := JNum page; "per_page" := JNum 50 ]}) 1%Z [] n.

Definition list_a_records (fuel : nat) (zone_id : string)
    (name : option string) (n : net H)
    : option (outcome (list dict) * net H) :=
  list_pages fuel ("/zones/" +:+ zone_id +:+ "/dns_records")
    (fun page =>
       let params : dict :=
         {[ "type" := JStr "A"; "page" := JNum page;
            "per_page" := JNum 100 ]} in
       match name with
       | Some name =>
           if PyStr.is_empty name then params
           else <[ "name" := JStr name ]> params
       | None => params
       end) 1%Z [] n.
End Listings.

Section Writes.
Context {H : Type}.
Variables
  (session_request :
     string → string → option dict → option dict → dict → Z → H →
     outcome (response dict) * H)
  (str_exc : exn → string).
Variable self : client.

(** [data["result"]] *)
Definition result_of (data : body dict) : outcome dict :=
  match result data with
  | Some r => Ok r
  | None => Raise (KeyError "result")
  end.

Definition record_payload (name ip : string) (proxied : bool)
    (comment : string) : dict :=
  {[ "type" := JStr "A"; "name" := JStr name; "content" := JStr ip;
     "ttl" := JNum 1; "proxied" := JBool proxied;
     "comment" := JStr comment ]}.

Definition create_a_record (zone_id name ip : string) (proxied : bool)
    (comment : string) (n : net H) : outcome dict * net H :=
  let payload := record_payload name ip proxied comment in
  let '(o, n1) :=
    _request session_request str_exc self "POST"
      ("/zones/" +:+ zone_id +:+ "/dns_records") None (Some payload) 3 n in
  match o with
  | Raise e => (Raise e, n1)
  | Ok data => (result_of data, n1)
  end.

Definition update_a_record (zone_id record_id name ip : string)
    (proxied : bool) (comment : string) (n : net H)
    : outcome dict * net H :=
  let payload := record_payload name ip proxied comment in
  let '(o, n1) :=
    _request session_request str_exc self "PUT"
      ("/zones/" +:+ zone_id +:+ "/dns_records/" +:+ record_id) None
      (Some payload) 3 n in
  match o with
  | Raise e => (Raise e, n1)
  | Ok data => (result_of data, n1)
  end.

Definition delete_record (zone_id record_id : string) (n : net H)
    : outcome unit * net H :=
  let '(o, n1) :=
    _request session_request str_exc self "DELETE"
      ("/zones/" +:+ zone_id +:+ "/dns_records/" +:+ record_id) None None 3
      n in
  match o with
  | Raise e => (Raise e, n1)
  | Ok _ => (Ok tt, n1)
  end.
End Writes.

End Client.

(** A session for the examples: it answers 503 the given number of times,
    then 200 with a body that reports success. *)
Definition flaky_session {R : Type} (method url : string)
    (params payload : option dict) (headers : dict) (timeout : Z)
    (failures : nat) : outcome (Client.response R) * nat :=
  match failures with
  | S k =>
      (Ok (Client.mkResponse 503 "busy" (Raise (HTTPError 503))
             (Raise (RequestException "no body"))), k)
  | O =>
      (Ok (Client.mkResponse 200 "ok" (Ok tt)
             (Ok (Client.mkBody (Some (JBool true)) None None None))), O)
  end.

(** The journal of failed attempts, numbered from [attempt]: each the
    request, the warning and the sleep of as many seconds as its number. *)
Fixpoint failed_attempts (request : Client.client_event) (retries : Z)
    (method path : string) (attempt : Z) (excs : list exn)
    : list Client.client_event :=
  match excs with
  | [] => []
  | exc :: rest =>
      [request; Client.Warning attempt retries method path exc attempt;
       Client.Sleep attempt]
      ++ failed_attempts request retries method path (attempt + 1)%Z rest
  end.

(** A session for the examples: it answers every request for page [p]
    with the [p]-th of [pages] and their number. *)
Definition paged_session (pages : list (list dict)) (method url : string)
    (params payload : option dict) (headers : dict) (timeout : Z)
    (h : unit) : outcome (Client.response (list dict)) * unit :=
  let page :=
    match default JNull (params ≫= (.!! "page")) with
    | JNum p => p
    | _ => 1%Z
    end in
  (Ok (Client.mkResponse 200 "" (Ok tt)
         (Ok (Client.mkBody (Some (JBool true)) None
                (pages !! Z.to_nat (page - 1))
                (Some (Z.of_nat (length pages)))))), h).

Definition page_one : list dict :=
  [record_of "1" "a.example.com" "1.1.1.1" false ""].

Definition page_two : list dict :=
  [record_of "2" "b.example.com" "1.1.1.1" false ""].

(** What a page adds to a listing: [data.get("result", [])]. *)
Definition page_result (data : Client.body (list dict)) : list dict :=
  default [] (Client.result data).

(** The number of pages a page reports: [info.get("total_pages", 1)]. *)
Definition page_total (data : Client.body (list dict)) : Z :=
  default 1%Z (Client.total_pages data).

(** ** [app/config.py] *)

Module Config.

(** Everything [config.py] raises is a [ValueError]. *)
Inductive checked (A : Type) : Type :=
| Valid (a : A)
| ValueError (msg : string).
Arguments Valid {A} a.
Arguments ValueError {A} msg.

Definition and_then {A B} (m : checked A) (k : A → checked B) : checked B :=
  match m with
  | Valid a => k a
  | ValueError msg => ValueError msg
  end.

Notation "'let?' x := m 'in' k" := (and_then m (fun x => k))
  (at level 10, x pattern, k at level 200).

(** [bool(v)] for a string or [None]. *)
Definition truthy (v : option string) : bool :=
  match v with
  | Some s => negb (PyStr.is_empty s)
  | None => false
  end.

(** [if cond: raise ValueError(msg)] *)
Definition raise_if (cond : bool) (msg : string) : checked unit :=
  if cond then ValueError msg else Valid tt.

(** [s.split(sep)] for a separator of one character. *)
Fixpoint split (sep : ascii) (s : string) : list string :=
  match s with
  | EmptyString => [EmptyString]
  | String c s' =>
      if Ascii.eqb c sep then EmptyString :: split sep s'
      else
        match split sep s' with
        | [] => [String c EmptyString]
        | entry :: entries => String c entry :: entries
        end
  end.

(** [ip_resolver.DEFAULT_IP_SOURCES] *)
Definition DEFAULT_IP_SOURCES : list string :=
  ["https://api.ipify.org"; "https://ifconfig.me/ip";
   "https://checkip.amazonaws.com"].

(** The argument of [_parse_bool] when it is not [None]. *)
Inductive bool_or_str : Type :=
| OfBool (b : bool)
| OfStr (s : string).

Definition _parse_bool (value : option bool_or_str) (default : bool)
    : checked bool :=
  match value with
  | None => Valid default
  | Some (OfBool b) => Valid b
  | Some (OfStr value) =>
      let normalized := PyStr.lower (PyStr.strip value) in
      if bool_decide (normalized ∈ ["1"; "true"; "yes"; "on"]) then Valid true
      else if bool_decide (normalized ∈ ["0"; "false"; "no"; "off"])
      then Valid false
      else ValueError ("Invalid boolean value: " +:+ value)
  end.

(** What [parser.parse_args] returns. *)
Record Namespace : Type := mkNamespace {
  args_source : option string;
  args_interval : option Z;
  args_once : bool;
  args_dry_run : bool;
  args_cleanup_stale : bool
}.

Section LoadConfig.
(** [pathlib.Path] with the file system it looks at, and [int] on a
    string. *)
Context {path : Type}.
Variables (Path : string → path) (str_path : path → string)
          (exists_ is_file is_dir : path → bool)
          (int : string → checked Z).

Record AppConfig : Type := mkAppConfig {
  source : path;
  interval_seconds : Z;
  once : bool;
  dry_run : bool;
  cleanup_stale : bool;
  cloudflare_api_token : string;
  ip_sources : list string;
  default_proxied : bool;
  log_level : string;
  request_timeout_seconds : Z
}.

(** [load_config] after [parse_args], with [environ] what [os.getenv]
    reads. *)
Definition load_config (args : Namespace) (environ : gmap string string)
    : checked AppConfig :=
  let source_raw :=
    if truthy (args_source args) then args_source args
    else environ !! "TRAEFIK_SOURCE" in
  let? _ := raise_if (negb (truthy source_raw))
              "Missing source path. Set --source or TRAEFIK_SOURCE." in
  let source := Path (default "" source_raw) in
  let? _ := raise_if (negb (exists_ source))
              ("Source path does not exist: " +:+ str_path source) in
  let? _ := raise_if (negb (is_file source) && negb (is_dir source))
              ("Source path must be a file or directory: "
               +:+ str_path source) in
  let token := environ !! "CLOUDFLARE_API_TOKEN" in
  let? _ := raise_if (negb (truthy token)) "Missing CLOUDFLARE_API_TOKEN." in
  let? interval :=
    match args_interval args with
    | Some interval => Valid interval
    | None => int (default "300" (environ !! "SYNC_INTERVAL_SECONDS"))
    end in
  let? _ := raise_if (interval <=? 0)%Z
              ("SYNC_INTERVAL_SECONDS/--interval must be > 0, got "
               +:+ py_str (JNum interval)) in
  let? timeout := int (default "10" (environ !! "REQUEST_TIMEOUT_SECONDS")) in
  let? _ := raise_if (timeout <=? 0)%Z
              ("REQUEST_TIMEOUT_SECONDS must be > 0, got "
               +:+ py_str (JNum timeout)) in
  let ip_sources_raw := default "" (environ !! "IP_SOURCES") in
  let ip_sources :=
    if negb (PyStr.is_empty (PyStr.strip ip_sources_raw))
    then
      PyStr.strip <$>
        filter (fun entry => PyStr.is_empty (PyStr.strip entry) = false)
          (split ","%char ip_sources_raw)
    else DEFAULT_IP_SOURCES in
  let? default_proxied :=
    _parse_bool (OfStr <$> environ !! "DEFAULT_PROXIED") false in
  let log_level := default "INFO" (environ !! "LOG_LEVEL") in
  Valid (mkAppConfig source interval (args_once args) (args_dry_run args)
           (args_cleanup_stale args) (default "" token) ip_sources
           default_proxied log_level timeout).
End LoadConfig.

End Config.

(** A file system and an [int] for the examples: every path is a file, and
    the two default numbers parse. *)
Definition int_of_defaults (s : string) : Config.checked Z :=
  if String.eqb s "300" then Config.Valid 300%Z
  else if String.eqb s "10" then Config.Valid 10%Z
  else Config.ValueError ("invalid literal for int() with base 10: " +:+ s).

Definition load_config_example (args : Config.Namespace)
    (environ : gmap string string) : Config.checked (Config.AppConfig) :=
  Config.load_config (fun s => s) (fun p => p) (fun _ => true)
    (fun _ => true) (fun _ => false) int_of_defaults args environ.

Definition environ_example : gmap string string :=
  {[ "TRAEFIK_SOURCE" := "/etc/traefik/dynamic";
     "CLOUDFLARE_API_TOKEN" := "token";
     "IP_SOURCES" := " https://a.example/ip ,, https://b.example/ip " ]}.

(** An entry of [IP_SOURCES] that the list keeps. *)
Definition kept_entry (entry : string) : Prop :=
  entry ≠ "" ∧ PyStr.strip entry = entry.

(** ** [app/traefik_parser.py] *)

Module Parser.

(** [s] without the prefix [p], when it starts with it. *)
Fixpoint after_prefix (p s : string) : option string :=
  match p, s with
  | EmptyString, _ => Some s
  | String a p', String b s' =>
      if Ascii.eqb a b then after_prefix p' s' else None
  | String _ _, EmptyString => None
  end.

(** The text of [s] before the first [stop], when there is one. *)
Fixpoint until (stop : ascii) (s : string) : option string :=
  match s with
  | EmptyString => None
  | String c s' =>
      if Ascii.eqb c stop then Some EmptyString
      else String c <$> until stop s'
  end.

Section Finditer.
Context {A : Type}.
(** What the pattern matches at the start of a string, and the length of
    the match, which is not zero. *)
Variable match_at : string → option (A * nat).

(** [pattern.finditer(s)]: the matches from left to right, each search
    starting where the match before ended; [skip] characters are still
    inside that match. *)
Fixpoint finditer (skip : nat) (s : string) : list A :=
  match s with
  | EmptyString => []
  | String _ s' =>
      match skip with
      | S k => finditer k s'
      | O =>
          match match_at s with
          | Some (a, len) => a :: finditer (pred len) s'
          | None => finditer 0 s'
          end
      end
  end.
End Finditer.

(** One alternative of [HOST_CALL_PATTERN] at the start of [s]: the name,
    an opening parenthesis, any characters that are no closing parenthesis,
    a closing parenthesis. Groups 1 and 2, and the length of the match. *)
Definition host_call_named (name s : string)
    : option (string * string * nat) :=
  rest ← after_prefix (name +:+ "(") s;
  raw_args ← until ")"%char rest;
  Some (name, raw_args, String.length name + String.length raw_args + 2).

(** [HOST_CALL_PATTERN] at the start of [s]: [HostSNI] is tried first,
    then [Host]. *)
Definition HOST_CALL_PATTERN (s : string) : option (string * string * nat) :=
  match host_call_named "HostSNI" s with
  | Some m => Some m
  | None => host_call_named "Host" s
  end.

(** [BACKTICK_VALUE_PATTERN], a backtick, one or more characters that are
    no backtick, a backtick, at the start of [s]: group 1 and the length
    of the match. *)
Definition BACKTICK_VALUE_PATTERN (s : string) : option (string * nat) :=
  rest ← after_prefix "`" s;
  value ← until "`"%char rest;
  if PyStr.is_empty value then None
  else Some (value, String.length value + 2).

(** [[a-z0-9-]] *)
Definition label_char (c : ascii) : bool :=
  let n := nat_of_ascii c in
  ((97 <=? n) && (n <=? 122)) || ((48 <=? n) && (n <=? 57)) || (n =? 45).

Fixpoint all_chars (p : ascii → bool) (s : string) : bool :=
  match s with
  | EmptyString => true
  | String c s' => p c && all_chars p s'
  end.

Fixpoint last_char (s : string) : option ascii :=
  match s with
  | EmptyString => None
  | String c EmptyString => Some c
  | String _ s' => last_char s'
  end.

Definition first_char (s : string) : option ascii :=
  match s with
  | EmptyString => None
  | String c _ => Some c
  end.

(** One label of [FQDN_PATTERN]: 1 to 63 characters of [[a-z0-9-]], the
    first and the last of them no hyphen. *)
Definition label_ok (label : string) : bool :=
  (1 <=? String.length label) && (String.length label <=? 63)
  && all_chars label_char label
  && negb (bool_decide (first_char label = Some "-"%char))
  && negb (bool_decide (last_char label = Some "-"%char)).

(** [s] without one newline at its end, which [$] lets pass. *)
Fixpoint chomp (s : string) : string :=
  match s with
  | EmptyString => EmptyString
  | String c EmptyString =>
      if Ascii.eqb c "010"%char then EmptyString else s
  | String c s' => String c (chomp s')
  end.

(** [FQDN_PATTERN.match(s)]: at most 253 characters, in two or more labels
    with dots between them. *)
Definition FQDN_PATTERN (s : string) : bool :=
  let host := chomp s in
  let labels := Config.split "."%char host in
  (1 <=? String.length host) && (String.length host <=? 253)
  && (2 <=? length labels) && forallb label_ok labels.

(** The warnings the parser logs, by format string. *)
Inductive warning : Type :=
| SkipHostRegexp (context rule : string)
| SkipMalformed (name context rule : string)
| SkipWildcard (context candidate : string)
| SkipNonLiteral (context candidate : string)
| NoLiteralDomains (context rule : string).

(** The body of [for candidate in quoted_values]. *)
Definition add_candidate (context : string)
    (acc : gset string * list warning) (candidate : string)
    : gset string * list warning :=
  let '(domains, log) := acc in
  let host := PyStr.lower (PyStr.strip candidate) in
  if PyStr.contains "*" host
  then (domains, log ++ [SkipWildcard context candidate])
  else if negb (FQDN_PATTERN host)
  then (domains, log ++ [SkipNonLiteral context candidate])
  else ({[ host ]} ∪ domains, log).

(** The body of [for match in HOST_CALL_PATTERN.finditer(rule)]. *)
Definition add_host_call (rule context : string)
    (acc : gset string * list warning) (m : string * string)
    : gset string * list warning :=
  let '(name, raw_args) := m in
  let quoted_values :=
    finditer (fun s => BACKTICK_VALUE_PATTERN s) 0 raw_args in
  match quoted_values with
  | [] => (acc.1, acc.2 ++ [SkipMalformed name context rule])
  | _ => fold_left (add_candidate context) quoted_values acc
  end.

Definition _extract_domains_from_rule (rule context : string)
    : gset string * list warning :=
  if PyStr.contains "HostRegexp(" rule
  then (∅, [SkipHostRegexp context rule])
  else
    let calls :=
      finditer
        (fun s => '(name, raw_args, len) ← HOST_CALL_PATTERN s;
                  Some ((name, raw_args), len)) 0 rule in
    let '(domains, log) :=
      fold_left (add_host_call rule context) calls (∅, []) in
    if bool_decide (domains = ∅)
       && (PyStr.contains "Host(" rule || PyStr.contains "HostSNI(" rule)
    then (domains, log ++ [NoLiteralDomains context rule])
    else (domains, log).

(** A value that [yaml.safe_load_all] yields, as far as the parser looks
    at it: a string, a mapping with its items in order, or anything else. *)
#[warnings="-register-all"]
Inductive yaml : Type :=
| YStr (s : string)
| YDict (items : list (string * yaml))
| YOther.

(** [d.get(key)] on a value that is a mapping. *)
Fixpoint get (items : list (string * yaml)) (key : string) : option yaml :=
  match items with
  | [] => None
  | (k, v) :: rest => if String.eqb k key then Some v else get rest key
  end.

(** The body of [for router_name, router_data in routers.items()]. *)
Definition add_router (prefix : string) (acc : gset string * list warning)
    (item : string * yaml) : gset string * list warning :=
  let '(router_name, router_data) := item in
  match router_data with
  | YDict data =>
      match get data "rule" with
      | Some (YStr rule) =>
          let context := prefix +:+ "." +:+ router_name in
          let '(domains, log) := _extract_domains_from_rule rule context in
          (acc.1 ∪ domains, acc.2 ++ log)
      | _ => acc
      end
  | _ => acc
  end.

Definition _extract_from_routers (routers : list (string * yaml))
    (prefix : string) : gset string * list warning :=
  fold_left (add_router prefix) routers (∅, []).

(** What opening and loading one file gives: the documents, or one of
    the two exceptions the parser catches, or another one. *)
Inductive loaded : Type :=
| Docs (docs : list yaml)
| YAMLError (msg : string)
| OSError (msg : string)
| Uncaught (e : exn).

Inductive file_warning : Type :=
| FailedParsing (file_path msg : string)
| FailedReading (file_path msg : string)
| InFile (w : warning).

Section Source.
(** [pathlib.Path] with the file system it looks at, the order of paths,
    and [yaml.safe_load_all] on an open file. *)
Context {path : Type}.
Variables (is_file : path → bool) (rglob : path → list path)
          (suffix : path → string) (sorted_paths : list path → list path)
          (str_path : path → string) (load : path → loaded).

Definition list_yaml_files (source : path) : list path :=
  if is_file source then [source]
  else
    let matches :=
      filter (fun p => is_file p = true
                       ∧ PyStr.lower (suffix p) ∈ [".yml"; ".yaml"])
        (rglob source) in
    sorted_paths matches.

(** [domains.update(_extract_from_routers(routers, logger, prefix))] when
    [section] is a mapping that has a mapping under [routers]. *)
Definition add_section (section : option yaml) (prefix : string)
    (acc : gset string * list file_warning)
    : gset string * list file_warning :=
  match section with
  | Some (YDict items) =>
      match get items "routers" with
      | Some (YDict routers) =>
          let '(domains, log) := _extract_from_routers routers prefix in
          (acc.1 ∪ domains, acc.2 ++ (InFile <$> log))
      | _ => acc
      end
  | _ => acc
  end.

(** The body of [for doc in docs]. *)
Definition add_doc (file_path : path)
    (acc : gset string * list file_warning) (doc : yaml)
    : gset string * list file_warning :=
  match doc with
  | YDict items =>
      let acc1 :=
        add_section (get items "http")
          (str_path file_path +:+ ":http.routers") acc in
      add_section (get items "tcp")
        (str_path file_path +:+ ":tcp.routers") acc1
  | _ => acc
  end.

(** [for file_path in list_yaml_files(source)] *)
Fixpoint extract_files (files : list path)
    (acc : gset string * list file_warning)
    : outcome (gset string) * list file_warning :=
  match files with
  | [] => (Ok acc.1, acc.2)
  | file_path :: rest =>
      match load file_path with
      | YAMLError msg =>
          extract_files rest
            (acc.1, acc.2 ++ [FailedParsing (str_path file_path) msg])
      | OSError msg =>
          extract_files rest
            (acc.1, acc.2 ++ [FailedReading (str_path file_path) msg])
      | Uncaught e => (Raise e, acc.2)
      | Docs docs => extract_files rest (fold_left (add_doc file_path) docs acc)
      end
  end.

Definition extract_domains_from_source (source : path)
    : outcome (gset string) * list file_warning :=
  extract_files (list_yaml_files source) (∅, []).
End Source.

End Parser.

(** A character of a hostname the parser lets through. *)
Definition host_char (c : ascii) : bool :=
  Parser.label_char c || Ascii.eqb c "."%char.

(** What holds of every hostname the parser returns. *)
Definition literal_host (d : string) : Prop :=
  Parser.FQDN_PATTERN d = true
  ∧ PyStr.lower d = d
  ∧ PyStr.strip d = d
  ∧ Parser.all_chars host_char d = true
  ∧ String.length d ≤ 253.

(** The domains one router contributes. *)
Definition router_domains (item : string * Parser.yaml) : gset string :=
  match item.2 with
  | Parser.YDict data =>
      match Parser.get data "rule" with
      | Some (Parser.YStr rule) =>
          (Parser._extract_domains_from_rule rule "").1
      | _ => ∅
      end
  | _ => ∅
  end.

Definition router_a : string * Parser.yaml :=
  ("r1", Parser.YDict [("rule", Parser.YStr "Host(`a.example.com`)")]).

Definition router_b : string * Parser.yaml :=
  ("r2", Parser.YDict [("rule", Parser.YStr "Host(`b.example.com`)")]).

(** The document of [test_extracts_http_and_tcp_domains], loaded. *)
Definition config_yml : Parser.yaml :=
  Parser.YDict
    [("http",
      Parser.YDict
        [("routers",
          Parser.YDict
            [("r1",
              Parser.YDict
                [("rule",
                  Parser.YStr
                    "Host(`one.example.com`,`two.example.com`)")])])]);
     ("tcp",
      Parser.YDict
        [("routers",
          Parser.YDict
            [("r2",
              Parser.YDict
                [("rule",
                  Parser.YStr "HostSNI(`three.example.com`)")])])])].

(** ** [app/main.py] *)

Module Main.

(** What a cycle and the loop around it do, in order: what the parser, the
    resolver and the engine log and send, and the records and pauses of
    [main.py] itself. *)
Inductive main_event : Type :=
| FromParser (w : Parser.file_warning)
| FromResolver (e : event)
| FromEngine (e : event)
| LogNoDomains (source : string)
| LogResolved (public_ip : string)
| LogCompleted (summary : SyncSummary)
| PrintConfigurationError (msg : string)
| LogStarting (source : string) (once dry_run cleanup_stale : bool)
| LogCloudflareError (exc : exn)
| LogUnexpected (exc : exn)
| TimeSleep (seconds : Z).

Section Cycle.
(** The world [X] the process runs in: the files the parser reads, the
    network of the resolver, the provider, and what a pause does to them. *)
Context {X path : Type}.
Variables
  (extract_domains_from_source :
     path → X → outcome (gset string) * list Parser.file_warning * X)
  (session_get : string → Z → X → outcome Response * X)
  (IPv4Address : string → outcome unit)
  (cloudflare : CloudflareClient X)
  (str_path : path → string)
  (setup_logging : string → outcome unit)
  (time_sleep : Z → X → X).

Definition run_sync_cycle (config : @Config.AppConfig path) (x : X)
    : outcome unit * X * list main_event :=
  let '(extracted, warnings, x1) :=
    extract_domains_from_source (Config.source config) x in
  let tr1 := FromParser <$> warnings in
  match extracted with
  | Raise e => (Raise e, x1, tr1)
  | Ok domains =>
      if bool_decide (domains = ∅)
      then (Ok tt, x1, tr1 ++ [LogNoDomains (str_path (Config.source config))])
      else
        let '(resolved, x2, sent) :=
          resolve_public_ipv4 session_get IPv4Address
            (Config.ip_sources config)
            (Config.request_timeout_seconds config) x1 in
        let tr2 := tr1 ++ (FromResolver <$> sent) in
        match resolved with
        | Raise e => (Raise e, x2, tr2)
        | Ok public_ip =>
            let tr3 := tr2 ++ [LogResolved public_ip] in
            let '(synced, x3, sent) :=
              sync_domains domains public_ip (Config.default_proxied config)
                (Config.dry_run config) (Config.cleanup_stale config)
                cloudflare x2 in
            let tr4 := tr3 ++ (FromEngine <$> sent) in
            match synced with
            | Raise e => (Raise e, x3, tr4)
            | Ok summary => (Ok tt, x3, tr4 ++ [LogCompleted summary])
            end
        end
  end.

(** The [while True] loop of [main]; [None] when it is still running after
    [fuel] cycles. *)
Fixpoint main_loop (fuel : nat) (config : @Config.AppConfig path) (x : X)
    (tr : list main_event) : option (Z * X * list main_event) :=
  match fuel with
  | O => None
  | S fuel' =>
      let '(o, x1, sent) := run_sync_cycle config x in
      let tr1 :=
        tr ++ sent ++
        match o with
        | Ok _ => []
        | Raise (CloudflareAPIError msg) =>
            [LogCloudflareError (CloudflareAPIError msg)]
        | Raise exc => [LogUnexpected exc]
        end in
      if Config.once config then Some (0%Z, x1, tr1)
      else
        main_loop fuel' config
          (time_sleep (Config.interval_seconds config) x1)
          (tr1 ++ [TimeSleep (Config.interval_seconds config)])
  end.

(** [main], with [loaded] what [load_config(argv)] gives. *)
Definition main (fuel : nat)
    (loaded : Config.checked (@Config.AppConfig path)) (x : X)
    : option (outcome Z * X * list main_event) :=
  match loaded with
  | Config.ValueError msg => Some (Ok 2%Z, x, [PrintConfigurationError msg])
  | Config.Valid config =>
      match setup_logging (Config.log_level config) with
      | Raise e => Some (Raise e, x, [])
      | Ok _ =>
          '(code, x1, tr) ←
            main_loop fuel config x
              [LogStarting (str_path (Config.source config))
                 (Config.once config) (Config.dry_run config)
                 (Config.cleanup_stale config)];
          Some (Ok code, x1, tr)
      end
  end.
End Cycle.

End Main.

(** ** The test double of [tests/test_main_integration.py] *)

Module IntegrationTest.

(** [FakeCloudflare]: a flag, the zones, and the records by name, which
    the mutating calls replace and the listing by name shows. Its own
    [find_best_zone_match], which answers zone [z1] for every domain, is
    left out: the engine runs with the matcher of the client. *)
Record store : Type := mkStore {
  synced : bool;
  _zones : list dict;
  _records : gmap string (list dict)
}.

(** [FakeCloudflare.__init__] *)
Definition store_init : store :=
  mkStore false [ {[ "id" := JStr "z1"; "name" := JStr "example.com" ]} ] ∅.

Definition store_list_a_records (name : option string) (w : store)
    : list dict :=
  match name with
  | Some name =>
      if PyStr.is_empty name then [] else default [] (_records w !! name)
  | None => []
  end.

(** The five provider calls of the fake. *)
Definition StoreCloudflare : CloudflareClient store :=
  mkClient store
    (fun w => (Ok (_zones w), w))
    (fun zone_id name w => (Ok (store_list_a_records name w), w))
    (fun zone_id name ip proxied comment w =>
       let record := record_of ("id-" +:+ name) name ip proxied comment in
       (Ok record,
        mkStore true (_zones w) (<[ name := [record] ]> (_records w))))
    (fun zone_id record_id name ip proxied comment w =>
       let record := record_of record_id name ip proxied comment in
       (Ok record,
        mkStore true (_zones w) (<[ name := [record] ]> (_records w))))
    (fun zone_id record_id w => (Ok tt, mkStore true (_zones w) (_records w))).

End IntegrationTest.

(** A world for the examples: the parser finds [metube.example.com], every
    address source answers [203.0.113.10], and the provider is the fake of
    [tests/test_main_integration.py]. *)
Definition example_extract (source : string) (x : IntegrationTest.store)
    : outcome (gset string) * list Parser.file_warning
      * IntegrationTest.store :=
  (Ok {[ "metube.example.com" ]}, [], x).

Definition example_get (source : string) (timeout : Z)
    (x : IntegrationTest.store) : outcome Response * IntegrationTest.store :=
  (Ok (mkResponse (Ok tt) "203.0.113.10"), x).

Definition example_config (once : bool) : @Config.AppConfig string :=
  Config.mkAppConfig "http.yml" 300 once false false "x"
    ["https://api.ipify.org"] false "INFO" 10.

Definition example_cycle (config : @Config.AppConfig string)
    (x : IntegrationTest.store)
    : outcome unit * IntegrationTest.store * list Main.main_event :=
  Main.run_sync_cycle example_extract example_get ipv4_address
    IntegrationTest.StoreCloudflare (fun p => p) config x.

(** ** Settled records *)

(** The records listed under a name need no change: there is one of that
    name, and the one selected holds the public address and a comment that
    composing leaves as it is. *)
Definition settled_records (public_ip domain : string) (listed : list dict)
    : Prop :=
  ∃ target existing,
    named domain listed ≠ []
    ∧ _pick_record (named domain listed) = Ok target
    ∧ as_comment (dict_get target "comment" JNull) = Ok existing
    ∧ content_of target = public_ip
    ∧ _compose_comment existing = or_empty_strip existing.

Definition settled (public_ip domain : string) (w : IntegrationTest.store)
    : Prop :=
  settled_records public_ip domain
    (default [] (IntegrationTest._records w !! domain)).

(** The domains a run has dealt with other than by skipping them. *)
Definition handled (s : SyncSummary) : nat :=
  creates s + updates s + noops s.

(** ** Further vocabulary *)

(** Two zones of the same name, in different letter case. *)
Definition zone_twin_1 : dict :=
  {[ "id" := JStr "1"; "name" := JStr "example.com" ]}.
Definition zone_twin_2 : dict :=
  {[ "id" := JStr "2"; "name" := JStr "Example.COM" ]}.

(** [zone] is the first of the zones that serve [domain] with the longest
    name: those before it have shorter names, those after it no longer
    ones. *)
Definition first_longest (domain : string) (zones : list dict) (zone : dict)
    : Prop :=
  ∃ pre post,
    zones = pre ++ zone :: post
    ∧ serves domain zone
    ∧ (∀ z, z ∈ pre → serves domain z →
         String.length (zone_name_of z) < String.length (zone_name_of zone))
    ∧ (∀ z, z ∈ post → serves domain z →
         String.length (zone_name_of z) ≤ String.length (zone_name_of zone)).

(** A string of white space only. *)
Definition blank (s : string) : Prop := PyStr.strip s = "".

(** From [n] to [n'] the client has sent [request] once, after at most two
    attempts that failed with an exception the retry loop catches. *)
Definition sent_with_retries {H} (n n' : Client.net H)
    (request : Client.client_event) (method path : string) : Prop :=
  ∃ excs,
    length excs ≤ 2
    ∧ Forall (fun e => Client.caught e = true) excs
    ∧ Client.journal n'
      = Client.journal n
        ++ failed_attempts request 3 method path 1 excs ++ [request].

(** The name a provider call carries. *)
Definition name_of_call (e : event) : option string :=
  match e with
  | CallListARecords _ name => name
  | CallCreateARecord _ name _ _ _ => Some name
  | CallUpdateARecord _ _ name _ _ _ => Some name
  | _ => None
  end.

(** ** Trimming and the marker, stated apart from the code *)

(** Every character of [s] is white space. *)
Fixpoint whitespace (s : string) : bool :=
  match s with
  | EmptyString => true
  | String c s' => PyStr.is_space c && whitespace s'
  end.

(** [t] neither starts nor ends with white space. *)
Definition trimmed (t : string) : Prop :=
  (∀ c r, t = String c r → PyStr.is_space c = false)
  ∧ (∀ r c, t = r +:+ String c EmptyString → PyStr.is_space c = false).

(** [t] is [s] without the white space at its two ends. *)
Definition trim_of (s t : string) : Prop :=
  ∃ pre post,
    s = pre +:+ t +:+ post
    ∧ whitespace pre = true ∧ whitespace post = true ∧ trimmed t.

(** The marker occurs in [t]. *)
Definition marked (t : string) : Prop :=
  ∃ a b, t = a +:+ MANAGED_MARKER +:+ b.

(** [exc] is the failure of the last request [_request] has sent when it
    ends in the net [n']: that request, sent from some state of the session,
    came back as [got], which the [try] block turned into [exc], and left the
    session as [n'] has it. *)
Definition last_failure {H R : Type}
    (session_request :
       string → string → option dict → option dict → dict → Z → H →
       outcome (Client.response R) * H)
    (self : Client.client) (method path : string)
    (params payload : option dict) (n' : Client.net H) (exc : exn) : Prop :=
  ∃ h got,
    session_request method (Client._base_url +:+ path) params payload
      (Client._headers self) (Client._timeout_seconds self) h
    = (got, Client.session n')
    ∧ Client.attempt_once method path got = Raise exc
    ∧ Client.caught exc = true.

(** * Facts about the string primitives *)

Module PyStrFacts.
Import PyStr.
#[local] Arguments String.append !_ _ / : simpl nomatch.

Lemma app_cons c a b : String c a +:+ b = String c (a +:+ b).
Proof. reflexivity. Qed.

Lemma app_nil b : "" +:+ b = b.
Proof. reflexivity. Qed.

Lemma lstrip_head s :
  lstrip s = "" ∨ ∃ c t, lstrip s = String c t ∧ is_space c = false.
Proof.
  induction s as [|c s IH]; simpl; [by left|].
  destruct (is_space c) eqn:E; [exact IH|]. right. by exists c, s.
Qed.

Lemma rstrip_cons_keep c t :
  is_space c = false → ∃ r, rstrip (String c t) = String c r.
Proof.
  intros E. simpl. destruct (rstrip t); rewrite ?E; eauto.
Qed.

Lemma rstrip_idem s : rstrip (rstrip s) = rstrip s.
Proof.
  induction s as [|c s IH]; simpl; [done|].
  destruct (rstrip s) as [|c' r] eqn:E.
  - destruct (is_space c) eqn:Ec; simpl; rewrite ?Ec; done.
  - simpl in *. by rewrite IH.
Qed.

Lemma rstrip_app a b : b ≠ "" → rstrip b = b → rstrip (a +:+ b) = a +:+ b.
Proof.
  intros Hb Hr. induction a as [|c a IH]; [done|].
  rewrite app_cons. cbn [rstrip]. rewrite IH.
  destruct (a +:+ b) eqn:E; [|done].
  destruct a, b; rewrite ?app_cons, ?app_nil in E; congruence.
Qed.

(** A stripped string is empty or starts with a character that is no
    space. *)
Lemma strip_head s :
  strip s = "" ∨ ∃ c t, strip s = String c t ∧ is_space c = false.
Proof.
  unfold strip. destruct (lstrip_head s) as [->|(c & t & -> & E)]; [by left|].
  right. destruct (rstrip_cons_keep c t E) as [r ->]. by exists c, r.
Qed.

Lemma strip_idem s : strip (strip s) = strip s.
Proof.
  destruct (strip_head s) as [E|(c & t & E & Ec)].
  - by rewrite E.
  - unfold strip at 1. rewrite E. simpl lstrip. rewrite Ec, <- E.
    unfold strip. apply rstrip_idem.
Qed.

Lemma strip_app s b :
  strip s ≠ "" → b ≠ "" → rstrip b = b → strip (strip s +:+ b) = strip s +:+ b.
Proof.
  intros Hs Hb Hr. destruct (strip_head s) as [E|(c & t & E & Ec)]; [done|].
  unfold strip at 1. rewrite E, app_cons. cbn [lstrip]. rewrite Ec.
  rewrite <- app_cons. by apply rstrip_app.
Qed.

Lemma is_empty_true s : is_empty s = true ↔ s = "".
Proof. destruct s; simpl; split; congruence. Qed.

Lemma is_empty_false s : is_empty s = false ↔ s ≠ "".
Proof. destruct s; simpl; split; congruence. Qed.

Lemma is_empty_app a b : is_empty b = false → is_empty (a +:+ b) = false.
Proof. destruct a; rewrite ?app_cons, ?app_nil; auto. Qed.

Lemma contains_app_r p a b : contains p b = true → contains p (a +:+ b) = true.
Proof.
  intros H. induction a as [|c a IH]; [done|].
  rewrite app_cons. cbn [contains]. rewrite IH. apply orb_true_r.
Qed.

Lemma prefix_app p a b : String.prefix p a = true → String.prefix p (a +:+ b) = true.
Proof.
  revert a. induction p as [|x p IH]; intros [|y a]; rewrite ?app_cons;
    simpl; try done.
  - by destruct b.
  - destruct (ascii_dec x y); [apply IH|done].
Qed.

Lemma prefix_iff p s : String.prefix p s = true ↔ ∃ b, s = p +:+ b.
Proof.
  revert s. induction p as [|x p IH]; intros s; simpl.
  - destruct s; split; eauto.
  - destruct s as [|y s]; simpl.
    + split; [done|]. intros [b ?]; discriminate.
    + destruct (ascii_dec x y) as [->|Hne].
      * rewrite IH. split; intros [b Hb]; exists b; congruence.
      * split; [done|]. intros [b Hb]. congruence.
Qed.

(** [pat in s] holds exactly when [s] is some text, [pat], and more text. *)
Lemma contains_iff p s : contains p s = true ↔ ∃ a b, s = a +:+ p +:+ b.
Proof.
  induction s as [|c s IH]; cbn [contains].
  - rewrite orb_false_r, prefix_iff. split.
    + intros [b Hb]. by exists "", b.
    + intros (a & b & Hab). destruct a; simpl in Hab; [by exists b|discriminate].
  - rewrite orb_true_iff, prefix_iff, IH. split.
    + intros [[b Hb]|(a & b & ->)]; [by exists "", b|by exists (String c a), b].
    + intros (a & b & Hab). destruct a as [|c' a]; simpl in Hab.
      * left. by exists b.
      * right. exists a, b. congruence.
Qed.

Lemma endswith_iff s suf : endswith s suf = true ↔ ∃ a, s = a +:+ suf.
Proof.
  induction s as [|c s IH]; cbn [endswith].
  - rewrite orb_false_r, String.eqb_eq. split.
    + intros <-. by exists "".
    + intros [a Ha]. destruct a; simpl in Ha; [done|discriminate].
  - rewrite orb_true_iff, String.eqb_eq, IH. split.
    + intros [<-|[a ->]]; [by exists ""|by exists (String c a)].
    + intros [a Ha]. destruct a as [|c' a]; simpl in Ha; [by left|].
      right. exists a. congruence.
Qed.

Lemma contains_occurrences p s :
  contains p s = negb (occurrences p s =? 0)%nat.
Proof.
  induction s as [|c s IH]; cbn [contains occurrences].
  - rewrite orb_false_r. by destruct (String.prefix p "").
  - rewrite IH. by destruct (String.prefix p (String c s)).
Qed.

(** A pattern without the character [c] that does not start [t] does not
    start [t] followed by [c] and anything either. *)
Lemma prefix_app_sep c p t u :
  lacks c p = true → String.prefix p t = false →
  String.prefix p (t +:+ String c u) = false.
Proof.
  revert p. induction t as [|b t IH]; intros [|a p]; simpl; try done.
  - intros [Ha _]%andb_true_iff _. destruct (ascii_dec a c) as [->|]; [|done].
    by rewrite Ascii.eqb_refl in Ha.
  - intros [_ Hp]%andb_true_iff. destruct (ascii_dec a b); [by apply IH|done].
Qed.

Lemma occurrences_app_sep c p a u :
  lacks c p = true → contains p a = false →
  occurrences p (a +:+ String c u) = occurrences p (String c u).
Proof.
  intros Hp. induction a as [|x a IH]; [done|].
  simpl contains. intros [Hx Ha]%orb_false_iff.
  change (String x a +:+ String c u) with (String x (a +:+ String c u)).
  cbn [occurrences]. rewrite IH by done.
  change (String x (a +:+ String c u)) with (String x a +:+ String c u).
  by rewrite prefix_app_sep.
Qed.

End PyStrFacts.

(** * Facts about white space around a string *)

Module PaddingFacts.
Import PyStr.
#[local] Arguments String.append !_ _ / : simpl nomatch.

Lemma blank_lstrip s : strip s = "" → lstrip s = "".
Proof.
  unfold strip. destruct (PyStrFacts.lstrip_head s) as [->|(c & t & -> & E)];
    [done|].
  destruct (PyStrFacts.rstrip_cons_keep c t E) as [r ->]. done.
Qed.

Lemma lstrip_blank_rstrip s : lstrip s = "" → rstrip s = "".
Proof.
  induction s as [|c s IH]; [done|]. cbn [lstrip rstrip].
  destruct (is_space c) eqn:E; [|done]. intros H. by rewrite (IH H).
Qed.

Lemma lstrip_blank_app pre s :
  lstrip pre = "" → lstrip (pre +:+ s) = lstrip s.
Proof.
  induction pre as [|c pre IH]; [done|].
  rewrite PyStrFacts.app_cons. cbn [lstrip].
  destruct (is_space c); [exact IH|done].
Qed.

Lemma rstrip_app_blank s post :
  rstrip post = "" → rstrip (s +:+ post) = rstrip s.
Proof.
  intros Hp. induction s as [|c s IH]; [done|].
  rewrite PyStrFacts.app_cons. cbn [rstrip]. by rewrite IH.
Qed.

Lemma lstrip_app_blank s post :
  lstrip post = "" →
  lstrip (s +:+ post) = if is_empty (lstrip s) then "" else lstrip s +:+ post.
Proof.
  intros Hp. induction s as [|c s IH]; [done|].
  rewrite PyStrFacts.app_cons. cbn [lstrip].
  destruct (is_space c); [exact IH|done].
Qed.

Lemma strip_padded pre s post :
  strip pre = "" → strip post = "" → strip (pre +:+ s +:+ post) = strip s.
Proof.
  intros Hpre%blank_lstrip Hpost%blank_lstrip. unfold strip.
  rewrite lstrip_blank_app, lstrip_app_blank by done.
  destruct (lstrip s) eqn:E; cbn [is_empty]; [done|].
  rewrite <- E. by apply rstrip_app_blank, lstrip_blank_rstrip.
Qed.
End PaddingFacts.

(** * The marker composer *)

Section MarkerComposer.
Import PyStr PyStrFacts.

Lemma marker_stripped : strip MANAGED_MARKER = MANAGED_MARKER.
Proof. reflexivity. Qed.

Lemma marker_in_nonempty s : contains MANAGED_MARKER s = true → s ≠ "".
Proof. by intros H ->. Qed.

Lemma compose_empty x :
  or_empty_strip x = "" → _compose_comment x = MANAGED_MARKER.
Proof. unfold _compose_comment. by intros ->. Qed.

Lemma compose_marked x :
  contains MANAGED_MARKER (or_empty_strip x) = true →
  _compose_comment x = or_empty_strip x.
Proof.
  intros H. unfold _compose_comment. rewrite H.
  by destruct (or_empty_strip x).
Qed.

Lemma compose_unmarked x :
  or_empty_strip x ≠ "" →
  contains MANAGED_MARKER (or_empty_strip x) = false →
  _compose_comment x = or_empty_strip x +:+ " | " +:+ MANAGED_MARKER.
Proof.
  intros Hne H. unfold _compose_comment. rewrite H.
  by destruct (or_empty_strip x).
Qed.

(** Whatever the composer returns is trimmed already and carries the
    marker. *)
Lemma compose_stripped x :
  strip (_compose_comment x) = _compose_comment x.
Proof.
  unfold _compose_comment, or_empty_strip.
  destruct (is_empty (strip (default "" x))) eqn:E; [done|].
  destruct (contains _ _); [apply strip_idem|].
  apply strip_app; [by apply is_empty_false|done|done].
Qed.

Lemma compose_has_marker x :
  contains MANAGED_MARKER (_compose_comment x) = true.
Proof.
  unfold _compose_comment.
  destruct (is_empty (or_empty_strip x)); [done|].
  destruct (contains _ (or_empty_strip x)) eqn:E; [done|].
  by apply contains_app_r.
Qed.
End MarkerComposer.

Module TrimFacts.
Import PyStr PyStrFacts.
#[local] Arguments String.append !_ _ / : simpl nomatch.

Lemma lstrip_split s : ∃ pre, s = pre +:+ lstrip s ∧ whitespace pre = true.
Proof.
  induction s as [|c s (pre & Hs & Hp)]; [by exists ""|]. cbn [lstrip].
  destruct (is_space c) eqn:E; [|by exists ""].
  exists (String c pre). rewrite app_cons, <- Hs. cbn. by rewrite E, Hp.
Qed.

Lemma rstrip_split s : ∃ post, s = rstrip s +:+ post ∧ whitespace post = true.
Proof.
  induction s as [|c s (post & Hs & Hp)]; [by exists ""|]. cbn [rstrip].
  destruct (rstrip s) as [|c' r] eqn:Er.
  - rewrite app_nil in Hs. subst post.
    destruct (is_space c) eqn:E.
    + exists (String c s). cbn. by rewrite E, Hp.
    + exists s. by rewrite !app_cons, app_nil.
  - exists post. by rewrite app_cons, <- Hs.
Qed.

Lemma rstrip_last s r c :
  rstrip s = r +:+ String c "" → is_space c = false.
Proof.
  revert r. induction s as [|a s IH]; intros r; cbn [rstrip].
  { by destruct r. }
  destruct (rstrip s) as [|c' r'] eqn:Er.
  - destruct (is_space a) eqn:E; [by destruct r|].
    destruct r as [|b r]; [by intros [= <-]|].
    rewrite app_cons. intros [= _ H]. by destruct r.
  - destruct r as [|b r]; [done|].
    rewrite app_cons. intros [= _ H]. by eapply IH.
Qed.

Lemma strip_trimmed s : trimmed (strip s).
Proof.
  split.
  - intros c r Hs. destruct (strip_head s) as [E|(c' & t & E & Ec)];
      congruence.
  - intros r c Hs. by eapply rstrip_last.
Qed.

Lemma strip_trim_of s : trim_of s (strip s).
Proof.
  destruct (lstrip_split s) as (pre & Hs & Hpre).
  destruct (rstrip_split (lstrip s)) as (post & Hl & Hpost).
  exists pre, post. split_and!; try done; [|apply strip_trimmed].
  unfold strip. by rewrite <- Hl.
Qed.

Lemma whitespace_strip s : whitespace s = true → strip s = "".
Proof.
  intros Hs. unfold strip.
  assert (Hl : lstrip s = "").
  { induction s as [|c s IH]; [done|]. cbn in *.
    apply andb_true_iff in Hs as [-> Hs]. by apply IH. }
  by rewrite Hl.
Qed.

Lemma trimmed_strip t : trimmed t → strip t = t.
Proof.
  intros [Hfirst Hlast]. unfold strip.
  assert (Hl : lstrip t = t).
  { destruct t as [|c r]; [done|]. cbn. by rewrite (Hfirst c r). }
  rewrite Hl. clear Hl Hfirst.
  induction t as [|c t IH]; [done|]. cbn [rstrip].
  destruct t as [|c' t'].
  - cbn. by rewrite (Hlast "" c).
  - rewrite IH; [done|]. intros r c0 Hr. apply (Hlast (String c r) c0).
    by rewrite app_cons, <- Hr.
Qed.

(** The trimmed part of a string is what [strip] gives, and nothing else. *)
Lemma trim_of_strip s t : trim_of s t ↔ t = strip s.
Proof.
  split; [|intros ->; apply strip_trim_of].
  intros (pre & post & -> & Hpre%whitespace_strip & Hpost%whitespace_strip
          & Ht).
  by rewrite PaddingFacts.strip_padded, trimmed_strip.
Qed.

Lemma marked_contains t : marked t ↔ contains MANAGED_MARKER t = true.
Proof. unfold marked. by rewrite contains_iff. Qed.
End TrimFacts.

(** C4. The marker composer is idempotent, for [None] and for every string.
    With [t] the comment without the white space at its ends (there is
    exactly one such [t]): when [t] is empty the result is the marker alone;
    when the marker occurs in [t] the result is [t]; otherwise it is [t]
    with [" | "] and the marker appended. The result holds the marker as
    often as [t] did, or once when [t] did not hold it, and it is itself
    trimmed. *)
Theorem compose_comment_idempotent (x : option string) :
  _compose_comment (Some (_compose_comment x)) = _compose_comment x
  ∧ ∃ t,
      trim_of (default "" x) t
      ∧ (∀ t', trim_of (default "" x) t' → t' = t)
      ∧ (t = "" → _compose_comment x = MANAGED_MARKER)
      ∧ (marked t → _compose_comment x = t)
      ∧ (t ≠ "" → ¬ marked t →
         _compose_comment x = t +:+ " | " +:+ MANAGED_MARKER)
      ∧ PyStr.occurrences MANAGED_MARKER (_compose_comment x)
        = Nat.max 1 (PyStr.occurrences MANAGED_MARKER t)
      ∧ trimmed (_compose_comment x)
      ∧ marked (_compose_comment x).
Proof.
  split.
  { assert (Hs : or_empty_strip (Some (_compose_comment x))
                 = _compose_comment x) by apply compose_stripped.
    rewrite compose_marked; rewrite Hs; [done|apply compose_has_marker]. }
  exists (or_empty_strip x). set (current := or_empty_strip x).
  split_and!.
  - apply TrimFacts.strip_trim_of.
  - intros t' Ht'. by apply TrimFacts.trim_of_strip in Ht'.
  - apply compose_empty.
  - intros Hm%TrimFacts.marked_contains. by apply compose_marked.
  - intros Hne Hm. apply compose_unmarked; [done|].
    destruct (PyStr.contains MANAGED_MARKER current) eqn:E; [|done].
    by apply TrimFacts.marked_contains in E.
  - destruct (PyStr.contains MANAGED_MARKER current) eqn:E.
    + rewrite compose_marked by done. fold current.
      rewrite PyStrFacts.contains_occurrences in E.
      destruct (PyStr.occurrences MANAGED_MARKER current); [done|lia].
    + pose proof E as E'. rewrite PyStrFacts.contains_occurrences in E'.
      apply negb_false_iff, Nat.eqb_eq in E'. rewrite E'.
      destruct (PyStrFacts.strip_head (default "" x)) as [H|(c & t & H & _)].
      * rewrite compose_empty by done. reflexivity.
      * rewrite compose_unmarked by (unfold or_empty_strip; congruence || done).
        fold current.
        change (" | " +:+ MANAGED_MARKER)
          with (String " " ("| " +:+ MANAGED_MARKER)).
        rewrite PyStrFacts.occurrences_app_sep by done. reflexivity.
  - rewrite <- compose_stripped. apply TrimFacts.strip_trimmed.
  - apply TrimFacts.marked_contains, compose_has_marker.
Qed.

(** * The zone matcher *)

Section ZoneMatcher.
Import PyStrFacts.

Lemma servesb_iff domain zone : servesb domain zone = true ↔ serves domain zone.
Proof.
  unfold servesb, serves.
  rewrite andb_true_iff, negb_true_iff, orb_false_iff, orb_true_iff,
    !is_empty_false, String.eqb_eq, endswith_iff.
  tauto.
Qed.

Lemma zone_step_unfold domain best zone :
  zone_step domain best zone =
  if servesb domain zone then
    match best with
    | None => Some (String.length (zone_name_of zone),
                    mkZoneMatch (zone_id_of zone) (zone_name_of zone))
    | Some (best_score, _) =>
        if (best_score <? String.length (zone_name_of zone))%nat
        then Some (String.length (zone_name_of zone),
                   mkZoneMatch (zone_id_of zone) (zone_name_of zone))
        else best
    end
  else best.
Proof.
  unfold zone_step, servesb. fold (zone_name_of zone) (zone_id_of zone).
  destruct (PyStr.is_empty (zone_name_of zone) || PyStr.is_empty (zone_id_of zone));
    [done|].
  cbn [negb andb].
  by destruct (String.eqb domain (zone_name_of zone)
               || PyStr.endswith domain ("." +:+ zone_name_of zone)).
Qed.

Lemma best_of_fold domain zones :
  best_of domain zones (fold_left (zone_step domain) zones None).
Proof.
  induction zones as [|zone zones IH] using rev_ind.
  - simpl. intros zone Hin. by apply elem_of_nil in Hin.
  - rewrite fold_left_app. cbn [fold_left]. rewrite zone_step_unfold.
    destruct (servesb domain zone) eqn:Hs.
    + apply servesb_iff in Hs.
      destruct (fold_left (zone_step domain) zones None) as [[score m]|].
      * destruct IH as (z & Hz & Hzs & -> & -> & Hmax).
        destruct (String.length (zone_name_of z)
                  <? String.length (zone_name_of zone))%nat eqn:Hlt.
        -- apply Nat.ltb_lt in Hlt. exists zone. split_and!; [set_solver|done|done|done|].
           intros z' [Hz'| ->%list_elem_of_singleton]%elem_of_app Hs';
             [specialize (Hmax z' Hz' Hs'); lia|lia].
        -- apply Nat.ltb_ge in Hlt. exists z. split_and!; [set_solver|done|done|done|].
           intros z' [Hz'| ->%list_elem_of_singleton]%elem_of_app Hs';
             [by apply Hmax|lia].
      * exists zone. split_and!; [set_solver|done|done|done|].
        intros z' [Hz'| ->%list_elem_of_singleton]%elem_of_app Hs';
          [by apply IH in Hz'|lia].
    + assert (¬ serves domain zone) as Hn
        by (rewrite <- servesb_iff; congruence).
      destruct (fold_left (zone_step domain) zones None) as [[score m]|].
      * destruct IH as (z & Hz & Hzs & -> & -> & Hmax).
        exists z. split_and!; [set_solver|done|done|done|].
        intros z' [Hz'| ->%list_elem_of_singleton]%elem_of_app Hs';
          [by apply Hmax|done].
      * intros z' [Hz'| ->%list_elem_of_singleton]%elem_of_app;
          [by apply IH|done].
Qed.
End ZoneMatcher.

(** C3, as the code has it. A zone counts when its id and its name (as a
    string, lowercased) are not empty and the hostname is that name or ends
    with a dot and that name. The matcher returns none exactly when no zone
    of the list counts; otherwise it returns the id and name of a zone that
    counts and whose name is at least as long as that of every zone that
    counts. For [example.com] and [sub.example.com], in either order, the
    hostname [a.sub.example.com] gets [sub.example.com]. *)
Theorem find_best_zone_match_longest (domain : string) (zones : list dict) :
  (find_best_zone_match domain zones = None ↔
     ∀ zone, zone ∈ zones → ¬ serves domain zone)
  ∧ (∀ m, find_best_zone_match domain zones = Some m →
       ∃ zone, zone ∈ zones ∧ serves domain zone ∧
         m = mkZoneMatch (zone_id_of zone) (zone_name_of zone) ∧
         ∀ zone', zone' ∈ zones → serves domain zone' →
           (String.length (zone_name_of zone') ≤ String.length (zone_name m))%nat)
  ∧ find_best_zone_match "a.sub.example.com" [zone_example; zone_sub_example]
    = Some (mkZoneMatch "2" "sub.example.com")
  ∧ find_best_zone_match "a.sub.example.com" [zone_sub_example; zone_example]
    = Some (mkZoneMatch "2" "sub.example.com").
Proof.
  pose proof (best_of_fold domain zones) as H.
  unfold find_best_zone_match, best_of in *.
  destruct (fold_left (zone_step domain) zones None) as [[score m]|].
  - destruct H as (z & Hz & Hzs & -> & -> & Hmax).
    split; [|split; [|split; vm_compute; reflexivity]].
    + split; [done|]. intros Hno. by destruct (Hno z Hz).
    + intros m' [= <-]. exists z. split_and!; done.
  - split; [|split; [|split; vm_compute; reflexivity]].
    + done.
    + intros m' [=].
Qed.

(** C3 as stated fails: a zone whose id is the empty string is passed over,
    although the hostname is its name. *)
Lemma zone_without_id_is_no_match :
  let zone : dict := {[ "id" := JStr ""; "name" := JStr "example.com" ]} in
  py_str (dict_get zone "name" (JStr "")) = "example.com"
  ∧ find_best_zone_match "example.com" [zone] = None.
Proof. split; vm_compute; reflexivity. Qed.

(** [tests/test_cloudflare_client.py]: no suffix, no match. *)
Example find_best_zone_match_none :
  find_best_zone_match "a.other.net" [zone_example] = None.
Proof. vm_compute. reflexivity. Qed.

(** * Tactics *)

(** Membership in a list written out with [::] and [++]. *)
Ltac in_list :=
  repeat first [rewrite elem_of_app in * | rewrite elem_of_cons in *
               | rewrite elem_of_nil in *];
  naive_solver.

(** * The loop body of the second loop *)

Section SyncDomainFacts.
Context {W : Type}.
Variables (public_ip : string) (default_proxied dry_run : bool)
          (cloudflare : CloudflareClient W).

Lemma sync_domain_unmatched domain (σ : frame W) :
  domain_to_zone σ !! domain = None →
  sync_domain public_ip default_proxied dry_run cloudflare domain σ
  = (Raise (KeyError domain), σ).
Proof.
  intros H. unfold sync_domain, bind, get_domain_to_zone, lift. by rewrite H.
Qed.

Lemma sync_domain_list_fails domain zid zn e w' (σ : frame W) :
  domain_to_zone σ !! domain = Some (zid, zn) →
  list_a_records cloudflare zid (Some domain) (provider σ) = (Raise e, w') →
  sync_domain public_ip default_proxied dry_run cloudflare domain σ
  = (Raise e, mkFrame w' (trace σ ++ [CallListARecords zid (Some domain)])
                (counts σ) (domain_to_zone σ)).
Proof.
  intros H1 H2. unfold sync_domain, bind, get_domain_to_zone, lift, call.
  rewrite H1. cbn [fst]. by rewrite H2.
Qed.

Lemma sync_domain_create domain zid zn listed w' (σ : frame W) :
  domain_to_zone σ !! domain = Some (zid, zn) →
  list_a_records cloudflare zid (Some domain) (provider σ) = (Ok listed, w') →
  named domain listed = [] →
  sync_domain public_ip default_proxied dry_run cloudflare domain σ
  = let tr := (trace σ ++ [CallListARecords zid (Some domain)])
                ++ [Log INFO (LogCreate domain public_ip)] in
    if dry_run
    then (Ok tt, mkFrame w' tr (incr_creates (counts σ)) (domain_to_zone σ))
    else
      let '(o, w'') := create_a_record cloudflare zid domain public_ip
                         default_proxied MANAGED_MARKER w' in
      (unit_outcome o,
       mkFrame w'' (tr ++ [CallCreateARecord zid domain public_ip
                             default_proxied MANAGED_MARKER])
         (incr_creates (counts σ)) (domain_to_zone σ)).
Proof.
  intros H1 H2 H3. unfold sync_domain, bind, get_domain_to_zone, lift, call.
  rewrite H1. cbn [fst provider]. rewrite H2. fold (named domain listed).
  rewrite H3. unfold update_counts, log, emit, ret.
  cbn [provider trace counts domain_to_zone].
  destruct dry_run; [done|].
  by destruct (create_a_record _ _ _ _ _ _ _) as [[?|?] ?].
Qed.

Lemma sync_domain_existing domain zid zn listed w' target existing
    (σ : frame W) :
  domain_to_zone σ !! domain = Some (zid, zn) →
  list_a_records cloudflare zid (Some domain) (provider σ) = (Ok listed, w') →
  named domain listed ≠ [] →
  _pick_record (named domain listed) = Ok target →
  as_comment (dict_get target "comment" JNull) = Ok existing →
  sync_domain public_ip default_proxied dry_run cloudflare domain σ
  = let tr := (trace σ ++ [CallListARecords zid (Some domain)])
                ++ multiple_warning domain (named domain listed) in
    let comment := _compose_comment existing in
    let proxied := proxied_of default_proxied target in
    if String.eqb (content_of target) public_ip
       && String.eqb comment (or_empty_strip existing)
    then (Ok tt, mkFrame w' (tr ++ [Log INFO (LogNoChange domain public_ip)])
                   (incr_noops (counts σ)) (domain_to_zone σ))
    else
      let tr' := tr ++ [Log INFO (LogUpdate domain (content_of target)
                                    public_ip)] in
      if dry_run
      then (Ok tt, mkFrame w' tr' (incr_updates (counts σ)) (domain_to_zone σ))
      else
        match target !! "id" with
        | None => (Raise (KeyError "id"),
                   mkFrame w' tr' (incr_updates (counts σ)) (domain_to_zone σ))
        | Some rid =>
            let '(o, w'') := update_a_record cloudflare zid (py_str rid)
                               domain public_ip proxied comment w' in
            (unit_outcome o,
             mkFrame w'' (tr' ++ [CallUpdateARecord zid (py_str rid) domain
                                    public_ip proxied comment])
               (incr_updates (counts σ)) (domain_to_zone σ))
        end.
Proof.
  intros H1 H2 H3 H4 H5.
  unfold sync_domain, bind, get_domain_to_zone, lift, call.
  rewrite H1. cbn [fst provider]. rewrite H2. fold (named domain listed).
  destruct (named domain listed) as [|r rs] eqn:Hn; [done|].
  rewrite H4, H5. unfold multiple_warning.
  fold (content_of target) (proxied_of default_proxied target).
  unfold update_counts, log, emit, ret, getitem.
  destruct (1 <? length (r :: rs))%nat;
    cbn [provider trace counts domain_to_zone];
    rewrite ?app_nil_r;
    (destruct (String.eqb (content_of target) public_ip
               && String.eqb (_compose_comment existing)
                    (or_empty_strip existing)); [done|]);
    (destruct dry_run; [done|]);
    (destruct (target !! "id") as [rid|]; [|done]);
    by destruct (update_a_record _ _ _ _ _ _ _ _) as [[?|?] ?].
Qed.
End SyncDomainFacts.

(** * The record differ *)



(** C1, as the code has it. With at least one record of the name, the loop
    body counts a no-op, and sends nothing, exactly when the target's address
    is the desired one and the composed comment equals the target's comment
    after trimming; in every other case it counts an update and, unless this
    is a dry run, sends one update call with the desired address and the
    composed comment. *)
Theorem noop_iff_address_and_trimmed_comment {W}
    (cloudflare : CloudflareClient W)
    (public_ip : string) (default_proxied dry_run : bool)
    (domain zid zn : string) (listed : list dict) (w' : W)
    (target : dict) (existing : option string) (σ : frame W) :
  domain_to_zone σ !! domain = Some (zid, zn) →
  list_a_records cloudflare zid (Some domain) (provider σ) = (Ok listed, w') →
  named domain listed ≠ [] →
  _pick_record (named domain listed) = Ok target →
  as_comment (dict_get target "comment" JNull) = Ok existing →
  let r := sync_domain public_ip default_proxied dry_run cloudflare domain σ in
  let comment := _compose_comment existing in
  let pre := CallListARecords zid (Some domain)
             :: multiple_warning domain (named domain listed) in
  (content_of target = public_ip ∧ comment = or_empty_strip existing →
   r.1 = Ok tt ∧ provider r.2 = w'
   ∧ counts r.2 = incr_noops (counts σ)
   ∧ trace r.2 = trace σ ++ pre ++ [Log INFO (LogNoChange domain public_ip)])
  ∧ (¬ (content_of target = public_ip ∧ comment = or_empty_strip existing) →
     counts r.2 = incr_updates (counts σ)
     ∧ trace r.2 = trace σ ++ pre
         ++ [Log INFO (LogUpdate domain (content_of target) public_ip)]
         ++ (if dry_run then []
             else match target !! "id" with
                  | Some rid =>
                      [CallUpdateARecord zid (py_str rid) domain public_ip
                         (proxied_of default_proxied target) comment]
                  | None => []
                  end)).
Proof.
  intros H1 H2 H3 H4 H5 r comment pre. subst r comment pre.
  rewrite (sync_domain_existing _ _ _ _ _ _ _ _ _ _ _ _ H1 H2 H3 H4 H5).
  cbv zeta.
  destruct (String.eqb (content_of target) public_ip
            && String.eqb (_compose_comment existing) (or_empty_strip existing))
    eqn:E.
  - apply andb_true_iff in E as [Ea%String.eqb_eq Eb%String.eqb_eq].
    split; [|tauto]. intros _. cbn. split_and!; try done.
    by rewrite <- !app_assoc.
  - split.
    + intros [Ea%String.eqb_eq Eb%String.eqb_eq]. by rewrite Ea, Eb in E.
    + intros _. destruct dry_run; [cbn; by rewrite <- !app_assoc|].
      destruct (target !! "id") as [rid|]; [|cbn; by rewrite <- !app_assoc].
      destruct (update_a_record _ _ _ _ _ _ _ _) as [o w'']. cbn.
      by rewrite <- !app_assoc.
Qed.

Lemma noop_iff_address_and_trimmed_comment_witness :
  let target := record_of "r2" "same.example.com" "203.0.113.10" false
                  MANAGED_MARKER in
  let r := sync_domain "203.0.113.10" false false FakeCloudflare
             "same.example.com" (frame_at fake_init "same.example.com") in
  r.1 = Ok tt ∧ counts r.2 = mkSyncSummary 0 0 1 0 0
  ∧ trace r.2 = [CallListARecords "zone1" (Some "same.example.com");
                 Log INFO (LogNoChange "same.example.com" "203.0.113.10")].
Proof.
  intros target.
  pose proof (noop_iff_address_and_trimmed_comment FakeCloudflare
                "203.0.113.10" false false "same.example.com" "zone1"
                "example.com" [target] fake_init target (Some MANAGED_MARKER)
                (frame_at fake_init "same.example.com")
                eq_refl eq_refl ltac:(vm_compute; discriminate) eq_refl eq_refl)
    as [Hnoop _].
  destruct (Hnoop ltac:(split; vm_compute; reflexivity)) as (Ho & _ & Hc & Ht).
  cbv zeta. rewrite Ho, Hc, Ht. repeat split.
Defined.

(** C1 as stated fails: the only record of the name has the desired address
    and a raw comment that differs from the composed one (it starts with a
    space), and the engine still counts a no-op and sends no update. *)
Lemma noop_although_raw_comment_differs :
  content_of padded_record = "203.0.113.10"
  ∧ padded_record !! "comment" = Some (JStr (" " +:+ MANAGED_MARKER))
  ∧ _compose_comment (Some (" " +:+ MANAGED_MARKER)) = MANAGED_MARKER
  ∧ " " +:+ MANAGED_MARKER ≠ MANAGED_MARKER
  ∧ sync_domains {[ "pad.example.com" ]} "203.0.113.10" false false false
      FakeCloudflare padded_fake
    = (Ok (mkSyncSummary 0 0 1 0 0), padded_fake,
       [CallListZones; CallListARecords "zone1" (Some "pad.example.com");
        Log INFO (LogNoChange "pad.example.com" "203.0.113.10")]).
Proof. split_and!; [vm_compute; reflexivity..|discriminate|vm_compute; reflexivity]. Qed.

(** C6. With at least one record of the name, every update call the loop
    body sends carries the proxied flag of the target record, and the
    default only when the target has no such field; if the target has the
    field, the default has no influence on what the loop body does; and an
    update that is due, outside a dry run, on a target with an id, is sent
    with that flag. *)
Theorem update_keeps_proxied {W} (cloudflare : CloudflareClient W)
    (public_ip : string) (default_proxied dry_run : bool)
    (domain zid zn : string) (listed : list dict) (w' : W)
    (target : dict) (existing : option string) (σ : frame W) :
  domain_to_zone σ !! domain = Some (zid, zn) →
  list_a_records cloudflare zid (Some domain) (provider σ) = (Ok listed, w') →
  named domain listed ≠ [] →
  _pick_record (named domain listed) = Ok target →
  as_comment (dict_get target "comment" JNull) = Ok existing →
  let r := sync_domain public_ip default_proxied dry_run cloudflare domain σ in
  ∃ sent, trace r.2 = trace σ ++ sent
  ∧ (∀ z rid n ip p c, CallUpdateARecord z rid n ip p c ∈ sent →
       p = existing_proxied default_proxied target ∧ ip = public_ip)
  ∧ (∀ z n ip p c, CallCreateARecord z n ip p c ∉ sent)
  ∧ (is_Some (target !! "proxied") → ∀ other_default,
       sync_domain public_ip other_default dry_run cloudflare domain σ = r)
  ∧ (∀ rid, dry_run = false → target !! "id" = Some rid →
       ¬ (content_of target = public_ip
          ∧ _compose_comment existing = or_empty_strip existing) →
       CallUpdateARecord zid (py_str rid) domain public_ip
         (existing_proxied default_proxied target)
         (_compose_comment existing) ∈ sent).
Proof.
  intros H1 H2 H3 H4 H5 r.
  assert (Hp : ∀ d, proxied_of d target = existing_proxied d target).
  { intros d. unfold proxied_of, existing_proxied, dict_get.
    by destruct (target !! "proxied"). }
  assert (Hd : is_Some (target !! "proxied") → ∀ d,
            existing_proxied d target = existing_proxied default_proxied target).
  { intros [v Hv] d. unfold existing_proxied. by rewrite Hv. }
  pose proof (sync_domain_existing public_ip default_proxied dry_run cloudflare
                _ _ _ _ _ _ _ _ H1 H2 H3 H4 H5) as Hr.
  assert (Hother : is_Some (target !! "proxied") → ∀ d,
            sync_domain public_ip d dry_run cloudflare domain σ = r).
  { intros Hs d. subst r. rewrite Hr.
    rewrite (sync_domain_existing public_ip d dry_run cloudflare
               _ _ _ _ _ _ _ _ H1 H2 H3 H4 H5).
    cbv zeta. by rewrite !Hp, (Hd Hs d). }
  cut (∃ sent, trace r.2 = trace σ ++ sent
       ∧ (∀ z rid n ip p c, CallUpdateARecord z rid n ip p c ∈ sent →
            p = existing_proxied default_proxied target ∧ ip = public_ip)
       ∧ (∀ z n ip p c, CallCreateARecord z n ip p c ∉ sent)
       ∧ (∀ rid, dry_run = false → target !! "id" = Some rid →
            ¬ (content_of target = public_ip
               ∧ _compose_comment existing = or_empty_strip existing) →
            CallUpdateARecord zid (py_str rid) domain public_ip
              (existing_proxied default_proxied target)
              (_compose_comment existing) ∈ sent)).
  { intros (sent & HA & HB & HC & HE). exists sent. split_and!; done. }
  clear Hother. subst r. rewrite Hr. cbv zeta. rewrite Hp.
  unfold multiple_warning.
  destruct (1 <? length (named domain listed)),
    (String.eqb (content_of target) public_ip
     && String.eqb (_compose_comment existing) (or_empty_strip existing)) eqn:E,
    dry_run, (target !! "id") as [rid|] eqn:Hid;
    try destruct (update_a_record _ _ _ _ _ _ _ _) as [o w''];
    (eexists; split; [cbn; rewrite <- !app_assoc; reflexivity|];
     split_and!;
     [intros z rid0 n ip p c Hin; in_list|intros z n ip p c Hin; in_list|]);
    intros rid' Hdry Hid' Hn; try discriminate;
    try (destruct Hn; apply andb_true_iff in E; destruct E as [Ea Eb];
         apply String.eqb_eq in Ea; apply String.eqb_eq in Eb; done);
    simplify_eq; in_list.
Qed.

Lemma update_keeps_proxied_witness :
  let r := sync_domain "203.0.113.10" false false FakeCloudflare
             "exists.example.com" (frame_at fake_init "exists.example.com") in
  CallUpdateARecord "zone1" "r1" "exists.example.com" "203.0.113.10" true
    MANAGED_MARKER ∈ trace r.2.
Proof.
  pose (target := record_of "r1" "exists.example.com" "198.51.100.10" true "").
  destruct (update_keeps_proxied FakeCloudflare
              "203.0.113.10" false false "exists.example.com" "zone1"
              "example.com" [target] fake_init target (Some "")
              (frame_at fake_init "exists.example.com")
              eq_refl eq_refl ltac:(vm_compute; discriminate) eq_refl eq_refl)
    as (sent & Ht & _ & _ & _ & Hsent).
  cbv zeta. rewrite Ht. apply elem_of_app. right.
  apply (Hsent (JStr "r1") eq_refl eq_refl).
  intros [Hc _]. vm_compute in Hc. discriminate.
Defined.

(** * Python's [sorted] *)

Module SortedFacts.

Lemma ascii_compare_refl c : Ascii.compare c c = Eq.
Proof. unfold Ascii.compare. apply N.compare_refl. Qed.

Lemma compare_refl s : String.compare s s = Eq.
Proof. induction s as [|c s IH]; simpl; [done|]. by rewrite ascii_compare_refl. Qed.

Lemma leb_refl s : String.leb s s = true.
Proof. unfold String.leb. by rewrite compare_refl. Qed.

Lemma ascii_compare_trans c1 c2 c3 o :
  Ascii.compare c1 c2 = o → Ascii.compare c2 c3 = o → Ascii.compare c1 c3 = o.
Proof.
  unfold Ascii.compare. destruct o; intros H1 H2.
  - apply N.compare_eq_iff in H1, H2. apply N.compare_eq_iff. congruence.
  - rewrite N.compare_lt_iff in *. lia.
  - rewrite N.compare_gt_iff in *. lia.
Qed.

Lemma ascii_compare_eq c1 c2 : Ascii.compare c1 c2 = Eq → c1 = c2.
Proof. apply Ascii.compare_eq_iff. Qed.

Lemma leb_trans a b c :
  String.leb a b = true → String.leb b c = true → String.leb a c = true.
Proof.
  unfold String.leb. revert b c.
  induction a as [|x a IH]; intros [|y b] [|z c]; simpl; try done.
  destruct (Ascii.compare x y) eqn:Hxy; try done;
    destruct (Ascii.compare y z) eqn:Hyz; try done.
  - apply ascii_compare_eq in Hxy, Hyz. subst. rewrite ascii_compare_refl.
    apply IH.
  - apply ascii_compare_eq in Hxy. subst. by rewrite Hyz.
  - apply ascii_compare_eq in Hyz. subst. by rewrite Hxy.
  - by rewrite (ascii_compare_trans x y z Lt).
Qed.

Section WithKey.
Context {A : Type} (key : A → string).

Lemma insert_by_Permutation x l : insert_by key x l ≡ₚ x :: l.
Proof.
  induction l as [|y l IH]; simpl; [done|].
  destruct (String.leb (key x) (key y)); [done|].
  rewrite IH. apply Permutation_swap.
Qed.

Lemma sorted_Permutation l : sorted key l ≡ₚ l.
Proof.
  induction l as [|x l IH]; simpl; [done|].
  by rewrite insert_by_Permutation, IH.
Qed.

Lemma insert_by_least_first x l :
  least_first key l → least_first key (insert_by key x l).
Proof.
  destruct l as [|h l]; simpl.
  - intros _ y ->%list_elem_of_singleton. apply leb_refl.
  - intros Hh. destruct (String.leb (key x) (key h)) eqn:E; simpl.
    + intros y [->|Hy]%elem_of_cons; [apply leb_refl|].
      eapply leb_trans; [exact E|by apply Hh].
    + intros y Hy.
      assert (y ∈ x :: h :: l) as [->|Hy']%elem_of_cons.
      { rewrite <- (insert_by_Permutation x (h :: l)). simpl. by rewrite E. }
      * destruct (String.leb_total (key x) (key h)); congruence.
      * by apply Hh.
Qed.

Lemma sorted_least_first l : least_first key (sorted key l).
Proof.
  induction l as [|x l IH]; simpl; [done|]. by apply insert_by_least_first.
Qed.

Lemma sorted_nil_inv l : sorted key l = [] → l = [].
Proof.
  intros H. apply Permutation_nil_r. by rewrite <- H, sorted_Permutation.
Qed.

(** The head of the sorted list: an element of the list whose key is not
    above any other. *)
Lemma sorted_head h t l :
  sorted key l = h :: t →
  h ∈ l ∧ ∀ x, x ∈ l → String.leb (key h) (key x) = true.
Proof.
  intros H. pose proof (sorted_least_first l) as Hl. rewrite H in Hl.
  pose proof (sorted_Permutation l) as Hp. rewrite H in Hp. split.
  - rewrite <- Hp. left.
  - intros x Hx. apply Hl. by rewrite Hp.
Qed.
End WithKey.

End SortedFacts.

(** * Record selection *)

Section PickRecord.
Import SortedFacts.

Lemma pick_record_ok records target :
  _pick_record records = Ok target →
  target ∈ records ∧
  ∀ r, r ∈ records →
    String.leb (record_id_key target) (record_id_key r) = true.
Proof.
  unfold _pick_record.
  destruct (sorted record_id_key records) as [|h t] eqn:E; [done|].
  intros [= <-]. by apply (sorted_head record_id_key h t).
Qed.

Lemma pick_record_raise records e :
  _pick_record records = Raise e → records = [].
Proof.
  unfold _pick_record.
  destruct (sorted record_id_key records) as [|h t] eqn:E; [|done].
  intros _. by apply (sorted_nil_inv record_id_key).
Qed.

Lemma pick_record_nonempty records :
  records ≠ [] → ∃ target, _pick_record records = Ok target.
Proof.
  intros Hne. destruct (_pick_record records) as [t|e] eqn:E; [by exists t|].
  by apply pick_record_raise in E.
Qed.

(** Two selections from the same records, in whatever order, have the
    same id string. *)
Lemma pick_record_same_key records records' t t' :
  records ≡ₚ records' →
  _pick_record records = Ok t → _pick_record records' = Ok t' →
  record_id_key t' = record_id_key t.
Proof.
  intros Hp [Ht Hmin]%pick_record_ok [Ht' Hmin']%pick_record_ok.
  apply String.leb_antisym.
  - apply Hmin'. by rewrite <- Hp.
  - apply Hmin. by rewrite Hp.
Qed.

Lemma NoDup_fmap_inj {A B} (f : A → B) (l : list A) x y :
  NoDup (f <$> l) → x ∈ l → y ∈ l → f x = f y → x = y.
Proof.
  induction l as [|a l IH]; [by intros _ ?%elem_of_nil|].
  rewrite fmap_cons, NoDup_cons.
  intros [Ha Hl] [->|Hx]%elem_of_cons [->|Hy]%elem_of_cons Hf; try done.
  - destruct Ha. rewrite Hf. by apply list_elem_of_fmap_2.
  - destruct Ha. rewrite <- Hf. by apply list_elem_of_fmap_2.
  - by apply IH.
Qed.

(** The warning the second loop writes for [domain]: there whenever the
    listing succeeds and has more than one record of the name, and not
    otherwise. *)
Lemma sync_domain_warns {W} (cloudflare : CloudflareClient W)
    public_ip default_proxied dry_run domain zid zn listed w'
    (σ : frame W) :
  domain_to_zone σ !! domain = Some (zid, zn) →
  list_a_records cloudflare zid (Some domain) (provider σ) = (Ok listed, w') →
  ∃ sent,
    trace (sync_domain public_ip default_proxied dry_run cloudflare domain σ).2
    = trace σ ++ sent
    ∧ (Log WARNING (LogMultipleRecords domain) ∈ sent
       ↔ 1 < length (named domain listed)).
Proof.
  intros H1 H2. unfold sync_domain, bind, get_domain_to_zone, lift, call.
  rewrite H1. cbn [fst provider]. rewrite H2. fold (named domain listed).
  destruct (named domain listed) as [|r rs] eqn:Hn.
  { unfold update_counts, log, emit, ret.
    destruct dry_run; [|destruct (create_a_record _ _ _ _ _ _ _) as [[?|?] ?]];
      (eexists; split; [cbn; rewrite <- ?app_assoc; reflexivity|]);
      (split; [intros Hin; in_list|cbn; lia]). }
  unfold update_counts, log, emit, ret, getitem.
  destruct (1 <? length (r :: rs)) eqn:Hlt;
    [apply Nat.ltb_lt in Hlt|apply Nat.ltb_ge in Hlt];
    cbn [provider trace counts domain_to_zone];
    destruct (_pick_record (r :: rs)) as [target|e];
    try destruct (as_comment _) as [existing|e];
    try destruct (_ && _); try destruct dry_run;
    try destruct (target !! "id") as [rid|];
    try destruct (update_a_record _ _ _ _ _ _ _ _) as [[?|?] ?];
    (eexists; split; [cbn; rewrite <- ?app_assoc; reflexivity|]);
    (split; [intros Hin; first [done|in_list|lia]|intros; first [lia|in_list]]).
Qed.
End PickRecord.

(** C7, as the code has it. From the same records in any order the engine
    selects a record whose id string is lexicographically smallest, so the
    selected id string is always the same; the selected record is the same
    whenever the id strings of the records are pairwise distinct; no record
    is selected exactly when there is none. And when the listing for a
    hostname has more than one record of the name, the loop body writes the
    warning, and it writes none otherwise. *)
Theorem pick_record_deterministic (records records' : list dict) :
  records ≡ₚ records' →
  match _pick_record records, _pick_record records' with
  | Ok target, Ok target' =>
      target ∈ records
      ∧ (∀ r, r ∈ records →
           String.leb (record_id_key target) (record_id_key r) = true)
      ∧ record_id_key target' = record_id_key target
      ∧ (NoDup (record_id_key <$> records) → target' = target)
  | Raise _, Raise _ => records = [] ∧ records' = []
  | _, _ => False
  end
  ∧ ∀ W (cloudflare : CloudflareClient W) public_ip default_proxied dry_run
      domain zid zn listed w' (σ : frame W),
      named domain listed = records →
      domain_to_zone σ !! domain = Some (zid, zn) →
      list_a_records cloudflare zid (Some domain) (provider σ)
      = (Ok listed, w') →
      ∃ sent,
        trace (sync_domain public_ip default_proxied dry_run cloudflare
                 domain σ).2 = trace σ ++ sent
        ∧ (Log WARNING (LogMultipleRecords domain) ∈ sent
           ↔ 1 < length records).
Proof.
  intros Hp. split.
  - destruct (_pick_record records) as [t|e] eqn:E,
             (_pick_record records') as [t'|e'] eqn:E'.
    + pose proof (pick_record_ok _ _ E) as [Ht Hmin].
      pose proof (pick_record_ok _ _ E') as [Ht' _].
      pose proof (pick_record_same_key _ _ _ _ Hp E E') as Hk.
      split_and!; try done.
      intros Hnd. apply (NoDup_fmap_inj record_id_key records); try done.
      by rewrite Hp.
    + apply pick_record_raise in E'. subst records'.
      apply Permutation_nil_r in Hp. subst records. discriminate.
    + apply pick_record_raise in E. subst records.
      apply Permutation_nil_l in Hp. subst records'. discriminate.
    + apply pick_record_raise in E, E'. done.
  - intros W cloudflare public_ip default_proxied dry_run domain zid zn
      listed w' σ <- H1 H2.
    by eapply sync_domain_warns.
Qed.

Lemma pick_record_deterministic_witness :
  let r1 := record_of "r1" "h.example.com" "198.51.100.1" false "" in
  let r2 := record_of "r2" "h.example.com" "198.51.100.2" true "" in
  [r1; r2] ≡ₚ [r2; r1]
  ∧ match _pick_record [r1; r2], _pick_record [r2; r1] with
    | Ok target, Ok target' =>
        record_id_key target' = record_id_key target ∧ target ∈ [r1; r2]
    | _, _ => False
    end.
Proof.
  intros r1 r2. split; [apply Permutation_swap|].
  destruct (pick_record_deterministic [r1; r2] [r2; r1]
              (Permutation_swap r2 r1 [])) as [H _].
  destruct (_pick_record [r1; r2]), (_pick_record [r2; r1]).
  - destruct H as (Hin & _ & Hk & _). by split.
  - exact H.
  - exact H.
  - destruct H as [H _]. discriminate H.
Defined.

(** C7 as stated fails: two records with the same id string, listed in the
    two possible orders, give two different targets. *)
Lemma pick_record_depends_on_order :
  let a := record_of "r1" "h.example.com" "198.51.100.1" false "" in
  let b := record_of "r1" "h.example.com" "198.51.100.2" false "" in
  [a; b] ≡ₚ [b; a]
  ∧ _pick_record [a; b] = Ok a
  ∧ _pick_record [b; a] = Ok b
  ∧ a !! "content" ≠ b !! "content".
Proof.
  intros a b. split_and!.
  - apply Permutation_swap.
  - vm_compute. reflexivity.
  - vm_compute. reflexivity.
  - vm_compute. discriminate.
Qed.

(** * The stale record pruner *)

Section Pruner.
Context {W : Type}.
Variables (dry_run : bool) (cloudflare : CloudflareClient W)
          (desired : gset string) (zid : string).

Lemma cleanup_record_unfold record (σ : frame W) :
  cleanup_record dry_run cloudflare desired zid record σ =
  if decide (stale desired record) then
    let tr := trace σ ++ [Log INFO (LogDeleteStale (pruner_name record))] in
    if dry_run
    then (Ok tt, mkFrame (provider σ) tr (incr_deletes (counts σ))
                   (domain_to_zone σ))
    else
      match record !! "id" with
      | None => (Raise (KeyError "id"),
                 mkFrame (provider σ) tr (incr_deletes (counts σ))
                   (domain_to_zone σ))
      | Some rid =>
          let '(o, w') := delete_record cloudflare zid (py_str rid)
                            (provider σ) in
          (o, mkFrame w' (tr ++ [CallDeleteRecord zid (py_str rid)])
                (incr_deletes (counts σ)) (domain_to_zone σ))
      end
  else (Ok tt, σ).
Proof.
  unfold cleanup_record.
  fold (pruner_name record) (pruner_comment record).
  destruct (decide (stale desired record)) as [[Hc Hd]|Hn].
  - rewrite Hc. cbn [negb]. rewrite bool_decide_eq_false_2 by done.
    unfold bind, update_counts, log, emit, ret, lift, getitem, call.
    cbn [provider trace counts domain_to_zone].
    destruct dry_run; [done|].
    destruct (record !! "id") as [rid|]; [|done].
    cbn [provider trace counts domain_to_zone].
    by destruct (delete_record _ _ _ _) as [[?|?] ?].
  - destruct (PyStr.contains MANAGED_MARKER (pruner_comment record)) eqn:Hc;
      cbn [negb]; [|done].
    destruct (bool_decide (pruner_name record ∈ desired)) eqn:Hd; [done|].
    destruct Hn. split; [done|]. by eapply bool_decide_eq_false_1.
Qed.

Lemma record_id_key_lookup record rid :
  record !! "id" = Some rid → record_id_key record = py_str rid.
Proof. intros H. unfold record_id_key, dict_get. by rewrite H. Qed.

(** The inner loop over the records of one zone. *)
Lemma cleanup_records_spec rs (σ : frame W) :
  let r := for_each rs (cleanup_record dry_run cloudflare desired zid) σ in
  ∃ sent, trace r.2 = trace σ ++ sent
  ∧ domain_to_zone r.2 = domain_to_zone σ
  ∧ (∀ z rid, CallDeleteRecord z rid ∈ sent →
       dry_run = false ∧ z = zid ∧
       ∃ record, record ∈ rs ∧ stale desired record
                 ∧ rid = record_id_key record)
  ∧ (r.1 = Ok tt →
       sent = flat_map (prune_actions dry_run desired zid) rs
       ∧ counts r.2 = mkSyncSummary (creates (counts σ)) (updates (counts σ))
           (noops (counts σ))
           (deletes (counts σ) + length (filter (stale desired) rs))
           (skipped (counts σ)))
  ∧ (dry_run = true → r.1 = Ok tt ∧ provider r.2 = provider σ).
Proof.
  revert σ. induction rs as [|record rs IH]; intros σ r.
  { exists []. subst r. cbn. rewrite app_nil_r, Nat.add_0_r.
    split_and!; try done.
    - intros z rid Hin. by apply elem_of_nil in Hin.
    - intros _. split; [done|]. by destruct (counts σ). }
  subst r. cbn [for_each]. unfold bind.
  rewrite cleanup_record_unfold. unfold prune_actions.
  cbn [flat_map]. rewrite filter_cons.
  destruct (decide (stale desired record)) as [Hs|Hs]; cbv beta iota zeta.
  2:{ destruct (IH σ) as (sent & Ht & Hz & Hsafe & Hok & Hdry).
      exists sent. split_and!; try done.
      intros z rid Hin. destruct (Hsafe z rid Hin) as (? & ? & rec & ? & ? & ?).
      split_and!; try done. exists rec. split_and!; try done. by right. }
  destruct dry_run eqn:Edry; cbv beta iota.
  { match goal with |- context [for_each rs _ ?s] =>
      destruct (IH s) as (sent & Ht & Hz & Hsafe & Hok & Hdry) end.
    cbn [provider trace counts domain_to_zone] in *.
    eexists. split; [rewrite Ht, <- app_assoc; reflexivity|].
    split_and!; try done.
    - intros z rid [Hin|Hin]%elem_of_cons; [done|].
      destruct (Hsafe z rid Hin) as (? & ? & rec & ? & ? & ?). done.
    - intros Hr. destruct (Hok Hr) as [-> ->]. split; [done|].
      cbn. f_equal. lia. }
  destruct (record !! "id") as [rid|] eqn:Hid; cbv beta iota.
  2:{ eexists. split; [reflexivity|]. split_and!; try done.
      intros z rid Hin. in_list. }
  destruct (delete_record cloudflare zid (py_str rid) (provider σ))
    as [[[]|e] w'] eqn:Hdel; cbv beta iota.
  2:{ eexists. split; [cbn; rewrite <- app_assoc; reflexivity|].
      split_and!; try done.
      intros z rid' Hin.
      assert (z = zid ∧ rid' = py_str rid) as [-> ->] by in_list.
      split_and!; try done. exists record. split_and!; try done; [by left|].
      by rewrite (record_id_key_lookup _ _ Hid). }
  match goal with |- context [for_each rs _ ?s] =>
    destruct (IH s) as (sent & Ht & Hz & Hsafe & Hok & Hdry) end.
  cbn [provider trace counts domain_to_zone] in *.
  eexists. split; [rewrite Ht, <- !app_assoc; reflexivity|].
  split_and!; try done.
  - intros z rid' [Hin|[Hin|Hin]%elem_of_cons]%elem_of_cons; [done| |].
    + injection Hin as -> ->. split_and!; try done.
      exists record. split_and!; try done; [by left|].
      by rewrite (record_id_key_lookup _ _ Hid).
    + destruct (Hsafe z rid' Hin) as (? & ? & rec & ? & ? & ?).
      split_and!; try done. exists rec. split_and!; try done. by right.
  - intros Hr. destruct (Hok Hr) as [-> ->]. split.
    + cbn. by rewrite (record_id_key_lookup _ _ Hid).
    + cbn. f_equal. lia.
Qed.
End Pruner.

(** C2. Cleanup of one zone whose listing succeeds. Every delete call that
    is sent is for a record of the listing whose comment holds the marker
    and whose lowercased name is not desired, so a record without the marker
    is never deleted; when the cleanup of the zone returns, each such record
    of the listing, and no other, has been logged and counted as a delete
    and, outside a dry run, has had its delete call sent; a dry run always
    returns, sends no delete call and leaves the provider as the listing
    left it. *)
Theorem prune_exactly_stale_marked {W} (cloudflare : CloudflareClient W)
    (dry_run : bool) (desired : gset string) (zone : dict)
    (a_records : list dict) (w' : W) (σ : frame W) :
  zone_id_of zone ≠ "" →
  list_a_records cloudflare (zone_id_of zone) None (provider σ)
  = (Ok a_records, w') →
  let r := cleanup_zone dry_run cloudflare desired zone σ in
  ∃ sent,
    trace r.2 = trace σ ++ (CallListARecords (zone_id_of zone) None :: sent)
    ∧ (∀ z rid, CallDeleteRecord z rid ∈ sent →
         dry_run = false ∧ z = zone_id_of zone ∧
         ∃ record, record ∈ a_records
           ∧ PyStr.contains MANAGED_MARKER (pruner_comment record) = true
           ∧ (pruner_name record ∉ desired)
           ∧ rid = record_id_key record)
    ∧ (r.1 = Ok tt →
         sent = flat_map (prune_actions dry_run desired (zone_id_of zone))
                  a_records
         ∧ deletes (counts r.2)
           = deletes (counts σ) + length (filter (stale desired) a_records)
         ∧ creates (counts r.2) = creates (counts σ)
         ∧ updates (counts r.2) = updates (counts σ)
         ∧ noops (counts r.2) = noops (counts σ)
         ∧ skipped (counts r.2) = skipped (counts σ))
    ∧ (dry_run = true → r.1 = Ok tt ∧ provider r.2 = w').
Proof.
  intros Hid Hlist r. subst r. unfold cleanup_zone.
  fold (zone_id_of zone).
  apply PyStrFacts.is_empty_false in Hid. rewrite Hid.
  unfold bind, call. rewrite Hlist.
  match goal with |- context [for_each a_records _ ?s] =>
    destruct (cleanup_records_spec dry_run cloudflare desired
                (zone_id_of zone) a_records s)
      as (sent & Ht & _ & Hsafe & Hok & Hdry) end.
  cbn [provider trace counts domain_to_zone] in *.
  exists sent. split; [by rewrite Ht, <- app_assoc|]. split_and!.
  - intros z rid Hin.
    destruct (Hsafe z rid Hin) as (? & ? & record & ? & [? ?] & ?).
    split_and!; try done. by exists record.
  - intros Hr. destruct (Hok Hr) as [-> ->]. by cbn.
  - done.
Qed.

Lemma prune_exactly_stale_marked_witness :
  let zone : dict := {[ "id" := JStr "zone1"; "name" := JStr "example.com" ]} in
  let r := cleanup_zone false FakeCloudflare ∅ zone (initial_frame fake_init) in
  zone_id_of zone ≠ ""
  ∧ trace r.2 = [CallListARecords "zone1" None;
                 Log INFO (LogDeleteStale "stale.example.com");
                 CallDeleteRecord "zone1" "r3"]
  ∧ deletes (counts r.2) = 1.
Proof.
  intros zone r. split; [vm_compute; discriminate|].
  destruct (prune_exactly_stale_marked FakeCloudflare false ∅ zone
              (_all_zone_records fake_init) fake_init
              (initial_frame fake_init)
              ltac:(vm_compute; discriminate) eq_refl)
    as (sent & Ht & _ & Hok & _).
  destruct (Hok eq_refl) as (Hs & Hd & _).
  fold r in Ht, Hd. rewrite Ht, Hd, Hs. split; vm_compute; reflexivity.
Defined.

(** C2 as stated fails: in the dry run of [tests/test_sync_engine.py],
    cleanup is requested and the zone holds a record whose comment is the
    marker and whose name is not desired; the record is counted and logged,
    and it is not deleted. *)
Lemma dry_run_cleanup_deletes_nothing :
  let stale_record : dict :=
    {[ "id" := JStr "r3"; "name" := JStr "stale.example.com";
       "comment" := JStr MANAGED_MARKER ]} in
  let r := sync_domains {[ "new.example.com" ]} "203.0.113.10" false true true
             FakeCloudflare fake_init in
  stale_record ∈ _all_zone_records fake_init
  ∧ PyStr.contains MANAGED_MARKER (pruner_comment stale_record) = true
  ∧ pruner_name stale_record ∉ ({[ "new.example.com" ]} : gset string)
  ∧ r.1.1 = Ok (mkSyncSummary 1 0 0 1 0)
  ∧ deleted r.1.2 = []
  ∧ r.2 = [CallListZones; CallListARecords "zone1" (Some "new.example.com");
           Log INFO (LogCreate "new.example.com" "203.0.113.10");
           CallListARecords "zone1" None;
           Log INFO (LogDeleteStale "stale.example.com")].
Proof.
  intros stale_record r. split_and!.
  - left.
  - vm_compute. reflexivity.
  - vm_compute. intros H. discriminate H.
  - vm_compute. reflexivity.
  - vm_compute. reflexivity.
  - vm_compute. reflexivity.
Qed.

(** * The three loops and the summary *)

Section Loops.
Context {W : Type}.
Variables (public_ip : string) (default_proxied dry_run : bool)
          (cloudflare : CloudflareClient W).

Lemma sorted_elements_NoDup (X : gset string) :
  NoDup (sorted id (elements X)).
Proof.
  rewrite (SortedFacts.sorted_Permutation id). apply NoDup_elements.
Qed.

Lemma sorted_elements_length (X : gset string) :
  length (sorted id (elements X)) = size X.
Proof. by rewrite (SortedFacts.sorted_Permutation id). Qed.

Lemma match_domain_unfold zones d (σ : frame W) :
  match_domain zones d σ =
  match find_best_zone_match d zones with
  | Some m =>
      (Ok tt, mkFrame (provider σ) (trace σ) (counts σ)
                (<[d := (zone_id m, zone_name m)]> (domain_to_zone σ)))
  | None =>
      (Ok tt, mkFrame (provider σ)
                (trace σ ++ [Log WARNING (LogSkipNoZone d)])
                (incr_skipped (counts σ)) (domain_to_zone σ))
  end.
Proof.
  unfold match_domain. by destruct (find_best_zone_match d zones).
Qed.

(** First loop: it never raises, leaves the provider alone, and every
    domain either is counted as skipped or becomes a new key of
    [domain_to_zone]. *)
Lemma match_domains_spec zones l (σ : frame W) :
  NoDup l → (∀ d, d ∈ l → domain_to_zone σ !! d = None) →
  ∃ σ', for_each l (match_domain zones) σ = (Ok tt, σ')
    ∧ provider σ' = provider σ
    ∧ accounted (counts σ') + size (domain_to_zone σ')
      = accounted (counts σ) + size (domain_to_zone σ) + length l
    ∧ deletes (counts σ') = deletes (counts σ).
Proof.
  revert σ. induction l as [|d l IH]; intros σ Hnd Hfresh.
  { exists σ. cbn. split_and!; try done; lia. }
  apply NoDup_cons in Hnd as [Hd Hnd].
  cbn [for_each]. unfold bind. rewrite match_domain_unfold.
  destruct (find_best_zone_match d zones) as [m|].
  - match goal with |- context [for_each l _ ?s] =>
      destruct (IH s Hnd) as (σ' & -> & Hp & Hacc & Hdel) end.
    { intros d' Hd'. cbn. rewrite lookup_insert_ne by (by intros ->).
      apply Hfresh. by right. }
    exists σ'. cbn in *. split_and!; try done.
    rewrite Hacc, map_size_insert_None by (apply Hfresh; left); lia.
  - match goal with |- context [for_each l _ ?s] =>
      destruct (IH s Hnd) as (σ' & -> & Hp & Hacc & Hdel) end.
    { intros d' Hd'. cbn. apply Hfresh. by right. }
    exists σ'. cbn in *. split_and!; try done.
    rewrite Hacc. unfold accounted. cbn. lia.
Qed.

(** Second loop, one domain: when the body returns, exactly one of
    creates, updates and no-ops has gone up by one. *)
Lemma sync_domain_accounted domain u (σ σ' : frame W) :
  sync_domain public_ip default_proxied dry_run cloudflare domain σ
  = (Ok u, σ') →
  accounted (counts σ') = accounted (counts σ) + 1
  ∧ deletes (counts σ') = deletes (counts σ)
  ∧ domain_to_zone σ' = domain_to_zone σ.
Proof.
  unfold sync_domain, bind, get_domain_to_zone, lift, call, update_counts,
    log, emit, ret, getitem, accounted.
  destruct (domain_to_zone σ !! domain) as [z|]; [|done].
  destruct (list_a_records _ _ _ _) as [[listed|e] w1]; [|done].
  destruct (filter _ listed) as [|r rs].
  { destruct dry_run; [intros [= <- <-]; cbn; split_and!; first [done|lia]|].
    cbn [provider trace counts domain_to_zone].
    destruct (create_a_record _ _ _ _ _ _ _) as [[?|?] ?]; [|done].
    intros [= <- <-]; cbn; split_and!; first [done|lia]. }
  destruct (1 <? length (r :: rs));
    cbn [provider trace counts domain_to_zone];
    (destruct (_pick_record (r :: rs)) as [target|e]; [|done]);
    (destruct (as_comment _) as [existing|e]; [|done]);
    (destruct (_ && _);
     [intros [= <- <-]; cbn; split_and!; first [done|lia]|]);
    (destruct dry_run;
     [intros [= <- <-]; cbn; split_and!; first [done|lia]|]);
    (destruct (target !! "id") as [rid|]; [|done]);
    cbn [provider trace counts domain_to_zone];
    (destruct (update_a_record _ _ _ _ _ _ _ _) as [[?|?] ?]; [|done]);
    intros [= <- <-]; cbn; split_and!; first [done|lia].
Qed.

Lemma sync_loop_accounted l u (σ σ' : frame W) :
  for_each l (sync_domain public_ip default_proxied dry_run cloudflare) σ
  = (Ok u, σ') →
  accounted (counts σ') = accounted (counts σ) + length l
  ∧ deletes (counts σ') = deletes (counts σ)
  ∧ domain_to_zone σ' = domain_to_zone σ.
Proof.
  revert σ. induction l as [|d l IH]; intros σ.
  { intros [= <- <-]. cbn. split_and!; first [done|lia]. }
  cbn [for_each]. unfold bind.
  destruct (sync_domain _ _ _ _ d σ) as [[[]|e] σ1] eqn:E; [|done].
  apply sync_domain_accounted in E as (E1 & E2 & E3).
  intros (H1 & H2 & H3)%IH. cbn. split_and!; [lia|congruence..].
Qed.

(** Cleanup: when it returns, it has changed the deletes counter only. *)
Lemma cleanup_zone_accounted desired zone u (σ σ' : frame W) :
  cleanup_zone dry_run cloudflare desired zone σ = (Ok u, σ') →
  accounted (counts σ') = accounted (counts σ)
  ∧ domain_to_zone σ' = domain_to_zone σ.
Proof.
  unfold cleanup_zone. destruct (PyStr.is_empty _).
  { by intros [= <- <-]. }
  unfold bind, call.
  destruct (list_a_records _ _ _ _) as [[rs|e] w1]; [|done].
  match goal with |- context [for_each rs ?b ?s] =>
    destruct (cleanup_records_spec dry_run cloudflare desired
                (py_str (dict_get zone "id" (JStr ""))) rs s)
      as (sent & _ & Hz & _ & Hok & _);
    destruct (for_each rs b s) as [[[]|e] σ2] eqn:E end; [|done].
  intros [= <- <-]. destruct (Hok eq_refl) as [_ Hc].
  cbn in *. unfold accounted. rewrite Hc. cbn. done.
Qed.

Lemma cleanup_loop_accounted desired zones u (σ σ' : frame W) :
  for_each zones (cleanup_zone dry_run cloudflare desired) σ = (Ok u, σ') →
  accounted (counts σ') = accounted (counts σ).
Proof.
  revert σ. induction zones as [|zone zones IH]; intros σ.
  { by intros [= <- <-]. }
  cbn [for_each]. unfold bind.
  destruct (cleanup_zone _ _ _ zone σ) as [[[]|e] σ1] eqn:E; [|done].
  apply cleanup_zone_accounted in E as [E1 E2].
  intros H%IH. congruence.
Qed.
End Loops.

(** C10. Whenever [sync_domains] returns a summary, its creates, updates,
    no-ops and skipped add up to the number of domains given. *)
Theorem summary_accounts_for_every_domain {W} (cloudflare : CloudflareClient W)
    (domains : gset string) (public_ip : string)
    (default_proxied dry_run cleanup_stale : bool)
    (w w' : W) (summary : SyncSummary) (tr : list event) :
  sync_domains domains public_ip default_proxied dry_run cleanup_stale
    cloudflare w = (Ok summary, w', tr) →
  creates summary + updates summary + noops summary + skipped summary
  = size domains.
Proof.
  unfold sync_domains, sync_domains_body, bind, call, get_domain_to_zone,
    get_counts.
  cbn [provider trace counts domain_to_zone initial_frame].
  destruct (list_zones cloudflare w) as [[zones|e] w1]; [|done].
  match goal with |- context [for_each _ (match_domain zones) ?s] =>
    destruct (match_domains_spec zones (sorted id (elements domains)) s
                (sorted_elements_NoDup domains))
      as (σ1 & -> & _ & Hacc1 & _) end.
  { intros d _. cbn. apply lookup_empty. }
  cbn in Hacc1. rewrite map_size_empty, sorted_elements_length in Hacc1.
  destruct (for_each _ (sync_domain _ _ _ _) σ1) as [[[]|e] σ2] eqn:E2;
    [|done].
  apply sync_loop_accounted in E2 as (Hacc2 & _ & _).
  rewrite sorted_elements_length, size_dom in Hacc2.
  destruct cleanup_stale.
  - destruct (for_each zones _ σ2) as [[[]|e] σ3] eqn:E3; [|done].
    apply cleanup_loop_accounted in E3.
    intros [= <- _ _]. unfold accounted in *. cbn in *. lia.
  - unfold ret. intros [= <- _ _]. unfold accounted in *. cbn in *. lia.
Qed.

Lemma summary_accounts_for_every_domain_witness :
  let domains : gset string :=
    {[ "new.example.com"; "exists.example.com"; "same.example.com";
       "a.other.net" ]} in
  ∃ summary,
    (sync_domains domains "203.0.113.10" false false true FakeCloudflare
       fake_init).1.1 = Ok summary
    ∧ creates summary + updates summary + noops summary + skipped summary = 4.
Proof.
  intros domains.
  destruct (sync_domains domains "203.0.113.10" false false true
              FakeCloudflare fake_init) as [[[summary|e] w'] tr] eqn:E.
  - exists summary. split; [done|].
    by rewrite (summary_accounts_for_every_domain _ _ _ _ _ _ _ _ _ _ E).
  - vm_compute in E. discriminate E.
Defined.

(** * Dry runs *)

Section Simulation.
Context {W : Type} (R : W → W → Prop).

Lemma simulates_ret {A} (a : A) : simulates R (ret a) (ret a).
Proof. intros σ1 σ2 a' σ1' Hs [= <- <-]. by exists σ2. Qed.

Lemma simulates_bind {A B} (m1 m2 : M W A) (k1 k2 : A → M W B) :
  simulates R m1 m2 → (∀ a, simulates R (k1 a) (k2 a)) →
  simulates R (bind m1 k1) (bind m2 k2).
Proof.
  intros Hm Hk σ1 σ2 b σ1' Hs. unfold bind.
  destruct (m1 σ1) as [[a|e] σ1m] eqn:E1; [|done].
  destruct (Hm _ _ _ _ Hs E1) as (σ2m & -> & Hs'). by apply Hk.
Qed.

Lemma simulates_for_each {A} (l : list A) (b1 b2 : A → M W unit) :
  (∀ x, simulates R (b1 x) (b2 x)) →
  simulates R (for_each l b1) (for_each l b2).
Proof.
  intros Hb. induction l as [|x l IH]; cbn [for_each].
  - apply simulates_ret.
  - apply simulates_bind; [apply Hb|done].
Qed.

Lemma simulates_lift {A} (o : outcome A) : simulates R (lift o) (lift o).
Proof. intros σ1 σ2 a σ1' Hs [= -> <-]. by exists σ2. Qed.

Lemma simulates_emit e1 e2 : simulates R (emit e1) (emit e2).
Proof.
  intros σ1 σ2 a σ1' Hs [= <- <-]. eexists. split; [reflexivity|].
  by destruct Hs as (? & ? & ?).
Qed.

Lemma simulates_update_counts f :
  simulates R (update_counts f) (update_counts f).
Proof.
  intros σ1 σ2 a σ1' (? & Hc & ?) [= <- <-]. eexists. split; [reflexivity|].
  split_and!; cbn; congruence.
Qed.

Lemma simulates_set_domain_to_zone d z :
  simulates R (set_domain_to_zone d z) (set_domain_to_zone d z).
Proof.
  intros σ1 σ2 a σ1' (? & ? & Hz) [= <- <-]. eexists. split; [reflexivity|].
  split_and!; cbn; congruence.
Qed.

Lemma simulates_get_domain_to_zone :
  simulates R get_domain_to_zone get_domain_to_zone.
Proof.
  intros σ1 σ2 a σ1' (? & ? & Hz) [= <- <-]. exists σ2.
  unfold get_domain_to_zone. by rewrite Hz.
Qed.

Lemma simulates_get_counts : simulates R get_counts get_counts.
Proof.
  intros σ1 σ2 a σ1' (? & Hc & ?) [= <- <-]. exists σ2.
  unfold get_counts. by rewrite Hc.
Qed.

(** A call that both runs make, when related providers answer it alike. *)
Lemma simulates_call {A} e (op : W → outcome A * W) :
  (∀ w1 w2 a w1', R w1 w2 → op w1 = (Ok a, w1') →
     ∃ w2', op w2 = (Ok a, w2') ∧ R w1' w2') →
  simulates R (call e op) (call e op).
Proof.
  intros Hop σ1 σ2 a σ1' (HR & Hc & Hz). unfold call.
  destruct (op (provider σ1)) as [o w1'] eqn:E1. intros [= -> <-].
  destruct (Hop _ _ _ _ HR E1) as (w2' & -> & HR').
  eexists. split; [reflexivity|]. by split_and!.
Qed.

(** A call that only the real run makes, when its success is not seen. *)
Lemma simulates_call_skipped {A} e (op : W → outcome A * W) :
  (∀ w1 w2 a w1', R w1 w2 → op w1 = (Ok a, w1') → R w1' w2) →
  simulates R (bind (call e op) (fun _ => ret tt)) (ret tt).
Proof.
  intros Hop σ1 σ2 a σ1' (HR & Hc & Hz). unfold bind, call, ret.
  destruct (op (provider σ1)) as [[r|e'] w1'] eqn:E1; [|done].
  intros [= <- <-]. exists σ2. split; [done|].
  split_and!; try done. by eapply Hop.
Qed.
End Simulation.

Section Quiet.
Context {W : Type}.

Lemma quiet_ret {A} (a : A) : quiet (ret a : M W A).
Proof. intros σ. exists []. by rewrite app_nil_r. Qed.

Lemma quiet_lift {A} (o : outcome A) : quiet (lift o : M W A).
Proof. intros σ. exists []. by rewrite app_nil_r. Qed.

Lemma quiet_update_counts f : quiet (update_counts f : M W unit).
Proof. intros σ. exists []. by rewrite app_nil_r. Qed.

Lemma quiet_set_domain_to_zone d z : quiet (set_domain_to_zone d z : M W unit).
Proof. intros σ. exists []. by rewrite app_nil_r. Qed.

Lemma quiet_get_domain_to_zone : quiet (@get_domain_to_zone W).
Proof. intros σ. exists []. by rewrite app_nil_r. Qed.

Lemma quiet_get_counts : quiet (@get_counts W).
Proof. intros σ. exists []. by rewrite app_nil_r. Qed.

Lemma quiet_emit e : is_mutation e = false → quiet (emit e : M W unit).
Proof. intros He σ. exists [e]. split; [done|]. by constructor. Qed.

Lemma quiet_call {A} e (op : W → outcome A * W) :
  is_mutation e = false → quiet (call e op).
Proof.
  intros He σ. exists [e]. unfold call. destruct (op (provider σ)).
  split; [done|]. by constructor.
Qed.

Lemma quiet_bind {A B} (m : M W A) (k : A → M W B) :
  quiet m → (∀ a, quiet (k a)) → quiet (bind m k).
Proof.
  intros Hm Hk σ. unfold bind. destruct (Hm σ) as (s1 & Ht1 & Hq1).
  destruct (m σ) as [[a|e] σ1]; cbn in *.
  - destruct (Hk a σ1) as (s2 & Ht2 & Hq2). exists (s1 ++ s2).
    rewrite Ht2, Ht1, app_assoc. split; [done|]. by apply Forall_app.
  - by exists s1.
Qed.

Lemma quiet_for_each {A} (l : list A) (body : A → M W unit) :
  (∀ x, quiet (body x)) → quiet (for_each l body).
Proof.
  intros Hb. induction l as [|x l IH]; cbn [for_each].
  - apply quiet_ret.
  - apply quiet_bind; [apply Hb|done].
Qed.
End Quiet.

(** Steps of a proof that two runs of the same code stay similar: a
    primitive, and a bind whose first half is a primitive. *)
Ltac sim_leaf :=
  first
    [ apply simulates_ret | apply simulates_lift | apply simulates_emit
    | apply simulates_update_counts | apply simulates_set_domain_to_zone
    | apply simulates_get_domain_to_zone | apply simulates_get_counts ].

Ltac sim_bind := apply simulates_bind; [try sim_leaf|intros ?].

(** The same for a proof that a run sends no mutating call. *)
Ltac quiet_leaf :=
  first
    [ apply quiet_ret | apply quiet_lift | apply quiet_update_counts
    | apply quiet_set_domain_to_zone | apply quiet_get_domain_to_zone
    | apply quiet_get_counts | apply quiet_emit; reflexivity
    | apply quiet_call; reflexivity ].

Ltac quiet_bind := apply quiet_bind; [try quiet_leaf|intros ?].

Section DryRun.
Context {W : Type} (R : W → W → Prop).
Variables (public_ip : string) (default_proxied : bool)
          (cloudflare : CloudflareClient W).
Hypothesis Hreads : reads_agree cloudflare R.
Hypothesis Hwrites : writes_unseen cloudflare R.

Lemma simulates_lift_skipped {A B} (o : outcome A) (k : A → M W B) m2 :
  (∀ a, simulates R (k a) m2) → simulates R (bind (lift o) k) m2.
Proof.
  intros Hk σ1 σ2 b σ1' Hs. unfold bind, lift. destruct o as [a|e]; [|done].
  by apply Hk.
Qed.

Lemma match_domain_simulates zones domain :
  simulates R (match_domain zones domain) (match_domain zones domain).
Proof.
  unfold match_domain, log.
  destruct (find_best_zone_match domain zones); [sim_leaf|].
  sim_bind. sim_leaf.
Qed.

Lemma sync_domain_simulates domain :
  simulates R
    (sync_domain public_ip default_proxied false cloudflare domain)
    (sync_domain public_ip default_proxied true cloudflare domain).
Proof.
  destruct Hreads as [_ Hlist]. destruct Hwrites as (Hcreate & Hupdate & _).
  unfold sync_domain, log. sim_bind. sim_bind.
  sim_bind; [apply simulates_call; intros; by eapply Hlist|].
  destruct (filter _ _) as [|r rs].
  { sim_bind. sim_bind.
    apply simulates_call_skipped. intros. by eapply Hcreate. }
  sim_bind; [destruct (1 <? _); sim_leaf|].
  sim_bind. sim_bind. destruct (_ && _).
  { sim_bind. sim_leaf. }
  sim_bind. sim_bind.
  apply simulates_lift_skipped. intros rid.
  apply simulates_call_skipped. intros. by eapply Hupdate.
Qed.

Lemma cleanup_record_simulates desired zid record :
  simulates R
    (cleanup_record false cloudflare desired zid record)
    (cleanup_record true cloudflare desired zid record).
Proof.
  destruct Hwrites as (_ & _ & Hdelete).
  unfold cleanup_record, log.
  destruct (negb _); [sim_leaf|]. destruct (bool_decide _); [sim_leaf|].
  sim_bind. sim_bind.
  apply simulates_lift_skipped. intros rid σ1 σ2 [] σ1' (HR & Hc & Hz).
  unfold call, ret.
  destruct (delete_record _ _ _ _) as [o w1'] eqn:E. intros [= -> <-].
  exists σ2. split; [done|]. split_and!; try done. by eapply Hdelete.
Qed.

Lemma cleanup_zone_simulates desired zone :
  simulates R
    (cleanup_zone false cloudflare desired zone)
    (cleanup_zone true cloudflare desired zone).
Proof.
  destruct Hreads as [_ Hlist].
  unfold cleanup_zone. destruct (PyStr.is_empty _); [sim_leaf|].
  sim_bind; [apply simulates_call; intros; by eapply Hlist|].
  apply simulates_for_each. intros record. apply cleanup_record_simulates.
Qed.

Lemma sync_domains_body_simulates domains cleanup_stale :
  simulates R
    (sync_domains_body domains public_ip default_proxied false cleanup_stale
       cloudflare)
    (sync_domains_body domains public_ip default_proxied true cleanup_stale
       cloudflare).
Proof.
  destruct Hreads as [Hzones _].
  unfold sync_domains_body.
  sim_bind; [apply simulates_call; intros; by eapply Hzones|].
  sim_bind;
    [apply simulates_for_each; intros d; apply match_domain_simulates|].
  sim_bind.
  sim_bind;
    [apply simulates_for_each; intros d; apply sync_domain_simulates|].
  sim_bind; [|sim_leaf].
  destruct cleanup_stale; [|sim_leaf].
  apply simulates_for_each. intros zone. apply cleanup_zone_simulates.
Qed.
End DryRun.

Section DryRunQuiet.
Context {W : Type}.
Variables (public_ip : string) (default_proxied : bool)
          (cloudflare : CloudflareClient W).

Lemma sync_domain_quiet domain :
  quiet (sync_domain public_ip default_proxied true cloudflare domain).
Proof.
  unfold sync_domain, log. quiet_bind. quiet_bind. quiet_bind.
  destruct (filter _ _) as [|r rs].
  { quiet_bind. quiet_bind. quiet_leaf. }
  quiet_bind; [destruct (1 <? _); quiet_leaf|].
  quiet_bind. quiet_bind.
  destruct (_ && _); quiet_bind; [quiet_leaf|quiet_bind; quiet_leaf].
Qed.

Lemma cleanup_zone_quiet desired zone :
  quiet (cleanup_zone true cloudflare desired zone).
Proof.
  unfold cleanup_zone. destruct (PyStr.is_empty _); [quiet_leaf|].
  quiet_bind. apply quiet_for_each. intros record.
  unfold cleanup_record, log.
  destruct (negb _); [quiet_leaf|].
  destruct (bool_decide _); [quiet_leaf|].
  quiet_bind. quiet_bind. quiet_leaf.
Qed.

Lemma sync_domains_body_quiet domains cleanup_stale :
  quiet (sync_domains_body domains public_ip default_proxied true
           cleanup_stale cloudflare).
Proof.
  unfold sync_domains_body. quiet_bind.
  quiet_bind.
  { apply quiet_for_each. intros d. unfold match_domain, log.
    destruct (find_best_zone_match _ _); [quiet_leaf|].
    quiet_bind. quiet_leaf. }
  quiet_bind.
  quiet_bind; [apply quiet_for_each; intros d; apply sync_domain_quiet|].
  quiet_bind; [|quiet_leaf].
  destruct cleanup_stale; [|quiet_leaf].
  apply quiet_for_each. intros zone. apply cleanup_zone_quiet.
Qed.
End DryRunQuiet.




(** The listings of the provider matter to C8: on a provider that shows
    the marker an update has written, and for a hostname that is not
    lowercase, both runs return and their deletes differ. *)
Lemma dry_run_counts_differ_when_writes_are_seen :
  let w := mkMemory
             [ {[ "id" := JStr "zone1"; "name" := JStr "example.com" ]} ]
             [ ("zone1", record_of "r1" "A.example.com" "198.51.100.10"
                           false "") ] in
  (sync_domains {[ "A.example.com" ]} "203.0.113.10" false true true
     MemoryCloudflare w).1.1 = Ok (mkSyncSummary 0 1 0 0 0)
  ∧ (sync_domains {[ "A.example.com" ]} "203.0.113.10" false false true
       MemoryCloudflare w).1.1 = Ok (mkSyncSummary 0 1 0 1 0).
Proof. split; vm_compute; reflexivity. Qed.

(** [tests/test_sync_engine.py], the two tests. *)
Example test_sync_create_update_noop_and_cleanup :
  let r := sync_domains
             {[ "new.example.com"; "exists.example.com"; "same.example.com" ]}
             "203.0.113.10" false false true FakeCloudflare fake_init in
  r.1.1 = Ok (mkSyncSummary 1 1 1 1 0)
  ∧ created r.1.2 = [("zone1", "new.example.com", "203.0.113.10", false,
                      MANAGED_MARKER)]
  ∧ updated r.1.2 = [("zone1", "r1", "exists.example.com", "203.0.113.10",
                      true, MANAGED_MARKER)]
  ∧ deleted r.1.2 = [("zone1", "r3")].
Proof. vm_compute. by split_and!. Qed.

Example test_sync_dry_run_does_not_mutate :
  let r := sync_domains {[ "new.example.com" ]} "203.0.113.10" false true true
             FakeCloudflare fake_init in
  creates <$> (match r.1.1 with Ok s => Some s | Raise _ => None end) = Some 1
  ∧ created r.1.2 = [] ∧ updated r.1.2 = [] ∧ deleted r.1.2 = [].
Proof. vm_compute. by split_and!. Qed.

(** * The public-IP resolver *)

Section ResolverFacts.
Context {S : Type}.
Variables (session_get : string → Z → S → outcome Response * S)
          (IPv4Address : string → outcome unit) (timeout_seconds : Z).

Notation attempt' := (attempt session_get IPv4Address timeout_seconds).
Notation after_all' := (after_all session_get IPv4Address timeout_seconds).
Notation all_fail' := (all_fail session_get IPv4Address timeout_seconds).

Lemma contacted_app tr1 tr2 :
  contacted (tr1 ++ tr2) = contacted tr1 ++ contacted tr2.
Proof. apply omap_app. Qed.

(** What makes one source fail. *)
Lemma read_response_raises got e :
  read_response IPv4Address got = Raise e ↔
  got = Raise e
  ∨ (∃ response, got = Ok response ∧
       (raise_for_status response = Raise e
        ∨ (raise_for_status response = Ok tt
           ∧ IPv4Address (PyStr.strip (text response)) = Raise e))).
Proof.
  unfold read_response. destruct got as [response|e'].
  - destruct (raise_for_status response) as [[]|e1] eqn:E1.
    + destruct (IPv4Address _) as [[]|e2] eqn:E2; split.
      * done.
      * intros [H|(r & [= <-] & [H|[_ H]])]; congruence.
      * intros [= <-]. right. exists response. split; [done|]. right. by split.
      * intros [H|(r & [= <-] & [H|[_ H]])]; congruence.
    + split.
      * intros [= <-]. right. exists response. split; [done|]. by left.
      * intros [H|(r & [= <-] & [H|[H _]])]; congruence.
  - split; [intros [= <-]; by left|].
    intros [[= <-]|(r & H & _)]; [done|discriminate].
Qed.

(** What a source that succeeds returns. *)
Lemma read_response_ok got value :
  read_response IPv4Address got = Ok value ↔
  ∃ response, got = Ok response ∧ raise_for_status response = Ok tt
    ∧ value = PyStr.strip (text response) ∧ IPv4Address value = Ok tt.
Proof.
  unfold read_response. destruct got as [response|e'].
  - destruct (raise_for_status response) as [[]|e1] eqn:E1.
    + destruct (IPv4Address _) as [[]|e2] eqn:E2; split.
      * intros [= <-]. by exists response.
      * by intros (r & [= <-] & _ & -> & _).
      * done.
      * intros (r & [= <-] & _ & -> & H). congruence.
    + split; [done|]. intros (r & [= <-] & H & _). congruence.
  - split; [done|]. by intros (r & H & _).
Qed.

Lemma attempt_eq source s got s1 :
  session_get source timeout_seconds s = (got, s1) →
  attempt' source s = (read_response IPv4Address got, s1).
Proof. intros H. unfold attempt. by rewrite H. Qed.

Lemma all_fail_app pre post s :
  all_fail' (pre ++ post) s
  ↔ all_fail' pre s ∧ all_fail' post (after_all' pre s).
Proof.
  revert s. induction pre as [|source pre IH]; intros s; cbn; [tauto|].
  rewrite IH. tauto.
Qed.

Lemma resolve_loop_spec sources errors s tr :
  let r := resolve_loop session_get IPv4Address sources timeout_seconds
             errors s tr in
  match r.1.1 with
  | Ok value =>
      ∃ pre source post,
        sources = pre ++ source :: post ∧ all_fail' pre s
        ∧ attempt' source (after_all' pre s) = (Ok value, r.1.2)
        ∧ contacted r.2 = contacted tr ++ pre ++ [source]
  | Raise e =>
      all_fail' sources s
      ∧ (∃ errs, e = RuntimeError (errors ++ errs) ∧ errs.*1 = sources)
      ∧ contacted r.2 = contacted tr ++ sources
      ∧ r.1.2 = after_all' sources s
  end.
Proof.
  revert errors s tr. induction sources as [|source rest IH];
    intros errors s tr r; subst r.
  { cbn. split_and!; try done; [|by rewrite app_nil_r].
    exists []. by rewrite app_nil_r. }
  cbn [resolve_loop after_all all_fail].
  destruct (session_get source timeout_seconds s) as [got s1] eqn:Eg.
  rewrite (attempt_eq _ _ _ _ Eg).
  destruct (read_response IPv4Address got) as [value|exc] eqn:Er.
  - cbn. exists [], source, rest. split_and!; try done.
    + cbn. by rewrite (attempt_eq _ _ _ _ Eg), Er.
    + by rewrite contacted_app.
  - cbn [fst snd].
    specialize (IH (errors ++ [(source, exc)]) s1
                  ((tr ++ [CallGet source timeout_seconds])
                   ++ [Log WARNING (LogResolveFailed source exc)])).
    cbv zeta in IH.
    destruct (resolve_loop _ _ rest _ _ _ _) as [[[value|e] s'] tr'];
      cbn [fst snd] in *.
    + destruct IH as (pre & src & post & -> & Hf & Ha & Hc).
      exists (source :: pre), src, post. split_and!; try done.
      * cbn. rewrite (attempt_eq _ _ _ _ Eg), Er. split; [by exists exc|done].
      * cbn. by rewrite (attempt_eq _ _ _ _ Eg).
      * rewrite Hc, !contacted_app. cbn. by rewrite <- !app_assoc.
    + destruct IH as (Hf & (errs & -> & He) & Hc & Hs).
      split_and!; try done.
      * by exists exc.
      * exists ((source, exc) :: errs). rewrite <- app_assoc. cbn.
        by rewrite He.
      * rewrite Hc, !contacted_app. cbn. by rewrite <- !app_assoc.
Qed.
End ResolverFacts.


(** [tests/test_ip_resolver.py]: the first source raises, the second
    answers with no address, the third with an address and a newline. *)
Example test_ip_resolver_fallbacks_across_sources :
  resolve_public_ipv4 test_session_get ipv4_address ["s1"; "s2"; "s3"] 5 0
  = (Ok "203.0.113.10", 3,
     [CallGet "s1" 5;
      Log WARNING (LogResolveFailed "s1" (RequestException "network issue"));
      CallGet "s2" 5;
      Log WARNING (LogResolveFailed "s2" (AddressValueError "not-an-ip"));
      CallGet "s3" 5]).
Proof. vm_compute. reflexivity. Qed.

(** * What the engine sends, and where *)

Section Sends.
Context {W : Type} (dtz : gmap string (string * string))
        (P : event → Prop).

Lemma sends_ret {A} (Q : A → Prop) (a : A) :
  Q a → sends dtz P Q (ret a : M W A).
Proof.
  intros Ha σ Hσ. exists []. rewrite app_nil_r. split_and!; try done.
  by intros ? [= <-].
Qed.

Lemma sends_lift {A} (o : outcome A) :
  sends dtz P (fun a => o = Ok a) (lift o : M W A).
Proof. intros σ Hσ. exists []. rewrite app_nil_r. by split_and!. Qed.

Lemma sends_update_counts f :
  sends dtz P (fun _ => True) (update_counts f : M W unit).
Proof. intros σ Hσ. exists []. rewrite app_nil_r. by split_and!. Qed.

Lemma sends_get_counts :
  sends dtz P (fun _ => True) (get_counts : M W SyncSummary).
Proof. intros σ Hσ. exists []. rewrite app_nil_r. by split_and!. Qed.

Lemma sends_get_domain_to_zone :
  sends dtz P (fun a => a = dtz) (get_domain_to_zone : M W _).
Proof.
  intros σ Hσ. exists []. rewrite app_nil_r. split_and!; try done.
  cbn. by intros ? [= <-].
Qed.

Lemma sends_emit e : P e → sends dtz P (fun _ => True) (emit e : M W unit).
Proof. intros He σ Hσ. exists [e]. split_and!; try done. by constructor. Qed.

Lemma sends_call {A} e (op : W → outcome A * W) :
  P e → sends dtz P (fun _ => True) (call e op).
Proof.
  intros He σ Hσ. exists [e]. unfold call. destruct (op (provider σ)).
  split_and!; try done. by constructor.
Qed.

Lemma sends_bind {A B} (Q : A → Prop) (Q' : B → Prop) (m : M W A)
    (k : A → M W B) :
  sends dtz P Q m → (∀ a, Q a → sends dtz P Q' (k a)) →
  sends dtz P Q' (bind m k).
Proof.
  intros Hm Hk σ Hσ. unfold bind.
  destruct (Hm σ Hσ) as (s1 & Ht1 & Hq1 & Hd1 & Ha).
  destruct (m σ) as [[a|e] σ1]; cbn in *.
  - destruct (Hk a (Ha a eq_refl) σ1 Hd1) as (s2 & Ht2 & Hq2 & Hd2 & Hb).
    exists (s1 ++ s2). rewrite Ht2, Ht1, app_assoc.
    split_and!; try done. by apply Forall_app.
  - exists s1. by split_and!.
Qed.

Lemma sends_for_each {A} (l : list A) (body : A → M W unit) :
  (∀ x, x ∈ l → sends dtz P (fun _ => True) (body x)) →
  sends dtz P (fun _ => True) (for_each l body).
Proof.
  induction l as [|x l IH]; intros Hb; cbn [for_each].
  - by apply sends_ret.
  - eapply sends_bind; [apply Hb; left|intros _ _].
    apply IH. intros y Hy. apply Hb. by right.
Qed.

Lemma sends_any {A} (Q : A → Prop) (m : M W A) :
  sends dtz P Q m → sends dtz P (fun _ => True) m.
Proof.
  intros Hm σ Hσ. destruct (Hm σ Hσ) as (sent & ? & ? & ? & ?).
  exists sent. by split_and!.
Qed.
End Sends.

Ltac sends_leaf :=
  first
    [ by apply (sends_ret _ _ (fun _ => True))
    | by apply sends_ret
    | apply sends_update_counts
    | apply sends_get_counts
    | apply sends_emit; done
    | apply sends_call; done ].

Ltac sends_step := eapply sends_bind; [try sends_leaf|intros ? ?].

Section EngineWrites.
Context {W : Type}.
Variables (public_ip : string) (default_proxied dry_run : bool)
          (cloudflare : CloudflareClient W).

Lemma sync_domain_sends dtz domain :
  sends dtz
    (engine_event public_ip default_proxied
       (fun zone_id name => name = domain
                            ∧ fst <$> dtz !! domain = Some zone_id) false)
    (fun _ => True)
    (sync_domain public_ip default_proxied dry_run cloudflare domain).
Proof.
  unfold sync_domain, log.
  eapply sends_bind; [apply sends_get_domain_to_zone|intros ? ->].
  eapply sends_bind; [apply sends_lift|intros z Hz].
  assert (Hp : fst <$> dtz !! domain = Some z.1)
    by (destruct (dtz !! domain); by simplify_eq).
  sends_step.
  destruct (filter _ _) as [|r rs].
  { sends_step. sends_step. destruct dry_run; [sends_leaf|].
    sends_step. sends_leaf. }
  sends_step; [destruct (1 <? _); sends_leaf|].
  eapply sends_bind; [apply sends_lift|intros target _].
  eapply sends_bind; [apply sends_lift|intros existing _].
  destruct (_ && _).
  { sends_step. sends_leaf. }
  sends_step. sends_step. destruct dry_run; [sends_leaf|].
  eapply sends_bind; [apply sends_lift|intros rid _].
  sends_step; [|sends_leaf].
  apply sends_call. split_and!; try done. apply compose_has_marker.
Qed.

Lemma cleanup_zone_sends dtz P desired zone :
  (∀ z, P (CallListARecords z None)) → (∀ lvl r, P (Log lvl r)) →
  (∀ z r, P (CallDeleteRecord z r)) →
  sends dtz P (fun _ => True)
    (cleanup_zone dry_run cloudflare desired zone).
Proof.
  intros HL HP HD. unfold cleanup_zone.
  destruct (PyStr.is_empty _); [sends_leaf|].
  eapply sends_bind; [apply sends_call, HL|intros recs _].
  apply sends_for_each. intros record _.
  unfold cleanup_record, log.
  destruct (negb _); [sends_leaf|].
  destruct (bool_decide _); [sends_leaf|].
  sends_step.
  eapply sends_bind; [apply sends_emit, HP|intros _ _].
  destruct dry_run; [sends_leaf|].
  eapply sends_bind; [apply sends_lift|intros rid _].
  apply sends_call, HD.
Qed.

(** What the first loop leaves in [domain_to_zone]: what was there, and
    for the domains of the list that have a zone, the matcher's answer. *)
Lemma match_domains_sends zones l (σ : frame W) :
  ∃ σ' sent,
    for_each l (match_domain zones) σ = (Ok tt, σ')
    ∧ trace σ' = trace σ ++ sent
    ∧ Forall (fun e => is_mutation e = false
                       ∧ ∀ z n, e ≠ CallListARecords z n) sent
    ∧ ∀ d z, domain_to_zone σ' !! d = Some z →
        domain_to_zone σ !! d = Some z
        ∨ d ∈ l ∧ ∃ m, find_best_zone_match d zones = Some m
                       ∧ z = (zone_id m, zone_name m).
Proof.
  revert σ. induction l as [|d l IH]; intros σ; cbn [for_each].
  { exists σ, []. rewrite app_nil_r. split_and!; try done. by left. }
  unfold bind. rewrite match_domain_unfold.
  destruct (find_best_zone_match d zones) as [m|] eqn:Em.
  - match goal with |- context [for_each l _ ?s] =>
      destruct (IH s) as (σ' & sent & -> & Ht & Hs & Hd) end.
    exists σ', sent. split_and!; try done.
    intros d' z [Hz|(? & ?)]%Hd; [|right; split; [by right|done]].
    cbn in Hz. destruct (decide (d = d')) as [<-|Hne].
    + rewrite lookup_insert_eq in Hz. right. split; [by left|].
      exists m. by simplify_eq.
    + rewrite lookup_insert_ne in Hz by done. by left.
  - match goal with |- context [for_each l _ ?s] =>
      destruct (IH s) as (σ' & sent & -> & Ht & Hs & Hd) end.
    eexists σ', (_ :: sent). cbn in Ht. rewrite <- app_assoc in Ht.
    split_and!; try done.
    + constructor; [|done]. split; [done|]. by intros.
    + intros d' z [Hz|(? & ?)]%Hd; [by left|right; split; [by right|done]].
Qed.

Lemma sync_domains_body_sends domains cleanup_stale (w : W) :
  ∃ sent,
    trace (sync_domains_body domains public_ip default_proxied dry_run
             cleanup_stale cloudflare (initial_frame w)).2 = sent
    ∧ Forall (engine_event public_ip default_proxied
                (placed_by cloudflare w domains) cleanup_stale) sent.
Proof.
  set (P := engine_event public_ip default_proxied
              (placed_by cloudflare w domains) cleanup_stale).
  unfold sync_domains_body.
  unfold bind at 1. unfold call at 1. cbn.
  destruct (list_zones cloudflare w) as [[zones|e] w1] eqn:Ez; cbn;
    [|eexists; split; [done|by repeat constructor]].
  unfold bind at 1.
  match goal with |- context [for_each _ (match_domain zones) ?s] =>
    destruct (match_domains_sends zones (sorted id (elements domains)) s)
      as (σ2 & s2 & -> & Ht2 & Hs2 & Hd2) end.
  cbn in Ht2, Hd2.
  unfold bind at 1. unfold get_domain_to_zone at 1. cbn.
  match goal with |- context [bind ?m ?k σ2] =>
    assert (Hrest : sends (domain_to_zone σ2) P (fun _ => True)
                      (bind m k)) end.
  { eapply sends_bind.
    - apply sends_for_each. intros d Hd.
      intros σ Hσ.
      destruct (sync_domain_sends (domain_to_zone σ2) d σ Hσ)
        as (sent & Ht & Hs & Hk & _).
      exists sent. split_and!; try done.
      eapply Forall_impl; [exact Hs|].
      assert (Hplaced : ∀ zid name,
                name = d ∧ fst <$> domain_to_zone σ2 !! d = Some zid →
                placed_by cloudflare w domains zid name).
      { intros zid name [-> Hz].
        destruct (domain_to_zone σ2 !! d) as [z|] eqn:Ed; [|done].
        apply Hd2 in Ed as [Ed|(Hin & m & Hm & ->)]; [done|].
        rewrite (SortedFacts.sorted_Permutation id) in Hin.
        apply elem_of_elements in Hin. split; [done|].
        exists zones, w1, m. cbn in Hz. by simplify_eq. }
      intros [|zid [name|]| | | | |] He; cbn in *; try done.
      + by apply Hplaced.
      + destruct He as (? & ? & ? & ?). split_and!; try done.
        by apply Hplaced.
      + destruct He as (? & ? & ?). split_and!; try done.
        by apply Hplaced.
    - intros _ _. sends_step; [|sends_leaf].
      destruct cleanup_stale eqn:Ec; [|sends_leaf].
      apply sends_for_each. intros zone _.
      by apply cleanup_zone_sends. }
  destruct (Hrest σ2 eq_refl) as (s3 & Ht3 & Hs3 & _).
  rewrite Ht3, Ht2. eexists. split; [done|].
  apply Forall_app. split; [|done].
  constructor; [done|].
  eapply Forall_impl; [exact Hs2|].
  intros [|zid [name|]| | | | |] [He Hl]; try done.
  by destruct (Hl zid (Some name)).
Qed.
End EngineWrites.

(** X1. Every lookup by name, every create and every update a run sends is for
    a hostname of the requested set and goes to the zone id the matcher picks
    for that hostname among the zones listed at the start. Every create and
    update carries the public address and a comment that holds the marker; a
    create carries the marker alone and the default proxying. This holds
    whether the run returns or raises. *)
Theorem writes_are_managed {W} (cloudflare : CloudflareClient W)
    (domains : gset string) (public_ip : string)
    (default_proxied dry_run cleanup_stale : bool) (w : W) :
  Forall (engine_event public_ip default_proxied
            (placed_by cloudflare w domains) true)
    (sync_domains domains public_ip default_proxied dry_run cleanup_stale
       cloudflare w).2.
Proof.
  unfold sync_domains.
  destruct (sync_domains_body_sends public_ip default_proxied dry_run
              cloudflare domains cleanup_stale w) as (sent & Ht & Hs).
  destruct (sync_domains_body _ _ _ _ _ _ _) as [o σ]. cbn in *.
  rewrite Ht. eapply Forall_impl; [exact Hs|].
  intros [] He; cbn in *; done.
Qed.

(** X2. Without [cleanup_stale] a run sends no delete call, whether it returns
    or raises. *)
Theorem no_delete_without_cleanup {W} (cloudflare : CloudflareClient W)
    (domains : gset string) (public_ip : string)
    (default_proxied dry_run : bool) (w : W) zone_id record_id :
  CallDeleteRecord zone_id record_id
  ∉ (sync_domains domains public_ip default_proxied dry_run false
       cloudflare w).2.
Proof.
  unfold sync_domains.
  destruct (sync_domains_body_sends public_ip default_proxied dry_run
              cloudflare domains false w) as (sent & Ht & Hs).
  destruct (sync_domains_body _ _ _ _ _ _ _) as [o σ]. cbn in *.
  rewrite Ht. intros Hin. rewrite Forall_forall in Hs.
  by specialize (Hs _ Hin).
Qed.

(** * The HTTP client: retries *)

Section RequestFacts.
Context {H R : Type}.
Variables
  (session_request :
     string → string → option dict → option dict → dict → Z → H →
     outcome (Client.response R) * H)
  (str_exc : exn → string).
Variable self : Client.client.

Lemma range_nil lo hi : (hi ≤ lo)%Z → Client.range lo hi = [].
Proof.
  intros Hle. unfold Client.range.
  by replace (Z.to_nat (hi - lo)) with 0 by lia.
Qed.

Lemma range_cons lo hi :
  (lo < hi)%Z → Client.range lo hi = lo :: Client.range (lo + 1) hi.
Proof.
  intros Hlt. unfold Client.range.
  replace (Z.to_nat (hi - lo)) with (S (Z.to_nat (hi - (lo + 1)))) by lia.
  cbn [seq map]. f_equal; [lia|].
  rewrite <- seq_shift, map_map. apply map_ext. intros i. lia.
Qed.

Lemma attempt_once_ok method path (got : outcome (Client.response R))
    data :
  Client.attempt_once method path got = Ok data →
  py_bool (default (JBool false) (Client.success data)) = true.
Proof.
  unfold Client.attempt_once. destruct got as [response|e]; [|done].
  destruct (_ || _); [done|].
  destruct (Client.raise_for_status response); [|done].
  destruct (Client.json response) as [d|]; [|done].
  destruct (py_bool _) eqn:E; cbn; [|done]. by intros [= <-].
Qed.

Lemma request_loop_spec method path params payload retries :
  let request :=
    Client.Request method (Client._base_url +:+ path) params payload
      (Client._headers self) (Client._timeout_seconds self) in
  ∀ (k : nat) (attempt : Z) last n,
    (1 ≤ attempt ≤ retries)%Z → Z.to_nat (retries - attempt) = k →
    let r := Client.request_loop session_request str_exc self method path
               params payload retries
               (Client.range attempt (retries + 1)) last n in
    ∃ excs,
      Forall (fun e => Client.caught e = true) excs
      ∧ (attempt + Z.of_nat (length excs) ≤ retries)%Z
      ∧ Client.journal r.2
        = Client.journal n
          ++ failed_attempts request retries method path attempt excs
          ++ [request]
      ∧ match r.1 with
        | Ok data =>
            py_bool (default (JBool false) (Client.success data)) = true
        | Raise e =>
            Client.caught e = true →
            (attempt + Z.of_nat (length excs) = retries)%Z
            ∧ ∃ exc, Client.caught exc = true
                ∧ e = Client.request_failed str_exc method path (Some exc)
        end.
Proof.
  intros request k. induction k as [|k IH]; intros attempt last n Ha Hk r.
  - subst r. rewrite range_cons, range_nil by lia.
    cbn [Client.request_loop].
    destruct (session_request _ _ _ _ _ _ _) as [got h].
    destruct (Client.attempt_once method path got) as [data|exc] eqn:E.
    + exists []. cbn. split_and!; try done; [lia|].
      by eapply attempt_once_ok.
    + destruct (Client.caught exc) eqn:Ec.
      * replace (attempt >=? retries)%Z with true by lia.
        exists []. cbn. split_and!; try done; [lia|].
        intros _. split; [lia|]. by exists exc.
      * exists []. cbn. split_and!; try done; [lia|]. congruence.
  - subst r. rewrite range_cons by lia. cbn [Client.request_loop].
    destruct (session_request _ _ _ _ _ _ _) as [got h].
    destruct (Client.attempt_once method path got) as [data|exc] eqn:E.
    + exists []. cbn. split_and!; try done; [lia|].
      by eapply attempt_once_ok.
    + destruct (Client.caught exc) eqn:Ec.
      * replace (attempt >=? retries)%Z with false by lia.
        match goal with |- context [Client.request_loop _ _ _ _ _ _ _ _ _ ?l ?m] =>
          destruct (IH (attempt + 1)%Z l m) as (excs & Hc & Hlen & Hj & Ho)
        end; [lia|lia|].
        exists (exc :: excs). cbn [length failed_attempts].
        split_and!; [by constructor|lia| |].
        -- rewrite Hj. cbn [Client.journal]. by rewrite <- !app_assoc.
        -- destruct (Client.request_loop _ _ _ _ _ _ _ _ _ _ _).1; [done|].
           intros [? ?]%Ho. split; [lia|done].
      * exists []. cbn. split_and!; try done; [lia|]. congruence.
Qed.
End RequestFacts.

(** X3. With [retries] at least 1, [_request] sends the same request between
    once and [retries] times. Between two attempts it logs a warning and
    sleeps as many seconds as the number of the attempt that failed; it
    neither warns nor sleeps after the last one. An attempt is repeated only
    after a [RequestException] or a [CloudflareAPIError]; when [_request]
    raises a [CloudflareAPIError] it has used all its attempts. *)
Theorem request_retries {H R : Type}
    (session_request :
       string → string → option dict → option dict → dict → Z → H →
       outcome (Client.response R) * H)
    (str_exc : exn → string) (self : Client.client)
    (method path : string) (params payload : option dict) (retries : Z)
    (n : Client.net H) :
  (1 ≤ retries)%Z →
  let r := Client._request session_request str_exc self method path params
             payload retries n in
  let request :=
    Client.Request method (Client._base_url +:+ path) params payload
      (Client._headers self) (Client._timeout_seconds self) in
  ∃ excs,
    Forall (fun e => Client.caught e = true) excs
    ∧ (Z.of_nat (length excs) < retries)%Z
    ∧ Client.journal r.2
      = Client.journal n
        ++ failed_attempts request retries method path 1 excs ++ [request]
    ∧ ∀ msg, r.1 = Raise (CloudflareAPIError msg) →
        (Z.of_nat (length excs) + 1 = retries)%Z.
Proof.
  intros Hr r request.
  destruct (request_loop_spec session_request str_exc self method path
              params payload retries (Z.to_nat (retries - 1)) 1 None n)
    as (excs & Hc & Hlen & Hj & Ho); [lia|done|].
  exists excs. split_and!; [done|lia|done|].
  intros msg Hm. subst r. unfold Client._request in Hm.
  rewrite Hm in Ho. destruct Ho as [? _]; [done|lia].
Qed.

Lemma request_retries_witness :
  (1 ≤ 3)%Z
  ∧ ∃ excs,
      Forall (fun e => Client.caught e = true) excs
      ∧ (Z.of_nat (length excs) < 3)%Z
      ∧ Client.journal
          (Client._request (R:=unit) flaky_session (fun _ => "")
             (Client.mkClientConfig "t" 10) "GET" "/zones" None None 3
             (Client.mkNet 1 [])).2
        = failed_attempts
            (Client.Request "GET" (Client._base_url +:+ "/zones") None None
               (Client._headers (Client.mkClientConfig "t" 10)) 10)
            3 "GET" "/zones" 1 excs
          ++ [Client.Request "GET" (Client._base_url +:+ "/zones") None None
                (Client._headers (Client.mkClientConfig "t" 10)) 10]
      ∧ ∀ msg,
          (Client._request (R:=unit) flaky_session (fun _ => "")
             (Client.mkClientConfig "t" 10) "GET" "/zones" None None 3
             (Client.mkNet 1 [])).1 = Raise (CloudflareAPIError msg) →
          (Z.of_nat (length excs) + 1 = 3)%Z.
Proof.
  split; [lia|].
  apply (request_retries (R:=unit) flaky_session (fun _ => "")
           (Client.mkClientConfig "t" 10) "GET" "/zones" None None 3
           (Client.mkNet 1 [])).
  lia.
Defined.

Section LastFailure.
Context {H R : Type}.
Variables
  (session_request :
     string → string → option dict → option dict → dict → Z → H →
     outcome (Client.response R) * H)
  (str_exc : exn → string).
Variable self : Client.client.

Lemma request_loop_last method path params payload retries :
  ∀ (k : nat) (attempt : Z) last n,
    (1 ≤ attempt ≤ retries)%Z → Z.to_nat (retries - attempt) = k →
    let r := Client.request_loop session_request str_exc self method path
               params payload retries
               (Client.range attempt (retries + 1)) last n in
    ∀ e, r.1 = Raise e → Client.caught e = true →
      ∃ exc,
        last_failure session_request self method path params payload r.2
          exc
        ∧ e = Client.request_failed str_exc method path (Some exc).
Proof.
  intros k. induction k as [|k IH]; intros attempt last n Ha Hk r; subst r.
  - rewrite range_cons, range_nil by lia. cbn [Client.request_loop].
    destruct (session_request _ _ _ _ _ _ _) as [got h] eqn:Es.
    destruct (Client.attempt_once method path got) as [data|exc] eqn:E;
      [done|].
    destruct (Client.caught exc) eqn:Ec.
    + replace (attempt >=? retries)%Z with true by lia. cbn.
      intros e [= <-] _. exists exc. split; [|done].
      by exists (Client.session n), got.
    + cbn. intros e [= <-]. congruence.
  - rewrite range_cons by lia. cbn [Client.request_loop].
    destruct (session_request _ _ _ _ _ _ _) as [got h] eqn:Es.
    destruct (Client.attempt_once method path got) as [data|exc] eqn:E;
      [done|].
    destruct (Client.caught exc) eqn:Ec.
    + replace (attempt >=? retries)%Z with false by lia.
      apply IH; lia.
    + cbn. intros e [= <-]. congruence.
Qed.
End LastFailure.

(** X4. What [_request] returns reports success, and no [RequestException] or
    [HTTPError] leaves it: with [retries] at least 1, a failure it caught
    is raised as the [CloudflareAPIError] built from the failure of the last
    request it has sent. With [retries] below 1 it sends nothing and raises
    that error from no failure at all. *)
Theorem request_wraps_errors {H R : Type}
    (session_request :
       string → string → option dict → option dict → dict → Z → H →
       outcome (Client.response R) * H)
    (str_exc : exn → string) (self : Client.client)
    (method path : string) (params payload : option dict) (retries : Z)
    (n : Client.net H) :
  let r := Client._request session_request str_exc self method path params
             payload retries n in
  match r.1 with
  | Ok data => py_bool (default (JBool false) (Client.success data)) = true
  | Raise e =>
      Client.caught e = true →
      if bool_decide (1 ≤ retries)%Z
      then ∃ exc,
             last_failure session_request self method path params payload
               r.2 exc
             ∧ e = Client.request_failed str_exc method path (Some exc)
      else e = Client.request_failed str_exc method path None
  end
  ∧ ((retries < 1)%Z →
       r = (Raise (Client.request_failed str_exc method path None), n)).
Proof.
  intros r. subst r. unfold Client._request. split.
  - destruct (bool_decide_reflect (1 ≤ retries)%Z) as [Hr|Hr].
    + pose proof (request_loop_spec session_request str_exc self method path
                    params payload retries (Z.to_nat (retries - 1)) 1 None n)
        as Hs.
      pose proof (request_loop_last session_request str_exc self method path
                    params payload retries (Z.to_nat (retries - 1)) 1 None n)
        as Hl.
      cbv zeta in Hs, Hl.
      destruct Hs as (excs & _ & _ & _ & Ho); [lia|done|].
      destruct (Client.request_loop _ _ _ _ _ _ _ _ _ _ _) as [[data|e] n'];
        [done|].
      intros Hc. apply Hl; try done; lia.
    + rewrite range_nil by lia. by cbn.
  - intros Hr. by rewrite range_nil by lia.
Qed.

(** * The HTTP client: listings *)

Section ListingFacts.
Context {H : Type}.
Variables
  (session_request :
     string → string → option dict → option dict → dict → Z → H →
     outcome (Client.response (list dict)) * H)
  (str_exc : exn → string).
Variable self : Client.client.

Lemma attempt_once_data {R} method path
    (got : outcome (Client.response R)) data :
  Client.attempt_once method path got = Ok data →
  ∃ response, got = Ok response ∧ Client.json response = Ok data.
Proof.
  unfold Client.attempt_once. destruct got as [response|e]; [|done].
  destruct (_ || _); [done|].
  destruct (Client.raise_for_status response); [|done].
  destruct (Client.json response) as [d|] eqn:Ej; [|done].
  destruct (negb _); [done|]. intros [= <-]. by exists response.
Qed.

(** What [_request] returns is the body of an answer of the session. *)
Lemma request_loop_data method path params payload retries attempts last
    n data n' :
  Client.request_loop session_request str_exc self method path params
    payload retries attempts last n = (Ok data, n') →
  ∃ h response h',
    session_request method (Client._base_url +:+ path) params payload
      (Client._headers self) (Client._timeout_seconds self) h
    = (Ok response, h')
    ∧ Client.json response = Ok data.
Proof.
  revert last n. induction attempts as [|attempt rest IH]; intros last n;
    cbn [Client.request_loop]; [done|].
  destruct (session_request _ _ _ _ _ _ _) as [got h] eqn:Es.
  destruct (Client.attempt_once method path got) as [d|exc] eqn:E.
  - intros [= -> <-]. apply attempt_once_data in E as (resp & -> & Hj).
    by exists (Client.session n), resp, h.
  - destruct (Client.caught exc); [|done].
    destruct (attempt >=? retries)%Z; [done|]. apply IH.
Qed.

Lemma list_pages_collects path params answers :
  ∀ page acc n fuel,
    (∀ i data, answers !! i = Some data →
       ∀ n, (Client._request session_request str_exc self "GET" path
               (Some (params (page + Z.of_nat i)%Z)) None 3 n).1
            = Ok data) →
    (∀ i data, answers !! i = Some data →
       (page + Z.of_nat i >= page_total data)%Z ↔ S i = length answers) →
    answers ≠ [] → length answers ≤ fuel →
    ∃ n',
      Client.list_pages session_request str_exc self fuel path params page
        acc n
      = Some (Ok (acc ++ concat (page_result <$> answers)), n').
Proof.
  induction answers as [|data answers IH];
    intros page acc n fuel Hf Hlast Hne Hfuel; [done|].
  destruct fuel as [|fuel]; [cbn in Hfuel; lia|].
  cbn [Client.list_pages].
  pose proof (Hf 0 data eq_refl n) as H0.
  replace (page + Z.of_nat 0)%Z with page in H0 by lia.
  destruct (Client._request _ _ _ _ _ _ _ _ n) as [o n1]. cbn in H0.
  subst o. fold (page_result data). fold (page_total data).
  pose proof (Hlast 0 data eq_refl) as Hl0.
  replace (page + Z.of_nat 0)%Z with page in Hl0 by lia.
  destruct answers as [|data' answers].
  - rewrite Z.geb_leb.
    destruct (Z.leb_spec (page_total data) page) as [_|Hlt];
      [|destruct Hl0 as [_ Hl0]; specialize (Hl0 eq_refl); lia].
    exists n1. cbn. by rewrite app_nil_r.
  - rewrite Z.geb_leb.
    destruct (Z.leb_spec (page_total data) page) as [Hge|_];
      [destruct Hl0 as [Hl0 _]; by specialize (Hl0 ltac:(lia))|].
    destruct (IH (page + 1)%Z (acc ++ page_result data) n1 fuel)
      as (n' & ->).
    + intros i d Hi n0. specialize (Hf (S i) d Hi n0).
      by replace (page + 1 + Z.of_nat i)%Z
        with (page + Z.of_nat (S i))%Z by lia.
    + intros i d Hi. specialize (Hlast (S i) d Hi).
      replace (page + 1 + Z.of_nat i)%Z
        with (page + Z.of_nat (S i))%Z by lia.
      rewrite Hlast. cbn. lia.
    + done.
    + cbn in *. lia.
    + exists n'. cbn. by rewrite <- app_assoc.
Qed.

Lemma list_pages_bounded path params (N : Z) :
  (∀ method url ps payload headers timeout h response h' data,
     session_request method url ps payload headers timeout h
     = (Ok response, h') →
     Client.json response = Ok data → (page_total data ≤ N)%Z) →
  ∀ fuel page acc n,
    (1 ≤ page)%Z → (Z.to_nat (N - page) < fuel) →
    is_Some (Client.list_pages session_request str_exc self fuel path
               params page acc n).
Proof.
  intros Hb fuel. induction fuel as [|fuel IH]; intros page acc n Hp Hfuel;
    [lia|].
  cbn [Client.list_pages].
  destruct (Client._request _ _ _ _ _ _ _ _ n) as [[data|e] n1] eqn:E;
    [|done].
  apply request_loop_data in E as (h & resp & h' & Hs & Hj).
  pose proof (Hb _ _ _ _ _ _ _ _ _ _ Hs Hj) as Ht.
  fold (page_total data).
  rewrite Z.geb_leb.
  destruct (Z.leb_spec (page_total data) page); [done|]. apply IH; lia.
Qed.
End ListingFacts.

(** X5. When the pages 1 to [k] are answered, and the [k]-th is the first that
    reports no more pages than its own number, a listing returns what the
    answers hold under [result], concatenated in the order of the pages.
    [list_zones] and [list_a_records] are this loop. *)
Theorem listing_collects_pages {H : Type}
    (session_request :
       string → string → option dict → option dict → dict → Z → H →
       outcome (Client.response (list dict)) * H)
    (str_exc : exn → string) (self : Client.client)
    (path : string) (params : Z → dict)
    (answers : list (Client.body (list dict))) (fuel : nat)
    (n : Client.net H) :
  (∀ i data, answers !! i = Some data →
     ∀ n, (Client._request session_request str_exc self "GET" path
             (Some (params (1 + Z.of_nat i)%Z)) None 3 n).1 = Ok data) →
  (∀ i data, answers !! i = Some data →
     (1 + Z.of_nat i >= page_total data)%Z ↔ S i = length answers) →
  answers ≠ [] → length answers ≤ fuel →
  ∃ n',
    Client.list_pages session_request str_exc self fuel path params 1 [] n
    = Some (Ok (concat (page_result <$> answers)), n').
Proof.
  intros Hf Hl Hne Hfuel.
  destruct (list_pages_collects session_request str_exc self path params
              answers 1%Z [] n fuel Hf Hl Hne Hfuel) as (n' & ->).
  by exists n'.
Qed.

Lemma listing_collects_pages_witness :
  ∃ n',
    Client.list_zones (paged_session [page_one; page_two]) (fun _ => "")
      (Client.mkClientConfig "t" 10) 2 (Client.mkNet tt [])
    = Some (Ok (page_one ++ page_two), n').
Proof.
  apply (listing_collects_pages (paged_session [page_one; page_two])
           (fun _ => "") (Client.mkClientConfig "t" 10) "/zones"
           (fun page => {[ "page" := JNum page; "per_page" := JNum 50 ]})
           [Client.mkBody (Some (JBool true)) None (Some page_one)
              (Some 2%Z);
            Client.mkBody (Some (JBool true)) None (Some page_two)
              (Some 2%Z)]
           2 (Client.mkNet tt [])).
  - intros [|[|i]] data [= <-] n; reflexivity.
  - intros [|[|i]] data [= <-]; cbn; lia.
  - done.
  - cbn. lia.
Defined.

Section ListingEnds.
Context {H : Type}.
Variables
  (session_request :
     string → string → option dict → option dict → dict → Z → H →
     outcome (Client.response (list dict)) * H)
  (str_exc : exn → string).
Variable self : Client.client.

Lemma list_pages_fuel_mono path params fuel :
  ∀ fuel' page acc n r,
    Client.list_pages session_request str_exc self fuel path params page
      acc n = Some r →
    fuel ≤ fuel' →
    Client.list_pages session_request str_exc self fuel' path params page
      acc n = Some r.
Proof.
  induction fuel as [|fuel IH]; intros fuel' page acc n r; [done|].
  destruct fuel' as [|fuel']; [lia|]. cbn [Client.list_pages].
  destruct (Client._request _ _ _ _ _ _ _ _ n) as [[data|e] n1]; [|done].
  destruct (page >=? _)%Z; [done|]. intros Hr Hle. apply IH; [done|lia].
Qed.
End ListingEnds.

(** X6. When no answer of the session reports more than [N] pages, a listing
    ends after at most [N] pages (one page when [N] is below 1): it returns or
    raises, and its result is the same for every bound on the number of pages
    from there on. *)
Theorem listing_ends {H : Type}
    (session_request :
       string → string → option dict → option dict → dict → Z → H →
       outcome (Client.response (list dict)) * H)
    (str_exc : exn → string) (self : Client.client)
    (path : string) (params : Z → dict) (N : Z) (n : Client.net H) :
  (∀ method url ps payload headers timeout h response h' data,
     session_request method url ps payload headers timeout h
     = (Ok response, h') →
     Client.json response = Ok data → (page_total data ≤ N)%Z) →
  ∃ r, ∀ fuel, Z.to_nat (Z.max 1 N) ≤ fuel →
    Client.list_pages session_request str_exc self fuel path params 1 [] n
    = Some r.
Proof.
  intros Hb.
  destruct (list_pages_bounded session_request str_exc self path params N Hb
              (Z.to_nat (Z.max 1 N)) 1%Z [] n) as [r Hr]; [lia|lia|].
  exists r. intros fuel Hfuel. by eapply list_pages_fuel_mono.
Qed.

Lemma listing_ends_witness :
  ∃ r, ∀ fuel, Z.to_nat (Z.max 1 2) ≤ fuel →
    Client.list_pages (paged_session [page_one; page_two]) (fun _ => "")
      (Client.mkClientConfig "t" 10) fuel "/zones"
      (fun page => {[ "page" := JNum page; "per_page" := JNum 50 ]}) 1 []
      (Client.mkNet tt [])
    = Some r.
Proof.
  apply (listing_ends (paged_session [page_one; page_two])).
  intros method url ps payload headers timeout h response h' data Hs Hj.
  unfold paged_session in Hs. injection Hs as <- _. cbn in Hj.
  injection Hj as <-. cbn. lia.
Defined.

(** * The configuration *)

Section ConfigFacts.
Context {path : Type}.
Variables (Path : string → path) (str_path : path → string)
          (exists_ is_file is_dir : path → bool)
          (int : string → Config.checked Z).

Lemma raise_if_valid {B} cond msg (k : unit → Config.checked B) r :
  Config.and_then (Config.raise_if cond msg) k = Config.Valid r →
  cond = false ∧ k tt = Config.Valid r.
Proof. by destruct cond. Qed.

Lemma and_then_valid {A B} (m : Config.checked A)
    (k : A → Config.checked B) r :
  Config.and_then m k = Config.Valid r →
  ∃ a, m = Config.Valid a ∧ k a = Config.Valid r.
Proof. destruct m as [a|]; [|done]. intros Hk. by exists a. Qed.

Lemma truthy_Some v :
  Config.truthy v = true → ∃ s, v = Some s ∧ s ≠ "".
Proof.
  destruct v as [s|]; [|done]. cbn. intros Hs. exists s. split; [done|].
  apply PyStrFacts.is_empty_false. by destruct (PyStr.is_empty s).
Qed.

Lemma ip_sources_kept raw :
  Forall kept_entry
    (PyStr.strip <$>
       filter (fun entry => PyStr.is_empty (PyStr.strip entry) = false)
         (Config.split ","%char raw)).
Proof.
  apply Forall_fmap, Forall_forall. intros entry [He _]%list_elem_of_filter.
  split; [by apply PyStrFacts.is_empty_false|apply PyStrFacts.strip_idem].
Qed.
End ConfigFacts.

(** X7. Every configuration [load_config] returns has a source that exists and
    is a file or a directory, the token of the environment, which is not
    empty, an interval and a request timeout above zero, address sources that
    are trimmed and not empty, and the three flags of the command line. *)
Theorem load_config_valid {path : Type}
    (Path : string → path) (str_path : path → string)
    (exists_ is_file is_dir : path → bool) (int : string → Config.checked Z)
    (args : Config.Namespace) (environ : gmap string string)
    (config : Config.AppConfig) :
  Config.load_config Path str_path exists_ is_file is_dir int args environ
  = Config.Valid config →
  exists_ (Config.source config) = true
  ∧ (is_file (Config.source config) = true
     ∨ is_dir (Config.source config) = true)
  ∧ environ !! "CLOUDFLARE_API_TOKEN"
    = Some (Config.cloudflare_api_token config)
  ∧ Config.cloudflare_api_token config ≠ ""
  ∧ (0 < Config.interval_seconds config)%Z
  ∧ (0 < Config.request_timeout_seconds config)%Z
  ∧ Forall kept_entry (Config.ip_sources config)
  ∧ Config.once config = Config.args_once args
  ∧ Config.dry_run config = Config.args_dry_run args
  ∧ Config.cleanup_stale config = Config.args_cleanup_stale args.
Proof.
  unfold Config.load_config.
  intros (_ & H)%raise_if_valid.
  apply raise_if_valid in H as (Hex & H).
  apply raise_if_valid in H as (Hfd & H).
  apply raise_if_valid in H as (Htok & H).
  apply and_then_valid in H as (interval & _ & H).
  apply raise_if_valid in H as (Hi & H).
  apply and_then_valid in H as (timeout & _ & H).
  apply raise_if_valid in H as (Ht & H).
  apply and_then_valid in H as (proxied & _ & H).
  injection H as <-. cbn.
  apply negb_false_iff, truthy_Some in Htok as (token & -> & Hne).
  split_and!; try done.
  - by apply negb_false_iff.
  - destruct (is_file _); [by left|]. destruct (is_dir _); [by right|done].
  - lia.
  - lia.
  - destruct (negb (PyStr.is_empty _)); [apply ip_sources_kept|].
    repeat constructor; done.
Qed.

Lemma load_config_valid_witness :
  ∃ config,
    load_config_example (Config.mkNamespace None None true false false)
      environ_example = Config.Valid config
    ∧ Config.ip_sources config = ["https://a.example/ip"; "https://b.example/ip"]
    ∧ (0 < Config.interval_seconds config)%Z.
Proof.
  eexists. split; [vm_compute; reflexivity|]. split; [reflexivity|].
  refine (proj1 (proj2 (proj2 (proj2 (proj2
            (load_config_valid (fun s => s) (fun p => p) (fun _ => true)
               (fun _ => true) (fun _ => false) int_of_defaults
               (Config.mkNamespace None None true false false)
               environ_example _ _)))))).
  vm_compute. reflexivity.
Defined.

(** X8. What the command line gives wins over the environment: with
    [--interval] given, [SYNC_INTERVAL_SECONDS] is not read, and with a
    [--source] that is not empty, [TRAEFIK_SOURCE] is not read. Two
    environments that differ in these variables only give the same result, be
    it a configuration or an error. *)
Theorem command_line_overrides_environment {path : Type}
    (Path : string → path) (str_path : path → string)
    (exists_ is_file is_dir : path → bool) (int : string → Config.checked Z)
    (args : Config.Namespace) (environ environ' : gmap string string) :
  (∀ name, environ !! name ≠ environ' !! name →
     (name = "SYNC_INTERVAL_SECONDS" ∧ is_Some (Config.args_interval args))
     ∨ (name = "TRAEFIK_SOURCE"
        ∧ Config.truthy (Config.args_source args) = true)) →
  Config.load_config Path str_path exists_ is_file is_dir int args environ
  = Config.load_config Path str_path exists_ is_file is_dir int args environ'.
Proof.
  intros Hd.
  assert (Hsame : ∀ name,
            name ≠ "SYNC_INTERVAL_SECONDS" → name ≠ "TRAEFIK_SOURCE" →
            environ !! name = environ' !! name).
  { intros name H1 H2.
    destruct (decide (environ !! name = environ' !! name)) as [|Hne];
      [done|]. destruct (Hd name Hne) as [[? _]|[? _]]; done. }
  unfold Config.load_config.
  rewrite !(Hsame "CLOUDFLARE_API_TOKEN"), !(Hsame "REQUEST_TIMEOUT_SECONDS"),
    !(Hsame "IP_SOURCES"), !(Hsame "DEFAULT_PROXIED"), !(Hsame "LOG_LEVEL")
    by done.
  assert (Hsrc :
    (if Config.truthy (Config.args_source args)
     then Config.args_source args else environ !! "TRAEFIK_SOURCE")
    = (if Config.truthy (Config.args_source args)
       then Config.args_source args else environ' !! "TRAEFIK_SOURCE")).
  { destruct (Config.truthy _) eqn:Et; [done|].
    destruct (decide (environ !! "TRAEFIK_SOURCE"
                      = environ' !! "TRAEFIK_SOURCE")) as [|Hne]; [done|].
    destruct (Hd _ Hne) as [[? _]|[_ ?]]; done. }
  rewrite Hsrc.
  assert (Hint :
    match Config.args_interval args with
    | Some interval => Config.Valid interval
    | None => int (default "300" (environ !! "SYNC_INTERVAL_SECONDS"))
    end
    = match Config.args_interval args with
      | Some interval => Config.Valid interval
      | None => int (default "300" (environ' !! "SYNC_INTERVAL_SECONDS"))
      end).
  { destruct (Config.args_interval args) eqn:Ei; [done|].
    destruct (decide (environ !! "SYNC_INTERVAL_SECONDS"
                      = environ' !! "SYNC_INTERVAL_SECONDS")) as [->|Hne];
      [done|].
    destruct (Hd _ Hne) as [[_ [? ?]]|[? _]]; done. }
  by rewrite Hint.
Qed.

Lemma command_line_overrides_environment_witness :
  load_config_example
    (Config.mkNamespace (Some "/srv/traefik") (Some 60%Z) false true false)
    environ_example
  = load_config_example
      (Config.mkNamespace (Some "/srv/traefik") (Some 60%Z) false true false)
      (<[ "SYNC_INTERVAL_SECONDS" := "never" ]>
         (delete "TRAEFIK_SOURCE" environ_example)).
Proof.
  apply command_line_overrides_environment.
  intros name Hne.
  destruct (decide (name = "SYNC_INTERVAL_SECONDS")) as [->|H1];
    [left; by split; [|eexists]|].
  destruct (decide (name = "TRAEFIK_SOURCE")) as [->|H2]; [by right|].
  rewrite lookup_insert_ne, lookup_delete_ne in Hne by done. done.
Defined.

(** X9. The configuration has no address source exactly when [IP_SOURCES] is
    not blank but every entry between its commas is: the defaults are then not
    used, and resolving the public address with that configuration raises with
    no source contacted. *)
Theorem ip_sources_empty_iff {path S : Type}
    (Path : string → path) (str_path : path → string)
    (exists_ is_file is_dir : path → bool) (int : string → Config.checked Z)
    (session_get : string → Z → S → outcome Response * S)
    (IPv4Address : string → outcome unit)
    (args : Config.Namespace) (environ : gmap string string)
    (config : Config.AppConfig) (s : S) :
  Config.load_config Path str_path exists_ is_file is_dir int args environ
  = Config.Valid config →
  let raw := default "" (environ !! "IP_SOURCES") in
  (Config.ip_sources config = [] ↔
     PyStr.strip raw ≠ ""
     ∧ Forall (fun entry => PyStr.strip entry = "")
         (Config.split ","%char raw))
  ∧ (Config.ip_sources config = [] →
     resolve_public_ipv4 session_get IPv4Address (Config.ip_sources config)
       (Config.request_timeout_seconds config) s
     = (Raise (RuntimeError []), s, [])).
Proof.
  intros H raw. revert H. unfold Config.load_config.
  intros (_ & H)%raise_if_valid.
  apply raise_if_valid in H as (_ & H).
  apply raise_if_valid in H as (_ & H).
  apply raise_if_valid in H as (_ & H).
  apply and_then_valid in H as (interval & _ & H).
  apply raise_if_valid in H as (_ & H).
  apply and_then_valid in H as (timeout & _ & H).
  apply raise_if_valid in H as (_ & H).
  apply and_then_valid in H as (proxied & _ & H).
  injection H as <-. cbn [Config.ip_sources Config.request_timeout_seconds].
  split; [|by intros ->].
  fold raw. destruct (PyStr.is_empty (PyStr.strip raw)) eqn:Er; cbn [negb].
  - apply PyStrFacts.is_empty_true in Er. split; [done|]. by intros [? _].
  - apply PyStrFacts.is_empty_false in Er. split.
    + intros Hf%fmap_nil_inv. split; [done|].
      apply Forall_forall. intros entry Hin.
      apply PyStrFacts.is_empty_true.
      destruct (PyStr.is_empty (PyStr.strip entry)) eqn:E; [done|].
      by destruct (filter_nil_not_elem_of _ _ entry Hf E).
    + intros [_ Hall].
      induction Hall as [|entry l He Hall IH]; [done|].
      rewrite filter_cons_False; [done|]. by rewrite He.
Qed.

Lemma ip_sources_empty_iff_witness :
  ∃ config,
    load_config_example (Config.mkNamespace None None true false false)
      (<[ "IP_SOURCES" := " , " ]> environ_example) = Config.Valid config
    ∧ resolve_public_ipv4 (fun _ _ s => (Raise (RequestException ""), s))
        ipv4_address (Config.ip_sources config)
        (Config.request_timeout_seconds config) tt
      = (Raise (RuntimeError []), tt, []).
Proof.
  eexists. split; [vm_compute; reflexivity|].
  refine (proj2
            (ip_sources_empty_iff (fun s => s) (fun p => p) (fun _ => true)
               (fun _ => true) (fun _ => false) int_of_defaults
               (fun _ _ s => (Raise (RequestException ""), s)) ipv4_address
               (Config.mkNamespace None None true false false)
               (<[ "IP_SOURCES" := " , " ]> environ_example) _ tt _) _).
  - vm_compute. reflexivity.
  - reflexivity.
Defined.

(** * The parser *)

Module ParserFacts.

Lemma lower_char_idem c :
  PyStr.lower_char (PyStr.lower_char c) = PyStr.lower_char c.
Proof. destruct c as [[] [] [] [] [] [] [] []]; reflexivity. Qed.

Lemma is_space_lower_char c :
  PyStr.is_space (PyStr.lower_char c) = PyStr.is_space c.
Proof. destruct c as [[] [] [] [] [] [] [] []]; reflexivity. Qed.

Lemma lower_idem s : PyStr.lower (PyStr.lower s) = PyStr.lower s.
Proof.
  induction s as [|c s IH]; cbn; [done|]. by rewrite lower_char_idem, IH.
Qed.

Lemma lstrip_lower s :
  PyStr.lstrip (PyStr.lower s) = PyStr.lower (PyStr.lstrip s).
Proof.
  induction s as [|c s IH]; cbn; [done|]. rewrite is_space_lower_char.
  by destruct (PyStr.is_space c).
Qed.

Lemma rstrip_lower s :
  PyStr.rstrip (PyStr.lower s) = PyStr.lower (PyStr.rstrip s).
Proof.
  induction s as [|c s IH]; cbn; [done|]. rewrite IH.
  destruct (PyStr.rstrip s); cbn; [|done].
  rewrite is_space_lower_char. by destruct (PyStr.is_space c).
Qed.

Lemma strip_lower s :
  PyStr.strip (PyStr.lower s) = PyStr.lower (PyStr.strip s).
Proof. unfold PyStr.strip. by rewrite lstrip_lower, rstrip_lower. Qed.

Lemma host_char_lower c : host_char c = true → PyStr.lower_char c = c.
Proof. destruct c as [[] [] [] [] [] [] [] []]; cbn; done. Qed.

Lemma all_chars_split p sep s :
  forallb (Parser.all_chars p) (Config.split sep s) = true →
  Parser.all_chars (fun c => p c || Ascii.eqb c sep) s = true.
Proof.
  induction s as [|c s IH]; cbn; [done|].
  destruct (Ascii.eqb c sep) eqn:E.
  - cbn. rewrite orb_true_r. cbn. exact IH.
  - destruct (Config.split sep s) as [|entry entries] eqn:Es.
    + cbn in *. intros H. apply andb_true_iff in H as [H _].
      apply andb_true_iff in H as [Hc _]. rewrite Hc. cbn. by apply IH.
    + cbn. intros H. apply andb_true_iff in H as [H1 H2].
      apply andb_true_iff in H1 as [Hc H1]. rewrite Hc. cbn.
      apply IH. cbn. by rewrite H1, H2.
Qed.

Lemma chomp_rstripped s : PyStr.rstrip s = s → Parser.chomp s = s.
Proof.
  induction s as [|c s IH]; [done|]. cbn [PyStr.rstrip Parser.chomp].
  destruct s as [|c' s'].
  - cbn. destruct (PyStr.is_space c) eqn:Ec; [done|]. intros _.
    destruct (Ascii.eqb_spec c "010"%char) as [->|]; [by vm_compute in Ec|].
    done.
  - destruct (PyStr.rstrip (String c' s')) as [|c'' r] eqn:Er.
    + by destruct (PyStr.is_space c).
    + intros [= -> ->]. by rewrite IH.
Qed.

Lemma strip_rstripped s : PyStr.strip s = s → PyStr.rstrip s = s.
Proof.
  intros Hs. rewrite <- Hs at 1. unfold PyStr.strip.
  by rewrite PyStrFacts.rstrip_idem.
Qed.

Lemma label_ok_chars label :
  Parser.label_ok label = true →
  Parser.all_chars Parser.label_char label = true.
Proof.
  unfold Parser.label_ok. intros H.
  repeat (apply andb_true_iff in H as [H ?]). done.
Qed.

Lemma fqdn_host_chars d :
  PyStr.strip d = d → Parser.FQDN_PATTERN d = true →
  Parser.all_chars host_char d = true ∧ String.length d ≤ 253.
Proof.
  intros Hs%strip_rstripped%chomp_rstripped. unfold Parser.FQDN_PATTERN.
  rewrite Hs. intros H. repeat (apply andb_true_iff in H as [H ?]).
  split; [|by apply Nat.leb_le].
  apply (all_chars_split Parser.label_char "."%char).
  apply forallb_forall. intros label Hl. apply label_ok_chars.
  by eapply forallb_forall in Hl.
Qed.

(** The hostname a candidate becomes, once it passes the checks. *)
Lemma candidate_literal candidate :
  let host := PyStr.lower (PyStr.strip candidate) in
  Parser.FQDN_PATTERN host = true → literal_host host.
Proof.
  intros host Hf.
  assert (Hs : PyStr.strip host = host).
  { unfold host. by rewrite strip_lower, PyStrFacts.strip_idem. }
  destruct (fqdn_host_chars host Hs Hf) as [Hc Hl].
  split_and!; try done. unfold host. apply lower_idem.
Qed.

Lemma add_candidate_literal context acc candidate :
  set_Forall literal_host acc.1 →
  set_Forall literal_host (Parser.add_candidate context acc candidate).1.
Proof.
  destruct acc as [domains log]. unfold Parser.add_candidate. cbn.
  intros Hacc. destruct (PyStr.contains _ _); [done|].
  destruct (Parser.FQDN_PATTERN _) eqn:Ef; cbn; [|done].
  apply set_Forall_union; [|done]. apply set_Forall_singleton.
  by apply candidate_literal.
Qed.

Lemma add_candidates_literal context candidates acc :
  set_Forall literal_host acc.1 →
  set_Forall literal_host
    (fold_left (Parser.add_candidate context) candidates acc).1.
Proof.
  revert acc. induction candidates as [|c cs IH]; intros acc Hacc; [done|].
  cbn. by apply IH, add_candidate_literal.
Qed.

Lemma add_host_calls_literal rule context calls acc :
  set_Forall literal_host acc.1 →
  set_Forall literal_host
    (fold_left (Parser.add_host_call rule context) calls acc).1.
Proof.
  revert acc. induction calls as [|[name raw_args] calls IH];
    intros acc Hacc; [done|].
  cbn [fold_left]. apply IH. unfold Parser.add_host_call.
  destruct (Parser.finditer _ 0 raw_args); [done|].
  by apply add_candidates_literal.
Qed.

Lemma rule_literal rule context :
  set_Forall literal_host (Parser._extract_domains_from_rule rule context).1.
Proof.
  unfold Parser._extract_domains_from_rule.
  destruct (PyStr.contains "HostRegexp(" rule); [apply set_Forall_empty|].
  match goal with |- context [fold_left ?f ?l ?a] =>
    pose proof (add_host_calls_literal rule context l a) as H;
    destruct (fold_left f l a) as [domains log] end.
  destruct (_ && _); apply H; apply set_Forall_empty.
Qed.

(** The domains of a rule do not depend on the context, which only the
    warnings name. *)
Lemma add_candidate_domains context context' acc acc' candidate :
  acc.1 = acc'.1 →
  (Parser.add_candidate context acc candidate).1
  = (Parser.add_candidate context' acc' candidate).1.
Proof.
  destruct acc, acc'. unfold Parser.add_candidate. cbn. intros ->.
  destruct (PyStr.contains _ _); [done|].
  by destruct (Parser.FQDN_PATTERN _).
Qed.

Lemma add_candidates_domains context context' candidates acc acc' :
  acc.1 = acc'.1 →
  (fold_left (Parser.add_candidate context) candidates acc).1
  = (fold_left (Parser.add_candidate context') candidates acc').1.
Proof.
  revert acc acc'. induction candidates as [|c cs IH]; intros acc acc' H;
    [done|].
  cbn. by apply IH, add_candidate_domains.
Qed.

Lemma add_host_calls_domains rule context context' calls acc acc' :
  acc.1 = acc'.1 →
  (fold_left (Parser.add_host_call rule context) calls acc).1
  = (fold_left (Parser.add_host_call rule context') calls acc').1.
Proof.
  revert acc acc'. induction calls as [|[name raw_args] calls IH];
    intros acc acc' H; [done|].
  cbn [fold_left]. apply IH. unfold Parser.add_host_call.
  destruct (Parser.finditer _ 0 raw_args); [done|].
  by apply add_candidates_domains.
Qed.

Lemma rule_domains_context rule context context' :
  (Parser._extract_domains_from_rule rule context).1
  = (Parser._extract_domains_from_rule rule context').1.
Proof.
  unfold Parser._extract_domains_from_rule.
  destruct (PyStr.contains "HostRegexp(" rule); [done|].
  match goal with |- context [fold_left (Parser.add_host_call rule context)
                                ?l ?a] =>
    pose proof (add_host_calls_domains rule context context' l a a eq_refl)
      as H end.
  destruct (fold_left (Parser.add_host_call rule context) _ _)
    as [domains log].
  destruct (fold_left (Parser.add_host_call rule context') _ _)
    as [domains' log'].
  cbn in H. subst domains'. by destruct (_ && _).
Qed.

Lemma add_router_domains prefix acc item :
  (Parser.add_router prefix acc item).1 = acc.1 ∪ router_domains item.
Proof.
  destruct item as [router_name router_data].
  unfold Parser.add_router, router_domains. cbn.
  destruct router_data as [|data|]; try set_solver.
  destruct (Parser.get data "rule") as [[rule| |]|]; try set_solver.
  rewrite (rule_domains_context rule "" (prefix +:+ "." +:+ router_name)).
  by destruct (Parser._extract_domains_from_rule rule _).
Qed.

Lemma routers_domains prefix routers acc :
  (fold_left (Parser.add_router prefix) routers acc).1
  = acc.1 ∪ ⋃ (router_domains <$> routers).
Proof.
  revert acc. induction routers as [|item routers IH]; intros acc; cbn.
  - set_solver.
  - rewrite IH, add_router_domains. set_solver.
Qed.
End ParserFacts.

Section SourceFacts.
Context {path : Type}.
Variables (is_file : path → bool) (rglob : path → list path)
          (suffix : path → string) (sorted_paths : list path → list path)
          (str_path : path → string) (load : path → Parser.loaded).

Lemma routers_literal routers prefix :
  set_Forall literal_host (Parser._extract_from_routers routers prefix).1.
Proof.
  unfold Parser._extract_from_routers.
  rewrite ParserFacts.routers_domains. cbn.
  apply set_Forall_union; [apply set_Forall_empty|].
  intros d (X & HX & Hd)%elem_of_union_list.
  apply list_elem_of_fmap in HX as ([name data] & -> & _).
  revert d Hd. unfold router_domains. cbn.
  destruct data as [|data|]; try (intros ? []%elem_of_empty).
  destruct (Parser.get data "rule") as [[rule| |]|];
    try (intros ? []%elem_of_empty).
  apply ParserFacts.rule_literal.
Qed.

Lemma add_section_literal section prefix acc :
  set_Forall literal_host acc.1 →
  set_Forall literal_host (Parser.add_section section prefix acc).1.
Proof.
  intros Hacc. unfold Parser.add_section.
  destruct section as [[|items|]|]; try done.
  destruct (Parser.get items "routers") as [[|routers|]|]; try done.
  pose proof (routers_literal routers prefix) as Hr.
  destruct (Parser._extract_from_routers routers prefix) as [domains log].
  cbn. by apply set_Forall_union.
Qed.

Lemma add_docs_literal file_path docs acc :
  set_Forall literal_host acc.1 →
  set_Forall literal_host
    (fold_left (Parser.add_doc str_path file_path) docs acc).1.
Proof.
  revert acc. induction docs as [|doc docs IH]; intros acc Hacc; [done|].
  cbn [fold_left]. apply IH. unfold Parser.add_doc.
  destruct doc as [|items|]; try done.
  by do 2 apply add_section_literal.
Qed.

Lemma extract_files_literal files acc domains log :
  set_Forall literal_host acc.1 →
  Parser.extract_files str_path load files acc = (Ok domains, log) →
  set_Forall literal_host domains.
Proof.
  revert acc. induction files as [|file_path files IH]; intros acc Hacc;
    cbn [Parser.extract_files].
  - by intros [= <- _].
  - destruct (load file_path) as [docs|msg|msg|e]; [| | |done].
    + apply IH. by apply add_docs_literal.
    + by apply IH.
    + by apply IH.
Qed.
End SourceFacts.

(** X10. Every hostname the parser returns matches [FQDN_PATTERN], is in lower
    case and trimmed, holds only the characters a to z, 0 to 9, hyphen and dot
    (so no star and no blank), and has at most 253 characters. *)
Theorem extracted_domains_are_literal {path : Type}
    (is_file : path → bool) (rglob : path → list path)
    (suffix : path → string) (sorted_paths : list path → list path)
    (str_path : path → string) (load : path → Parser.loaded)
    (source : path) (domains : gset string)
    (log : list Parser.file_warning) :
  Parser.extract_domains_from_source is_file rglob suffix sorted_paths
    str_path load source = (Ok domains, log) →
  ∀ d, d ∈ domains → literal_host d.
Proof.
  unfold Parser.extract_domains_from_source. intros H.
  eapply extract_files_literal in H; [exact H|]. apply set_Forall_empty.
Qed.

Lemma extracted_domains_are_literal_witness :
  literal_host "three.example.com".
Proof.
  apply (extracted_domains_are_literal (fun _ => true) (fun _ => [])
           (fun _ => ".yml") (fun l => l) (fun p => p)
           (fun _ => Parser.Docs [config_yml]) "config.yml"
           {[ "one.example.com"; "two.example.com"; "three.example.com" ]}
           []).
  - vm_compute. reflexivity.
  - set_solver.
Defined.

(** X11. The domains [_extract_from_routers] returns do not depend on the
    order of the routers nor on the prefix: routers in another order, under
    another prefix, give the same set. *)
Theorem routers_order_is_irrelevant
    (routers routers' : list (string * Parser.yaml))
    (prefix prefix' : string) :
  routers ≡ₚ routers' →
  (Parser._extract_from_routers routers prefix).1
  = (Parser._extract_from_routers routers' prefix').1.
Proof.
  intros Hp. unfold Parser._extract_from_routers.
  rewrite !ParserFacts.routers_domains. cbn. f_equal.
  apply leibniz_equiv. by rewrite Hp.
Qed.

Lemma routers_order_is_irrelevant_witness :
  (Parser._extract_from_routers [router_a; router_b] "f:http.routers").1
  = (Parser._extract_from_routers [router_b; router_a] "f:tcp.routers").1.
Proof. apply routers_order_is_irrelevant. apply Permutation_swap. Defined.

(** [tests/test_traefik_parser.py], on the loaded documents. *)
Example test_extracts_http_and_tcp_domains :
  Parser.extract_domains_from_source (fun _ => true) (fun _ => [])
    (fun _ => ".yml") (fun l => l) (fun p => p)
    (fun _ => Parser.Docs [config_yml]) "config.yml"
  = (Ok {[ "one.example.com"; "two.example.com"; "three.example.com" ]}, []).
Proof. vm_compute. reflexivity. Qed.

Example test_skips_wildcard_and_hostregexp :
  (Parser._extract_domains_from_rule "Host(`*.example.com`)" "c").1 = ∅
  ∧ (Parser._extract_domains_from_rule
       "HostRegexp(`{subdomain:[a-z]+}.example.com`)" "c").1 = ∅
  ∧ (Parser._extract_domains_from_rule "Host(`good.example.com`)" "c").1
    = {[ "good.example.com" ]}.
Proof. split_and!; vm_compute; reflexivity. Qed.

(** * The cycle and the loop *)

Section CycleFacts.
Context {X path : Type}.
Variables
  (extract_domains_from_source :
     path → X → outcome (gset string) * list Parser.file_warning * X)
  (session_get : string → Z → X → outcome Response * X)
  (IPv4Address : string → outcome unit)
  (cloudflare : CloudflareClient X)
  (str_path : path → string)
  (setup_logging : string → outcome unit)
  (time_sleep : Z → X → X).

Lemma resolved_is_address sources timeout_seconds x public_ip x' sent :
  resolve_public_ipv4 session_get IPv4Address sources timeout_seconds x
  = (Ok public_ip, x', sent) →
  IPv4Address public_ip = Ok tt.
Proof.
  intros Hr.
  pose proof (resolve_loop_spec session_get IPv4Address timeout_seconds
                sources [] x []) as H.
  unfold resolve_public_ipv4 in Hr. cbv zeta in H. rewrite Hr in H.
  cbn in H. destruct H as (pre & source & post & _ & _ & Ha & _).
  unfold attempt in Ha.
  destruct (session_get source timeout_seconds _) as [got s1].
  injection Ha as Ha _.
  by apply read_response_ok in Ha as (response & _ & _ & _ & ?).
Qed.

Lemma main_loop_forever config :
  Config.once config = false →
  ∀ fuel x tr,
    Main.main_loop extract_domains_from_source session_get IPv4Address
      cloudflare str_path time_sleep fuel config x tr = None.
Proof.
  intros Ho fuel. induction fuel as [|fuel IH]; intros x tr; [done|].
  cbn [Main.main_loop].
  destruct (Main.run_sync_cycle _ _ _ _ _ config x) as [[o x1] sent].
  rewrite Ho. apply IH.
Qed.
End CycleFacts.

(** What the engine sends in a cycle, and what has come before. *)
Lemma cycle_engine_events {X path : Type}
    (extract_domains_from_source :
       path → X → outcome (gset string) * list Parser.file_warning * X)
    (session_get : string → Z → X → outcome Response * X)
    (IPv4Address : string → outcome unit)
    (cloudflare : CloudflareClient X) (str_path : path → string)
    (config : @Config.AppConfig path) (x : X) (e : event) :
  Main.FromEngine e
  ∈ (Main.run_sync_cycle extract_domains_from_source session_get IPv4Address
       cloudflare str_path config x).2 →
  ∃ domains warnings x1 public_ip x2 sent,
    extract_domains_from_source (Config.source config) x
    = (Ok domains, warnings, x1)
    ∧ domains ≠ ∅
    ∧ resolve_public_ipv4 session_get IPv4Address (Config.ip_sources config)
        (Config.request_timeout_seconds config) x1
      = (Ok public_ip, x2, sent)
    ∧ IPv4Address public_ip = Ok tt
    ∧ engine_event public_ip (Config.default_proxied config)
        (placed_by cloudflare x2 domains) (Config.cleanup_stale config) e.
Proof.
  unfold Main.run_sync_cycle.
  destruct (extract_domains_from_source _ x) as [[[domains|exc] warnings] x1]
    eqn:Ex; cbn.
  2:{ intros (w & [=] & _)%list_elem_of_fmap. }
  destruct (bool_decide_reflect (domains = ∅)) as [->|Hne]; cbn.
  { intros [(w & [=] & _)%list_elem_of_fmap|Hin%list_elem_of_singleton]
      %elem_of_app; done. }
  destruct (resolve_public_ipv4 _ _ _ _ x1) as [[[public_ip|exc] x2] sent]
    eqn:Er; cbn.
  2:{ intros [(w & [=] & _)%list_elem_of_fmap|(w & [=] & _)%list_elem_of_fmap]
        %elem_of_app. }
  pose proof (resolved_is_address _ _ _ _ _ _ _ _ Er) as Hip.
  destruct (sync_domains_body_sends public_ip (Config.default_proxied config)
              (Config.dry_run config) cloudflare domains
              (Config.cleanup_stale config) x2) as (sent' & Ht & Hs).
  unfold sync_domains.
  destruct (sync_domains_body _ _ _ _ _ _ _) as [o σ]. cbn in Ht. subst sent'.
  intros Hin.
  assert (Hin' : e ∈ trace σ).
  { destruct o as [summary|exc]; cbn in Hin;
      repeat (apply elem_of_app in Hin as [Hin|Hin]);
      try (apply list_elem_of_fmap in Hin as (w & [=] & Hw); by subst);
      try (apply list_elem_of_singleton in Hin; done). }
  exists domains, warnings, x1, public_ip, x2, sent.
  split_and!; try done. rewrite Forall_forall in Hs. by apply Hs.
Qed.

(** X12. A cycle contacts the provider only when the parser has returned at
    least one domain and the resolver an address. Every create and update of
    the cycle then carries that address, which [IPv4Address] accepts, and
    names one of those domains; a delete is sent only with [cleanup_stale]. *)
Theorem cycle_contacts_provider_with_resolved_address {X path : Type}
    (extract_domains_from_source :
       path → X → outcome (gset string) * list Parser.file_warning * X)
    (session_get : string → Z → X → outcome Response * X)
    (IPv4Address : string → outcome unit)
    (cloudflare : CloudflareClient X) (str_path : path → string)
    (config : @Config.AppConfig path) (x : X) (e : event) :
  Main.FromEngine e
  ∈ (Main.run_sync_cycle extract_domains_from_source session_get IPv4Address
       cloudflare str_path config x).2 →
  ∃ domains warnings x1 public_ip x2 sent,
    extract_domains_from_source (Config.source config) x
    = (Ok domains, warnings, x1)
    ∧ domains ≠ ∅
    ∧ resolve_public_ipv4 session_get IPv4Address (Config.ip_sources config)
        (Config.request_timeout_seconds config) x1
      = (Ok public_ip, x2, sent)
    ∧ IPv4Address public_ip = Ok tt
    ∧ engine_event public_ip (Config.default_proxied config)
        (placed_by cloudflare x2 domains) (Config.cleanup_stale config) e.
Proof. apply cycle_engine_events. Qed.

Lemma cycle_contacts_provider_with_resolved_address_witness :
  ∃ domains warnings x1 public_ip x2 sent,
    example_extract "http.yml" IntegrationTest.store_init
    = (Ok domains, warnings, x1)
    ∧ domains ≠ ∅
    ∧ resolve_public_ipv4 example_get ipv4_address ["https://api.ipify.org"]
        10 x1
      = (Ok public_ip, x2, sent)
    ∧ ipv4_address public_ip = Ok tt
    ∧ engine_event public_ip false
        (placed_by IntegrationTest.StoreCloudflare x2 domains) false
        (CallCreateARecord "z1" "metube.example.com" "203.0.113.10" false
           MANAGED_MARKER).
Proof.
  apply (cycle_contacts_provider_with_resolved_address example_extract
           example_get ipv4_address IntegrationTest.StoreCloudflare
           (fun p => p) (example_config true) IntegrationTest.store_init).
  vm_compute. set_solver.
Defined.



(** [tests/test_main_integration.py] *)
Example test_run_sync_cycle_end_to_end :
  let r := example_cycle (example_config true) IntegrationTest.store_init in
  r.1.1 = Ok tt ∧ IntegrationTest.synced r.1.2 = true.
Proof. vm_compute. by split. Qed.

(** * A second run changes nothing *)

Section Convergence.
Variables (public_ip : string) (default_proxied : bool).

Abbreviation Store := IntegrationTest.StoreCloudflare.
Abbreviation sync_one :=
  (sync_domain public_ip default_proxied false Store).

Lemma served_not_empty domain zones m :
  find_best_zone_match domain zones = Some m → domain ≠ "".
Proof.
  pose proof (best_of_fold domain zones) as H.
  unfold find_best_zone_match, best_of in *.
  destruct (fold_left (zone_step domain) zones None) as [[score m']|];
    [|done].
  destruct H as (z & _ & (Hn & _ & [->|[a ->]]) & _). { done. }
  intros _. by destruct a.
Qed.

Lemma store_list_named domain w :
  domain ≠ "" →
  IntegrationTest.store_list_a_records (Some domain) w
  = default [] (IntegrationTest._records w !! domain).
Proof.
  intros Hd. unfold IntegrationTest.store_list_a_records.
  by destruct domain.
Qed.

Lemma new_record_settled id proxied comment domain :
  _compose_comment (Some comment) = or_empty_strip (Some comment) →
  settled_records public_ip domain
    [record_of id domain public_ip proxied comment].
Proof.
  intros Hc.
  assert (Hn : named domain [record_of id domain public_ip proxied comment]
               = [record_of id domain public_ip proxied comment]).
  { unfold named. rewrite filter_cons_True; [done|]. reflexivity. }
  exists (record_of id domain public_ip proxied comment), (Some comment).
  rewrite Hn. split_and!; done.
Qed.

(** On a settled domain the loop body counts a no-op and leaves the
    provider as it is. *)
Lemma sync_domain_settled domain z (σ : frame IntegrationTest.store) :
  domain ≠ "" → domain_to_zone σ !! domain = Some z →
  settled public_ip domain (provider σ) →
  ∃ sent,
    sync_one domain σ
    = (Ok tt, mkFrame (provider σ) (trace σ ++ sent)
                (incr_noops (counts σ)) (domain_to_zone σ))
    ∧ Forall (fun e => is_mutation e = false) sent.
Proof.
  intros Hd Hz (target & existing & Hne & Hp & Hc & Hip & Hcomp).
  destruct z as [zid zn].
  rewrite (sync_domain_existing public_ip default_proxied false Store
             domain zid zn
             (default [] (IntegrationTest._records (provider σ) !! domain))
             (provider σ) target existing σ Hz); try done.
  2:{ unfold IntegrationTest.StoreCloudflare. cbn [list_a_records].
      by rewrite store_list_named. }
  cbv zeta. rewrite Hip, Hcomp, !String.eqb_refl. cbn [andb].
  rewrite <- !app_assoc. eexists. split; [reflexivity|].
  unfold multiple_warning. destruct (1 <? _); repeat constructor.
Qed.

Lemma sync_domain_comment_fails {W} (cloudflare : CloudflareClient W)
    dry_run domain zid zn listed w' target e (σ : frame W) :
  domain_to_zone σ !! domain = Some (zid, zn) →
  list_a_records cloudflare zid (Some domain) (provider σ)
  = (Ok listed, w') →
  named domain listed ≠ [] →
  _pick_record (named domain listed) = Ok target →
  as_comment (dict_get target "comment" JNull) = Raise e →
  (sync_domain public_ip default_proxied dry_run cloudflare domain σ).1
  = Raise e.
Proof.
  intros H1 H2 H3 H4 H5.
  unfold sync_domain, bind, get_domain_to_zone, lift, call.
  rewrite H1. cbn [fst provider]. rewrite H2. fold (named domain listed).
  destruct (named domain listed) as [|r rs] eqn:Hn; [done|].
  rewrite H4, H5. unfold log, emit, ret.
  by destruct (1 <? length (r :: rs))%nat.
Qed.

(** Whatever the loop body does for a domain, it leaves it settled, and
    it touches the records of no other name. *)
Lemma sync_domain_settles domain (σ σ' : frame IntegrationTest.store) :
  domain ≠ "" → sync_one domain σ = (Ok tt, σ') →
  settled public_ip domain (provider σ')
  ∧ (∀ d, d ≠ domain →
       IntegrationTest._records (provider σ') !! d
       = IntegrationTest._records (provider σ) !! d)
  ∧ IntegrationTest._zones (provider σ')
    = IntegrationTest._zones (provider σ)
  ∧ domain_to_zone σ' = domain_to_zone σ
  ∧ handled (counts σ') = S (handled (counts σ))
  ∧ skipped (counts σ') = skipped (counts σ)
  ∧ deletes (counts σ') = deletes (counts σ).
Proof.
  intros Hd.
  destruct (domain_to_zone σ !! domain) as [[zid zn]|] eqn:Hz;
    [|by rewrite sync_domain_unmatched].
  set (listed := default [] (IntegrationTest._records (provider σ)
                               !! domain)).
  assert (Hl : list_a_records Store zid (Some domain) (provider σ)
               = (Ok listed, provider σ)).
  { unfold IntegrationTest.StoreCloudflare. cbn [list_a_records].
    by rewrite store_list_named. }
  destruct (named domain listed) as [|r rs] eqn:Hn.
  - rewrite (sync_domain_create _ _ _ _ domain zid zn listed (provider σ) σ
               Hz Hl Hn).
    cbn. intros [= <-]. cbn. unfold settled. cbn.
    rewrite lookup_insert_eq. cbn. split_and!; try done.
    + apply new_record_settled. vm_compute. reflexivity.
    + intros d Hne. by rewrite lookup_insert_ne.
    + unfold handled. cbn. lia.
  - assert (Hne : named domain listed ≠ []) by (by rewrite Hn).
    destruct (pick_record_nonempty _ Hne) as [target Hp].
    destruct (as_comment (dict_get target "comment" JNull))
      as [existing|e] eqn:Hc.
    2:{ intros Hs.
        pose proof (sync_domain_comment_fails Store false domain zid zn
                      listed (provider σ) target e σ Hz Hl Hne Hp Hc) as Hf.
        by rewrite Hs in Hf. }
    rewrite (sync_domain_existing _ _ _ _ domain zid zn listed (provider σ)
               target existing σ Hz Hl Hne Hp Hc).
    cbv zeta.
    destruct (String.eqb (content_of target) public_ip
              && String.eqb (_compose_comment existing)
                   (or_empty_strip existing)) eqn:Hcond.
    + intros [= <-]. cbn. split_and!; try done.
      * apply andb_true_iff in Hcond as [Hip%String.eqb_eq Hcm%String.eqb_eq].
        by exists target, existing.
      * unfold handled. cbn. lia.
    + destruct (target !! "id") as [rid|]; [|done].
      cbn. intros [= <-]. cbn. unfold settled. cbn.
      rewrite lookup_insert_eq. cbn. split_and!; try done.
      * apply new_record_settled.
        assert (Hs : or_empty_strip (Some (_compose_comment existing))
                     = _compose_comment existing)
          by apply compose_stripped.
        apply compose_marked. rewrite Hs. apply compose_has_marker.
      * intros d Hne'. by rewrite lookup_insert_ne.
      * unfold handled. cbn. lia.
Qed.

Lemma sync_loop_settles l :
  ∀ σ σ' : frame IntegrationTest.store,
    NoDup l → (∀ d, d ∈ l → d ≠ "") →
    for_each l sync_one σ = (Ok tt, σ') →
    (∀ d, d ∈ l → settled public_ip d (provider σ'))
    ∧ (∀ d, d ∉ l →
         IntegrationTest._records (provider σ') !! d
         = IntegrationTest._records (provider σ) !! d)
    ∧ IntegrationTest._zones (provider σ')
      = IntegrationTest._zones (provider σ)
    ∧ domain_to_zone σ' = domain_to_zone σ
    ∧ handled (counts σ') = handled (counts σ) + length l
    ∧ skipped (counts σ') = skipped (counts σ)
    ∧ deletes (counts σ') = deletes (counts σ).
Proof.
  induction l as [|d l IH]; intros σ σ' Hnd Hne.
  { intros [= <-].
    split_and!; first [done|lia|by intros d ?%elem_of_nil]. }
  apply NoDup_cons in Hnd as [Hd Hnd]. cbn [for_each]. unfold bind.
  destruct (sync_one d σ) as [[[]|e] σ1] eqn:E1; [|done].
  apply sync_domain_settles in E1
    as (Hs1 & Hr1 & Hz1 & Hd1 & Hh1 & Hk1 & Hx1); [|apply Hne; by left].
  intros E2. apply IH in E2 as (Hs2 & Hr2 & Hz2 & Hd2 & Hh2 & Hk2 & Hx2);
    [|done|intros ? ?; apply Hne; by right].
  split_and!; try congruence.
  - intros d' [->|Hin]%elem_of_cons; [|by apply Hs2].
    unfold settled in *. by rewrite (Hr2 d Hd).
  - intros d' Hnin. apply not_elem_of_cons in Hnin as [Hne' Hnin].
    by rewrite (Hr2 d' Hnin), (Hr1 d' Hne').
  - cbn. lia.
Qed.

Lemma sync_loop_settled l :
  ∀ σ : frame IntegrationTest.store,
    (∀ d, d ∈ l →
       d ≠ "" ∧ is_Some (domain_to_zone σ !! d)
       ∧ settled public_ip d (provider σ)) →
    ∃ sent,
      for_each l sync_one σ
      = (Ok tt, mkFrame (provider σ) (trace σ ++ sent)
                  (Nat.iter (length l) incr_noops (counts σ))
                  (domain_to_zone σ))
      ∧ Forall (fun e => is_mutation e = false) sent.
Proof.
  induction l as [|d l IH]; intros σ Hl.
  { exists []. rewrite app_nil_r. by destruct σ. }
  destruct (Hl d) as (Hd & [z Hz] & Hs); [by left|].
  destruct (sync_domain_settled d z σ Hd Hz Hs) as (sent1 & E1 & Hq1).
  cbn [for_each]. unfold bind. rewrite E1.
  match goal with |- context [for_each l _ ?s] =>
    destruct (IH s) as (sent2 & -> & Hq2) end.
  { intros d' Hd'. apply Hl. by right. }
  exists (sent1 ++ sent2). cbn [length]. rewrite Nat.iter_succ_r.
  cbn [provider trace counts domain_to_zone]. rewrite <- app_assoc.
  split; [done|by apply Forall_app].
Qed.

Lemma cleanup_zone_store desired zone (σ : frame IntegrationTest.store) :
  ∃ sent,
    cleanup_zone false Store desired zone σ
    = (Ok tt, mkFrame (provider σ) (trace σ ++ sent) (counts σ)
                (domain_to_zone σ))
    ∧ Forall (fun e => is_mutation e = false) sent.
Proof.
  unfold cleanup_zone. destruct (PyStr.is_empty _).
  - exists []. rewrite app_nil_r. by destruct σ.
  - unfold bind, call. cbn. eexists [_]. split; [done|].
    by repeat constructor.
Qed.

Lemma cleanup_store desired zones :
  ∀ σ : frame IntegrationTest.store,
    ∃ sent,
      for_each zones (cleanup_zone false Store desired) σ
      = (Ok tt, mkFrame (provider σ) (trace σ ++ sent) (counts σ)
                  (domain_to_zone σ))
      ∧ Forall (fun e => is_mutation e = false) sent.
Proof.
  induction zones as [|zone zones IH]; intros σ.
  { exists []. rewrite app_nil_r. by destruct σ. }
  cbn [for_each]. unfold bind.
  destruct (cleanup_zone_store desired zone σ) as (sent1 & -> & Hq1).
  match goal with |- context [for_each zones _ ?s] =>
    destruct (IH s) as (sent2 & -> & Hq2) end.
  exists (sent1 ++ sent2). cbn. rewrite <- app_assoc.
  split; [done|by apply Forall_app].
Qed.

Lemma match_loop zones l :
  ∀ c0 d0, ∃ sent c d,
    (∀ (w : IntegrationTest.store) t,
       for_each l (match_domain zones) (mkFrame w t c0 d0)
       = (Ok tt, mkFrame w (t ++ sent) c d))
    ∧ Forall (fun e => is_mutation e = false) sent
    ∧ creates c = creates c0 ∧ updates c = updates c0
    ∧ noops c = noops c0 ∧ deletes c = deletes c0
    ∧ ∀ domain z, d !! domain = Some z →
        d0 !! domain = Some z ∨ domain ≠ "".
Proof.
  induction l as [|domain l IH]; intros c0 d0.
  { exists [], c0, d0. split_and!; try done; [|by left].
    intros w t. by rewrite app_nil_r. }
  destruct (find_best_zone_match domain zones) as [m|] eqn:Em.
  - destruct (IH c0 (<[domain := (zone_id m, zone_name m)]> d0))
      as (sent & c & d & Hrun & Hq & Hc1 & Hc2 & Hc3 & Hc4 & Hd).
    exists sent, c, d. split_and!; try done.
    + intros w t. cbn [for_each]. unfold bind.
      rewrite match_domain_unfold, Em. cbn. apply Hrun.
    + intros dom z [Hz|Hz]%Hd; [|by right].
      destruct (decide (domain = dom)) as [<-|Hne].
      * right. by eapply served_not_empty.
      * left. by rewrite lookup_insert_ne in Hz.
  - destruct (IH (incr_skipped c0) d0)
      as (sent & c & d & Hrun & Hq & Hc1 & Hc2 & Hc3 & Hc4 & Hd).
    eexists (_ :: sent), c, d. split_and!; try done.
    + intros w t. cbn [for_each]. unfold bind.
      rewrite match_domain_unfold, Em. cbn. rewrite Hrun.
      by rewrite <- app_assoc.
    + by constructor.
Qed.
End Convergence.

(** X14. On the provider of [tests/test_main_integration.py], which shows
    under a name what was last written for it, a run that returns leaves
    nothing to do: a second run with the same input from the provider the
    first one left returns too, with no create, update or delete, the domains
    the first run created, updated or found unchanged now all unchanged and
    the same domains skipped; it sends no mutating call and leaves the
    provider as it found it. *)
Theorem second_run_changes_nothing (domains : gset string)
    (public_ip : string) (default_proxied cleanup_stale : bool)
    (w w1 : IntegrationTest.store) (summary : SyncSummary)
    (tr : list event) :
  sync_domains domains public_ip default_proxied false cleanup_stale
    IntegrationTest.StoreCloudflare w = (Ok summary, w1, tr) →
  ∃ tr',
    sync_domains domains public_ip default_proxied false cleanup_stale
      IntegrationTest.StoreCloudflare w1
    = (Ok (mkSyncSummary 0 0 (handled summary) 0 (skipped summary)), w1, tr')
    ∧ Forall (fun e => is_mutation e = false) tr'.
Proof.
  intros H.
  destruct (match_loop (IntegrationTest._zones w)
              (sorted id (elements domains)) (mkSyncSummary 0 0 0 0 0) ∅)
    as (sent & c & d & Hrun & Hq & Hc1 & Hc2 & Hc3 & Hc4 & Hd).
  set (l2 := sorted id (elements (dom d))).
  assert (Hl2 : ∀ dom0, dom0 ∈ l2 → dom0 ≠ "" ∧ is_Some (d !! dom0)).
  { intros dom0 Hin. unfold l2 in Hin.
    rewrite (SortedFacts.sorted_Permutation id) in Hin.
    apply elem_of_elements, elem_of_dom in Hin as [z Hz].
    split; [|by exists z]. by destruct (Hd _ _ Hz) as [?%lookup_empty_Some|]. }
  assert (Hclean : ∀ zones (σ : frame IntegrationTest.store), ∃ sent3,
            (if cleanup_stale
             then for_each zones
                    (cleanup_zone false IntegrationTest.StoreCloudflare
                       domains)
             else ret tt) σ
            = (Ok tt, mkFrame (provider σ) (trace σ ++ sent3) (counts σ)
                        (domain_to_zone σ))
            ∧ Forall (fun e => is_mutation e = false) sent3).
  { intros zones σ. destruct cleanup_stale; [apply cleanup_store|].
    exists []. rewrite app_nil_r. by destruct σ. }
  assert (Hiter : ∀ n s, Nat.iter n incr_noops s
                  = mkSyncSummary (creates s) (updates s) (noops s + n)
                      (deletes s) (skipped s)).
  { induction n as [|n IH]; intros s.
    - destruct s; cbn. f_equal. lia.
    - rewrite Nat.iter_succ, IH. unfold incr_noops. cbn. f_equal. lia. }
  (* the first run *)
  unfold sync_domains, sync_domains_body, bind, call, get_domain_to_zone,
    get_counts in H.
  cbn [list_zones IntegrationTest.StoreCloudflare provider trace counts
       domain_to_zone initial_frame] in H.
  rewrite Hrun in H. cbn [provider trace counts domain_to_zone] in H.
  fold l2 in H.
  destruct (for_each l2 _ _) as [[[]|e] σ2] eqn:E2; [|done].
  apply sync_loop_settles in E2
    as (Hs & _ & Hz & Hdz & Hh & Hk & Hx);
    [|apply sorted_elements_NoDup|intros ? ?; by apply Hl2].
  cbn [provider counts domain_to_zone] in Hz, Hdz, Hh, Hk, Hx.
  destruct (Hclean (IntegrationTest._zones w) σ2) as (sent3 & E3 & _).
  rewrite E3 in H. cbn [provider trace counts] in H.
  injection H as <- <- _.
  (* the second run *)
  unfold sync_domains, sync_domains_body, bind, call, get_domain_to_zone,
    get_counts.
  cbn [list_zones IntegrationTest.StoreCloudflare provider trace counts
       domain_to_zone initial_frame].
  rewrite Hz, Hrun. cbn [provider trace counts domain_to_zone]. fold l2.
  match goal with |- context [for_each l2 _ ?s] =>
    destruct (sync_loop_settled public_ip default_proxied l2 s)
      as (sent2' & E2' & Hq2') end.
  { intros dom0 Hin. destruct (Hl2 dom0 Hin). split_and!; try done.
    by apply Hs. }
  rewrite E2'. cbn [provider trace counts domain_to_zone].
  match goal with |- context [(if cleanup_stale then _ else _) ?s] =>
    destruct (Hclean (IntegrationTest._zones w) s) as (sent3' & E3' & Hq3')
  end.
  rewrite E3'. cbn [provider trace counts domain_to_zone].
  assert (Hsum : Nat.iter (length l2) incr_noops c
                 = mkSyncSummary 0 0 (handled (counts σ2)) 0
                     (skipped (counts σ2))).
  { rewrite Hiter, Hc1, Hc2, Hc3, Hc4, Hk. cbn.
    unfold handled in *. rewrite Hh, Hc1, Hc2, Hc3. cbn. done. }
  rewrite Hsum. eexists. split; [reflexivity|].
  - cbn. constructor; [done|]. repeat (apply Forall_app; split); done.
Qed.

Lemma second_run_changes_nothing_witness :
  ∃ tr',
    sync_domains {[ "metube.example.com"; "a.other.net" ]} "203.0.113.10"
      false false true IntegrationTest.StoreCloudflare
      (sync_domains {[ "metube.example.com"; "a.other.net" ]} "203.0.113.10"
         false false true IntegrationTest.StoreCloudflare
         IntegrationTest.store_init).1.2
    = (Ok (mkSyncSummary 0 0 1 0 1),
       (sync_domains {[ "metube.example.com"; "a.other.net" ]} "203.0.113.10"
          false false true IntegrationTest.StoreCloudflare
          IntegrationTest.store_init).1.2, tr')
    ∧ Forall (fun e => is_mutation e = false) tr'.
Proof.
  eapply (second_run_changes_nothing
            {[ "metube.example.com"; "a.other.net" ]} "203.0.113.10" false
            true IntegrationTest.store_init _ (mkSyncSummary 1 0 0 0 1)).
  vm_compute. reflexivity.
Defined.

(** * Further facts about the matcher, the client and the cycle *)

Section FirstLongest.
Variable domain : string.

Lemma first_longest_fold zones :
  match fold_left (zone_step domain) zones None with
  | None => ∀ zone, zone ∈ zones → ¬ serves domain zone
  | Some (score, m) =>
      ∃ zone, first_longest domain zones zone
        ∧ score = String.length (zone_name_of zone)
        ∧ m = mkZoneMatch (zone_id_of zone) (zone_name_of zone)
  end.
Proof.
  induction zones as [|zone zones IH] using rev_ind.
  { cbn. intros zone Hin. by apply elem_of_nil in Hin. }
  rewrite fold_left_app. cbn [fold_left]. rewrite zone_step_unfold.
  destruct (servesb domain zone) eqn:Hs.
  - apply servesb_iff in Hs.
    destruct (fold_left (zone_step domain) zones None) as [[score m]|].
    + destruct IH as (z & (pre & post & -> & Hz & Hpre & Hpost) & -> & ->).
      destruct (String.length (zone_name_of z)
                <? String.length (zone_name_of zone)) eqn:Hlt.
      * apply Nat.ltb_lt in Hlt. exists zone. split_and!; try done.
        exists (pre ++ z :: post), []. split_and!; try done.
        -- intros z' Hin Hs'. apply elem_of_app in Hin as [Hin|Hin].
           ++ specialize (Hpre z' Hin Hs'). lia.
           ++ apply elem_of_cons in Hin as [->|Hin]; [done|].
              specialize (Hpost z' Hin Hs'). lia.
        -- intros z' Hin. by apply elem_of_nil in Hin.
      * apply Nat.ltb_ge in Hlt. exists z. split_and!; try done.
        exists pre, (post ++ [zone]). split_and!; try done.
        -- by rewrite <- app_assoc.
        -- intros z' Hin Hs'. apply elem_of_app in Hin as [Hin|Hin].
           ++ by apply Hpost.
           ++ apply list_elem_of_singleton in Hin as ->. done.
    + exists zone. split_and!; try done.
      exists zones, []. split_and!; try done.
      * intros z' Hin Hs'. by destruct (IH z' Hin).
      * intros z' Hin. by apply elem_of_nil in Hin.
  - assert (Hn : ¬ serves domain zone).
    { intros Hs'%servesb_iff. congruence. }
    destruct (fold_left (zone_step domain) zones None) as [[score m]|].
    + destruct IH as (z & (pre & post & -> & Hz & Hpre & Hpost) & -> & ->).
      exists z. split_and!; try done.
      exists pre, (post ++ [zone]). split_and!; try done.
      * by rewrite <- app_assoc.
      * intros z' Hin Hs'. apply elem_of_app in Hin as [Hin|Hin].
        -- by apply Hpost.
        -- apply list_elem_of_singleton in Hin as ->. done.
    + intros z' Hin. apply elem_of_app in Hin as [Hin|Hin].
      * by apply IH.
      * by apply list_elem_of_singleton in Hin as ->.
Qed.
End FirstLongest.

(** X15. Among the zones that serve a hostname with the longest name, the
    matcher returns the first of the list: a later zone replaces the best one
    so far only when its name is longer. *)
Theorem first_longest_zone_wins (domain : string) (zones : list dict)
    (m : ZoneMatch) :
  find_best_zone_match domain zones = Some m →
  ∃ zone, first_longest domain zones zone
    ∧ m = mkZoneMatch (zone_id_of zone) (zone_name_of zone).
Proof.
  pose proof (first_longest_fold domain zones) as H.
  unfold find_best_zone_match.
  destruct (fold_left (zone_step domain) zones None) as [[score m']|];
    [|done].
  intros [= <-]. destruct H as (zone & Hf & _ & ->). by exists zone.
Qed.

Lemma first_longest_zone_wins_witness :
  ∃ zone, first_longest "a.example.com" [zone_twin_1; zone_twin_2] zone
    ∧ mkZoneMatch "1" "example.com"
      = mkZoneMatch (zone_id_of zone) (zone_name_of zone).
Proof.
  apply (first_longest_zone_wins "a.example.com" [zone_twin_1; zone_twin_2]).
  vm_compute. reflexivity.
Defined.


(** X16. [_parse_bool] reads a string without regard to letter case, to white
    space around it and to the default: two strings that are equal up to these
    give the same truth value, or both none. *)
Theorem parse_bool_ignores_case_and_padding (s s' pre post : string)
    (d d' b : bool) :
  PyStr.lower s = PyStr.lower s' → blank pre → blank post →
  Config._parse_bool (Some (Config.OfStr (pre +:+ s' +:+ post))) d'
  = Config.Valid b
  ↔ Config._parse_bool (Some (Config.OfStr s)) d = Config.Valid b.
Proof.
  intros Hl Hpre Hpost. unfold Config._parse_bool.
  rewrite PaddingFacts.strip_padded by done.
  rewrite <- !ParserFacts.strip_lower, Hl.
  destruct (bool_decide _); [done|]. by destruct (bool_decide _).
Qed.

Lemma parse_bool_ignores_case_and_padding_witness :
  Config._parse_bool (Some (Config.OfStr (" " +:+ "Yes" +:+ newline))) false
  = Config.Valid true.
Proof.
  apply (parse_bool_ignores_case_and_padding "yes" "Yes" " " newline true
           false true); reflexivity.
Defined.

Section WriteFacts.
Context {H : Type}.
Variables
  (session_request :
     string → string → option dict → option dict → dict → Z → H →
     outcome (Client.response dict) * H)
  (str_exc : exn → string).
Variable self : Client.client.

Lemma request_sent_with_retries method path params payload
    (n : Client.net H) :
  sent_with_retries n
    (Client._request session_request str_exc self method path params
       payload 3 n).2
    (Client.Request method (Client._base_url +:+ path) params payload
       (Client._headers self) (Client._timeout_seconds self))
    method path.
Proof.
  destruct (request_loop_spec session_request str_exc self method path
              params payload 3 2 1 None n)
    as (excs & Hc & Hlen & Hj & _); [lia|done|].
  exists excs. split_and!; [lia|done|exact Hj].
Qed.
End WriteFacts.

(** X17. Each mutating call of the client sends one request, which it repeats
    after a failure the retry loop catches, three times at most: a create is a
    POST of the record to the records of the zone, an update a PUT of the
    record to the record's own path, a delete a DELETE of that path with no
    body. *)
Theorem mutations_are_sent_with_retries {H : Type}
    (session_request :
       string → string → option dict → option dict → dict → Z → H →
       outcome (Client.response dict) * H)
    (str_exc : exn → string) (self : Client.client)
    (zone_id record_id name ip : string) (proxied : bool) (comment : string)
    (n : Client.net H) :
  let records := "/zones/" +:+ zone_id +:+ "/dns_records" in
  let record := "/zones/" +:+ zone_id +:+ "/dns_records/" +:+ record_id in
  let payload := Client.record_payload name ip proxied comment in
  let request method path payload :=
    Client.Request method (Client._base_url +:+ path) None payload
      (Client._headers self) (Client._timeout_seconds self) in
  sent_with_retries n
    (Client.create_a_record session_request str_exc self zone_id name ip
       proxied comment n).2
    (request "POST" records (Some payload)) "POST" records
  ∧ sent_with_retries n
      (Client.update_a_record session_request str_exc self zone_id record_id
         name ip proxied comment n).2
      (request "PUT" record (Some payload)) "PUT" record
  ∧ sent_with_retries n
      (Client.delete_record session_request str_exc self zone_id record_id
         n).2
      (request "DELETE" record None) "DELETE" record.
Proof.
  intros records record payload request.
  unfold Client.create_a_record, Client.update_a_record,
    Client.delete_record.
  split_and!.
  - pose proof (request_sent_with_retries session_request str_exc self "POST"
                  records None (Some payload) n) as Hs.
    fold records payload.
    destruct (Client._request _ _ _ "POST" _ _ _ _ n) as [[data|e] n1];
      exact Hs.
  - pose proof (request_sent_with_retries session_request str_exc self "PUT"
                  record None (Some payload) n) as Hs.
    fold record payload.
    destruct (Client._request _ _ _ "PUT" _ _ _ _ n) as [[data|e] n1];
      exact Hs.
  - pose proof (request_sent_with_retries session_request str_exc self
                  "DELETE" record None None n) as Hs.
    fold record.
    destruct (Client._request _ _ _ "DELETE" _ _ _ _ n) as [[data|e] n1];
      exact Hs.
Qed.

(** X18. With the parser as the source of the domains, every name a cycle
    sends to the provider, in a lookup, a create or an update, is a hostname
    the parser lets through: in lower case, trimmed, matching [FQDN_PATTERN]
    and free of stars and blanks. *)
Theorem cycle_sends_literal_hosts {X path : Type}
    (is_file : path → bool) (rglob : path → list path)
    (suffix : path → string) (sorted_paths : list path → list path)
    (str_path : path → string) (load : path → Parser.loaded)
    (session_get : string → Z → X → outcome Response * X)
    (IPv4Address : string → outcome unit)
    (cloudflare : CloudflareClient X)
    (config : @Config.AppConfig path) (x : X) (e : event) (name : string) :
  let extract source (x : X) :=
    (Parser.extract_domains_from_source is_file rglob suffix sorted_paths
       str_path load source, x) in
  Main.FromEngine e
  ∈ (Main.run_sync_cycle extract session_get IPv4Address cloudflare str_path
       config x).2 →
  name_of_call e = Some name →
  literal_host name.
Proof.
  intros extract Hin Hname.
  apply cycle_engine_events in Hin
    as (domains & warnings & x1 & public_ip & x2 & sent & Hex & _ & _ & _ & He).
  unfold extract in Hex.
  destruct (Parser.extract_domains_from_source _ _ _ _ _ _ _)
    as [o log] eqn:Ep.
  injection Hex as -> -> _.
  unfold Parser.extract_domains_from_source in Ep.
  eapply extract_files_literal in Ep; [|apply set_Forall_empty].
  apply Ep.
  destruct e as [|zid [n|]|zid n ip p c|zid rid n ip p c| | |]; cbn in *;
    try done; injection Hname as <-.
  - by destruct He.
  - by destruct He as [[? _] _].
  - by destruct He as [[? _] _].
Qed.

Lemma cycle_sends_literal_hosts_witness :
  literal_host "one.example.com".
Proof.
  apply (cycle_sends_literal_hosts (X:=IntegrationTest.store)
           (fun _ => true) (fun _ => []) (fun _ => ".yml") (fun l => l)
           (fun p => p) (fun _ => Parser.Docs [config_yml]) example_get
           ipv4_address IntegrationTest.StoreCloudflare (example_config true)
           IntegrationTest.store_init
           (CallCreateARecord "z1" "one.example.com" "203.0.113.10" false
              MANAGED_MARKER)).
  - vm_compute. set_solver.
  - reflexivity.
Defined.
